(** * Benchmark reporting scripts of node-casbin: a shallow embedding

    The repository's CI pipeline has three Python scripts under
    [.github/scripts]:

    - [format_benchmark_data.py]  (the Normalizer),
    - [benchstat_simulator.py]    (the Comparator),
    - [benchmark_formatter.py]    (TableReflow).

    This file embeds their text processing and arithmetic:

    - a Python [str] is a list of Unicode code points ([len] counts code
      points, which is what the column arithmetic of TableReflow uses);
    - a Python [float] is an IEEE-754 binary64 number, given by the
      Standard Library's [spec_float] with its correctly rounded
      operations at precision 53 and maximal exponent 1024;
    - a raised exception is the [Raise] case of a small error monad;
    - a [dict] is a [gmap]. *)

From Stdlib Require Import ZArith NArith Ascii String Decimal.
From Stdlib Require Import Floats.SpecFloat.
From Stdlib Require DecimalPos DecimalN.
From stdpp Require Import base option list sorting gmap.

Local Open Scope Z_scope.

(** ** Python text *)

Module Text.

(** A string is its sequence of code points. *)
Definition str := list N.

(** Decoding of the UTF-8 bytes of a literal of this file into code points;
    only well-formed literals are written below. *)
Fixpoint utf8_decode (bs : list N) : str :=
  match bs with
  | [] => []
  | b :: r =>
      if (b <? 128)%N then b :: utf8_decode r
      else if (b <? 224)%N then
        match r with
        | b1 :: r1 => ((b - 192) * 64 + (b1 - 128))%N :: utf8_decode r1
        | _ => []
        end
      else if (b <? 240)%N then
        match r with
        | b1 :: b2 :: r2 =>
            ((b - 224) * 4096 + (b1 - 128) * 64 + (b2 - 128))%N :: utf8_decode r2
        | _ => []
        end
      else
        match r with
        | b1 :: b2 :: b3 :: r3 =>
            ((b - 240) * 262144 + (b1 - 128) * 4096 + (b2 - 128) * 64 + (b3 - 128))%N
              :: utf8_decode r3
        | _ => []
        end
  end.

Fixpoint bytes_of (s : string) : list N :=
  match s with
  | EmptyString => []
  | String a r => N_of_ascii a :: bytes_of r
  end.

Definition u (s : string) : str := utf8_decode (bytes_of s).
Arguments u : simpl never.

Definition len (s : str) : Z := Z.of_nat (length s).

(** [a == b] *)
Fixpoint str_eqb (a b : str) : bool :=
  match a, b with
  | [], [] => true
  | x :: a', y :: b' => (x =? y)%N && str_eqb a' b'
  | _, _ => false
  end.

(** [str.isspace] of one character, which is also the class [\s] of [re]
    on [str] patterns and the separator set of [str.split()] and
    [str.strip()]. *)
Definition is_space (c : N) : bool :=
  ((9 <=? c) && (c <=? 13) || (28 <=? c) && (c <=? 32)
   || (c =? 133) || (c =? 160) || (c =? 5760)
   || (8192 <=? c) && (c <=? 8202)
   || (c =? 8232) || (c =? 8233) || (c =? 8239) || (c =? 8287)
   || (c =? 12288))%N.

(** First code points of the runs of ten decimal digits (general category
    Nd, Unicode 14.0 as shipped with CPython 3.11): the class [\d] of [re]
    on [str] patterns, and the digits [float()] accepts. *)
Definition decimal_runs : list N :=
  [ 48; 1632; 1776; 1984; 2406; 2534; 2662; 2790; 2918; 3046; 3174; 3302;
    3430; 3558; 3664; 3792; 3872; 4160; 4240; 6112; 6160; 6470; 6608; 6784;
    6800; 6992; 7088; 7232; 7248; 42528; 43216; 43264; 43472; 43504; 43600;
    44016; 65296; 66720; 68912; 69734; 69872; 69942; 70096; 70384; 70736;
    70864; 71248; 71360; 71472; 71904; 72016; 72784; 73040; 73120; 92768;
    92864; 93008; 120782; 120792; 120802; 120812; 120822; 123200; 123632;
    125264; 130032 ]%N.

Fixpoint digit_in (runs : list N) (c : N) : option N :=
  match runs with
  | [] => None
  | s :: r => if ((s <=? c) && (c <? s + 10))%N then Some (c - s)%N else digit_in r c
  end.

Definition decimal_value (c : N) : option N := digit_in decimal_runs c.

Definition is_digit (c : N) : bool :=
  match decimal_value c with Some _ => true | None => false end.

(** [[a-zA-Z]] *)
Definition is_ascii_letter (c : N) : bool :=
  ((65 <=? c) && (c <=? 90) || (97 <=? c) && (c <=? 122))%N.

(** [s.startswith(p)] *)
Fixpoint startswith (p s : str) : bool :=
  match p, s with
  | [], _ => true
  | a :: p', b :: s' => (a =? b)%N && startswith p' s'
  | _ :: _, [] => false
  end.

(** [sub in s] *)
Fixpoint contains (sub s : str) : bool :=
  startswith sub s ||
  match s with
  | [] => false
  | _ :: s' => contains sub s'
  end.

(** [s.find(sub)]: the least index at which [sub] occurs. *)
Fixpoint find_from (i : Z) (sub s : str) : option Z :=
  if startswith sub s then Some i
  else match s with
       | [] => None
       | _ :: s' => find_from (i + 1) sub s'
       end.

Definition find (sub s : str) : option Z := find_from 0 sub s.

(** [s.lstrip()], [s.rstrip()], [s.strip()] *)
Fixpoint lstrip (s : str) : str :=
  match s with
  | c :: s' => if is_space c then lstrip s' else s
  | [] => []
  end.

Definition rstrip (s : str) : str := rev (lstrip (rev s)).

Definition strip (s : str) : str := rstrip (lstrip s).

(** [s.rstrip(chars)] for a one-character [chars]. *)
Fixpoint lstrip_char (x : N) (s : str) : str :=
  match s with
  | c :: s' => if (c =? x)%N then lstrip_char x s' else s
  | [] => []
  end.

Definition rstrip_char (x : N) (s : str) : str := rev (lstrip_char x (rev s)).

(** [s.split(sep)[0]] for a one-character [sep]: the text before the first
    separator, the whole text when there is none. *)
Fixpoint before_first (sep : N) (s : str) : str :=
  match s with
  | [] => []
  | c :: s' => if (c =? sep)%N then [] else c :: before_first sep s'
  end.

(** [s.split()]: the maximal runs of non-space characters. *)
Fixpoint split_go (cur : str) (s : str) : list str :=
  match s with
  | [] => match cur with [] => [] | _ => [rev cur] end
  | c :: s' =>
      if is_space c
      then match cur with
           | [] => split_go [] s'
           | _ => rev cur :: split_go [] s'
           end
      else split_go (c :: cur) s'
  end.

Definition split (s : str) : list str := split_go [] s.

(** [s.splitlines()]: the line boundaries are LF, CR, CR LF, VT, FF, FS,
    GS, RS, NEL, LS and PS; the boundaries are dropped. *)
Definition is_linebreak (c : N) : bool :=
  ((10 <=? c) && (c <=? 13) || (28 <=? c) && (c <=? 30)
   || (c =? 133) || (c =? 8232) || (c =? 8233))%N.

Fixpoint splitlines_go (cur : str) (s : str) : list str :=
  match s with
  | [] => match cur with [] => [] | _ => [rev cur] end
  | c :: s' =>
      if is_linebreak c
      then rev cur ::
           match c, s' with
           | 13%N, 10%N :: s'' => splitlines_go [] s''
           | _, _ => splitlines_go [] s'
           end
      else splitlines_go (c :: cur) s'
  end.

Definition splitlines (s : str) : list str := splitlines_go [] s.

(** ["\n".join(ls)] *)
Fixpoint join_lines (ls : list str) : str :=
  match ls with
  | [] => []
  | [l] => l
  | l :: r => l ++ 10%N :: join_lines r
  end.

(** [" " * n] *)
Definition spaces (n : Z) : str := replicate (Z.to_nat n) 32%N.

(** [f"{s:<w}"] *)
Definition ljust (w : Z) (s : str) : str := s ++ spaces (w - len s).

End Text.
Import Text.

(** ** Python floats *)

Module PyFloat.

(** binary64 *)
Definition float := spec_float.
Definition prec : Z := 53.
Definition emax : Z := 1024.

Definition fadd : float -> float -> float := SFadd prec emax.
Definition fsub : float -> float -> float := SFsub prec emax.
Definition fmul : float -> float -> float := SFmul prec emax.
Definition fdiv : float -> float -> float := SFdiv prec emax.

(** [x < y], [x > y], [x == y], [x != y], [x <= y]; every comparison with
    a NaN is false, except [!=]. *)
Definition flt (x y : float) : bool := SFltb x y.
Definition fgt (x y : float) : bool := SFltb y x.
Definition feq (x y : float) : bool := SFeqb x y.
Definition fne (x y : float) : bool := negb (SFeqb x y).
Definition fle (x y : float) : bool := SFleb x y.

(** The float nearest to the fraction [n / d] (ties to even), with the
    sign [neg]: what a decimal literal and [float()] of a decimal string
    denote, and what [int] operands are converted to. *)
Definition float_of_ratio (neg : bool) (n : N) (d : positive) : float :=
  match n with
  | N0 => S754_zero neg
  | Npos p => fdiv (S754_finite neg p 0) (S754_finite false d 0)
  end.

Definition float_of_Z (z : Z) : float :=
  match z with
  | Z0 => S754_zero false
  | Zpos p => float_of_ratio false (Npos p) 1
  | Zneg p => float_of_ratio true (Npos p) 1
  end.

Arguments float_of_ratio : simpl never.
Arguments float_of_Z : simpl never.

(** [round(|x| * 100)] as an integer, ties to even, for a finite
    [x = m * 2^e]: the digits both of [f"{x:.2f}"] and of [round(x, 2)],
    which CPython computes from the exact binary value. *)
Definition hundredths (m : positive) (e : Z) : Z :=
  if 0 <=? e then Zpos m * 100 * 2 ^ e
  else
    let d := 2 ^ (- e) in
    let q := (Zpos m * 100) / d in
    let r := (Zpos m * 100) mod d in
    match 2 * r ?= d with
    | Lt => q
    | Gt => q + 1
    | Eq => if Z.even q then q else q + 1
    end.

Fixpoint uint_digits (d : Decimal.uint) : str :=
  match d with
  | Nil => []
  | D0 r => 48%N :: uint_digits r
  | D1 r => 49%N :: uint_digits r
  | D2 r => 50%N :: uint_digits r
  | D3 r => 51%N :: uint_digits r
  | D4 r => 52%N :: uint_digits r
  | D5 r => 53%N :: uint_digits r
  | D6 r => 54%N :: uint_digits r
  | D7 r => 55%N :: uint_digits r
  | D8 r => 56%N :: uint_digits r
  | D9 r => 57%N :: uint_digits r
  end.

(** Decimal digits of a natural number, ["0"] for zero. *)
Definition digits_of (n : Z) : str := uint_digits (N.to_uint (Z.to_N n)).

Definition two_digits (n : Z) : str :=
  if n <? 10 then 48%N :: digits_of n else digits_of n.

(** The sign bit of a float and the text of its magnitude with two
    decimals. *)
Definition sign_bit (x : float) : bool :=
  match x with
  | S754_zero s | S754_infinity s | S754_finite s _ _ => s
  | S754_nan => false
  end.

Definition fixed2_abs (x : float) : str :=
  match x with
  | S754_zero _ => u "0.00"
  | S754_infinity _ => u "inf"
  | S754_nan => u "nan"
  | S754_finite _ m e =>
      let h := hundredths m e in
      digits_of (h / 100) ++ u "." ++ two_digits (h mod 100)
  end.

(** [f"{x:.2f}"] *)
Definition format_2f (x : float) : str :=
  (if sign_bit x then u "-" else []) ++ fixed2_abs x.

(** [f"{x:+.2f}"] *)
Definition format_plus_2f (x : float) : str :=
  (if sign_bit x then u "-" else u "+") ++ fixed2_abs x.

(** [round(x, 2)]: the float nearest to the decimal with two places that
    is nearest to [x]; infinities and NaN round to themselves. *)
Definition round2 (x : float) : float :=
  match x with
  | S754_finite s m e => float_of_ratio s (Z.to_N (hundredths m e)) 100
  | _ => x
  end.

End PyFloat.
Import PyFloat.

(** ** Exceptions *)

Inductive exn :=
| ValueError (msg : str)
| OSError (msg : str).

Inductive result (A : Type) :=
| Ok (a : A)
| Raise (e : exn).
Arguments Ok {A} a.
Arguments Raise {A} e.

#[global] Instance result_ret : MRet result := fun A a => Ok a.

#[global] Instance result_bind : MBind result := fun A B k r =>
  match r with
  | Ok a => k a
  | Raise e => Raise e
  end.

(** [str(e)] *)
Definition exn_text (e : exn) : str :=
  match e with
  | ValueError msg | OSError msg => msg
  end.

(** One-character literals. *)
Definition chr (s : string) : N := hd 0%N (u s).
Arguments chr : simpl never.

(** The longest prefix of characters of a class, and the rest. *)
Fixpoint span (p : N -> bool) (s : str) : str * str :=
  match s with
  | c :: s' => if p c then let '(a, b) := span p s' in (c :: a, b) else ([], s)
  | [] => ([], [])
  end.

(** [re.sub(r"^Benchmark", "", text)], shared by TableReflow and the
    Normalizer. *)
Definition strip_benchmark_prefix (text : str) : str :=
  if startswith (u "Benchmark") text then drop 9 text else text.

(** ** TableReflow: [benchmark_formatter.py] *)

Module Formatter.

(** *** [strip_worker_suffix] *)

(** [-\d+(\s|$)] at the head of [s]: the text of group 2 and the number of
    characters matched. When the digits are followed by a final newline,
    [\s] takes it before [$] is tried. *)
Definition worker_tail (s : str) : option (str * nat) :=
  match s with
  | c :: r =>
      if (c =? chr "-")%N then
        let '(ds, rest) := span is_digit r in
        match ds, rest with
        | [], _ => None
        | _, [] => Some ([], S (length ds))
        | _, c' :: _ => if is_space c' then Some ([c'], S (S (length ds))) else None
        end
      else None
  | [] => None
  end.

(** [(\S+?)-\d+(\s|$)] once group 1 holds the characters [g1] (kept in
    reverse): the lazy group grows one non-space character at a time until
    the tail matches. The result is the replacement text [\1\2] and the
    number of characters the match covers after [g1] began. *)
Fixpoint worker_grow (g1 : str) (s : str) : option (str * nat) :=
  match worker_tail s with
  | Some (g2, n) => Some (rev g1 ++ g2, (length g1 + n)%nat)
  | None =>
      match s with
      | c :: s' => if is_space c then None else worker_grow (c :: g1) s'
      | [] => None
      end
  end.

Definition worker_here (s : str) : option (str * nat) :=
  match s with
  | c :: s' => if is_space c then None else worker_grow [c] s'
  | [] => None
  end.

(** [re.sub(r"(\S+?)-\d+(\s|$)", r"\1\2", s)]: the matches are found from
    left to right and do not overlap; [skip] counts the characters of the
    current match that are still to be passed over. *)
Fixpoint sub_worker (skip : nat) (s : str) : str :=
  match s with
  | [] => []
  | c :: s' =>
      match skip with
      | S k => sub_worker k s'
      | O =>
          match worker_here s with
          | Some (repl, n) => repl ++ sub_worker (Nat.pred n) s'
          | None => c :: sub_worker 0 s'
          end
      end
  end.

Definition strip_worker_suffix (text : str) : str :=
  let text := strip_benchmark_prefix text in
  sub_worker 0 text.

(** *** [get_icon] *)

Definition slower : str := u "🐌".
Definition faster : str := u "🚀".
Definition neutral : str := u "➡️".

Definition get_icon (diff_val : float) : str :=
  if fgt diff_val (float_of_Z 10) then slower
  else if flt diff_val (float_of_Z (-10)) then faster
  else neutral.

(** *** [clean_superscripts] *)

Definition superscripts : str := u "¹²³⁴⁵⁶⁷⁸⁹⁰".

Definition is_superscript (c : N) : bool := existsb (N.eqb c) superscripts.

Definition clean_superscripts (text : str) : str :=
  filter (fun c => is_superscript c = false) text.

(** *** [parse_val] *)

(** [$]: the end of the text, or just before a final newline. *)
Definition at_end (s : str) : bool :=
  match s with
  | [] => true
  | [c] => (c =? 10)%N
  | _ => false
  end.

(** [[a-zA-Zµ]] *)
Definition is_unit_letter (c : N) : bool :=
  is_ascii_letter c || (c =? chr "µ")%N.

(** [[-+]?] at the head of a text: the sign taken and the rest. *)
Definition take_sign (token : str) : str * str :=
  match token with
  | c :: r => if (c =? chr "-")%N || (c =? chr "+")%N then ([c], r) else ([], token)
  | [] => ([], [])
  end.

(** [\d*\.?\d+] at the head of a text: the text matched and the rest. The
    digits before the point are all taken; a point is taken only when a
    digit follows it. *)
Definition number_body (r0 : str) : option (str * str) :=
  let '(d1, r1) := span is_digit r0 in
  let whole := match d1 with [] => None | _ => Some (d1, r1) end in
  match r1 with
  | c :: r2 =>
      if (c =? chr ".")%N then
        let '(d2, r3) := span is_digit r2 in
        match d2 with
        | [] => whole
        | _ => Some (d1 ++ c :: d2, r3)
        end
      else whole
  | [] => whole
  end.

(** [re.match(r"^([-+]?\d*\.?\d+)([a-zA-Zµ]+)?$", token)]: groups 1 and 2,
    group 2 being empty when it takes no part in the match. The digit and
    letter classes are disjoint and a number ends with a digit, so the
    greedy quantifiers never give characters back in a successful match. *)
Definition match_number (token : str) : option (str * str) :=
  let '(sg, r0) := take_sign token in
  match number_body r0 with
  | None => None
  | Some (num, rest) =>
      let '(letters, tail) := span is_unit_letter rest in
      if at_end tail then Some (sg ++ num, letters) else None
  end.

(** The number a run of decimal digits denotes, after [acc]. *)
Fixpoint digits_value (acc : N) (ds : str) : option N :=
  match ds with
  | [] => Some acc
  | c :: r =>
      match decimal_value c with
      | Some v => digits_value (acc * 10 + v)%N r
      | None => None
      end
  end.

Fixpoint pow10 (k : nat) : positive :=
  match k with
  | O => 1
  | S k' => 10 * pow10 k'
  end%positive.

(** [float(text)] for a text of the shape of group 1 of [match_number]:
    sign, digits, and digits after a point; [None] stands for the
    [ValueError] of any other text of that alphabet. The value is the
    float nearest to the decimal. *)
Definition float_of_numeral (text : str) : option float :=
  let '(neg, r0) :=
    match text with
    | c :: r =>
        if (c =? chr "-")%N then (true, r)
        else if (c =? chr "+")%N then (false, r)
        else (false, text)
    | [] => (false, [])
    end in
  let '(d1, r1) := span is_digit r0 in
  let '(d2, r2) :=
    match r1 with
    | c :: r => if (c =? chr ".")%N then span is_digit r else ([], r1)
    | [] => ([], [])
    end in
  match d1 ++ d2, r2 with
  | _ :: _, [] =>
      match digits_value 0 (d1 ++ d2) with
      | Some n => Some (float_of_ratio neg n (pow10 (length d2)))
      | None => None
      end
  | _, _ => None
  end.

(** [suffix.replace("µ", "u")] *)
Definition micro_to_u (suffix : str) : str :=
  map (fun c => if (c =? chr "µ")%N then chr "u" else c) suffix.

(** The literals [1e-9], [1e-6], [1e-3]. *)
Definition f_1e_9 : float := float_of_ratio false 1 1000000000.
Definition f_1e_6 : float := float_of_ratio false 1 1000000.
Definition f_1e_3 : float := float_of_ratio false 1 1000.

Definition parse_val (token : str) : result (option float) :=
  if contains (u "%") token || contains (u "=") token then Ok None
  else
    let token := clean_superscripts token in
    let token := strip (before_first (chr "±") token) in
    let token := strip (before_first (chr "(") token) in
    match token with
    | [] => Ok None
    | _ =>
        match match_number token with
        | None => Ok None
        | Some (g1, g2) =>
            match float_of_numeral g1 with
            | None => Ok None
            | Some val =>
                let suffix := micro_to_u g2 in
                if str_eqb suffix (u "n") || str_eqb suffix (u "ns")
                then Ok (Some (fmul val f_1e_9))
                else if str_eqb suffix (u "u") || str_eqb suffix (u "us")
                then Ok (Some (fmul val f_1e_6))
                else if str_eqb suffix (u "m") || str_eqb suffix (u "ms")
                then Ok (Some (fmul val f_1e_3))
                else if str_eqb suffix (u "s") then Ok (Some val)
                else if str_eqb suffix [] then Ok (Some val)
                else Raise (ValueError (u "Unexpected unit: " ++ suffix))
            end
        end
    end.

(** *** [extract_two_numbers] *)

Definition is_separator (t : str) : bool :=
  str_eqb t (u "±") || str_eqb t (u "∞") || str_eqb t (u "~")
  || str_eqb t (u "│") || str_eqb t (u "|").

(** The loop over [tokens[1:]], with the list [found] built so far. *)
Fixpoint extract_loop (found : list float) (ts : list str) : result (list float) :=
  match ts with
  | [] => Ok found
  | t :: r =>
      if is_separator t then extract_loop found r
      else if contains (u "%") t || contains (u "=") t then extract_loop found r
      else if startswith (u "p=") t || startswith (u "n=") t then extract_loop found r
      else
        val ← parse_val t;
        match val with
        | Some v =>
            let found := found ++ [v] in
            if (length found =? 2)%nat then Ok found else extract_loop found r
        | None => extract_loop found r
        end
  end.

Definition extract_two_numbers (tokens : list str) : result (list float) :=
  extract_loop [] (drop 1 tokens).

(** *** Classification of a line *)

(** [line.strip().startswith("```")] *)
Definition is_fence (line : str) : bool := startswith (u "```") (strip line).

(** [re.match(r"^\s*[¹²³⁴⁵⁶⁷⁸⁹⁰]", line)] *)
Definition starts_with_superscript (line : str) : bool :=
  match lstrip line with
  | c :: _ => is_superscript c
  | [] => false
  end.

(** [need\s*>?=\s*\d+\s+samples] at the head of [s]. *)
Definition need_samples_here (s : str) : bool :=
  startswith (u "need") s &&
  let r := lstrip (drop 4 s) in
  let r := match r with
           | c :: r' => if (c =? chr ">")%N then r' else r
           | [] => r
           end in
  match r with
  | c :: r' =>
      (c =? chr "=")%N &&
      let '(ds, r'') := span is_digit (lstrip r') in
      match ds, r'' with
      | _ :: _, c' :: t => is_space c' && startswith (u "samples") (lstrip t)
      | _, _ => false
      end
  | [] => false
  end.

(** [re.search(r"need\s*>?=\s*\d+\s+samples", line)] *)
Fixpoint need_samples (line : str) : bool :=
  need_samples_here line ||
  match line with
  | _ :: r => need_samples r
  | [] => false
  end.

Definition is_footnote (line : str) : bool :=
  starts_with_superscript line || need_samples line.

(** [not line.strip() or
     line.strip().startswith(("goos:", "goarch:", "pkg:", "cpu:"))] *)
Definition is_metadata (line : str) : bool :=
  let t := strip line in
  str_eqb t [] || startswith (u "goos:") t || startswith (u "goarch:") t
  || startswith (u "pkg:") t || startswith (u "cpu:") t.

(** ["│" in line and
     ("vs base" in line or "old" in line or "new" in line)] *)
Definition is_column_header (line : str) : bool :=
  contains (u "│") line &&
  (contains (u "vs base") line || contains (u "old") line || contains (u "new") line).

(** *** Pass 0: the widths *)

(** One iteration of the first loop, on the state [(in_code,
    max_content_width)]. *)
Definition width_step (st : bool * Z) (line : str) : bool * Z :=
  let '(in_code, max_content_width) := st in
  if is_fence line then (negb in_code, max_content_width)
  else if negb in_code then st
  else if is_footnote line then st
  else if is_metadata line then st
  else if is_column_header line then st
  else
    let curr_line := rstrip (strip_worker_suffix line) in
    let w := len curr_line in
    (in_code, if max_content_width <? w then w else max_content_width).

Definition width_pass (in_code : bool) (lines : list str) : bool * Z :=
  foldl width_step (in_code, 0) lines.

(** *** The emission loop *)

Definition INDENT : str := u "        ".

(** [\s+Diff\s*$] at the head of [s], ignoring case: under [re.IGNORECASE]
    the letter [i] also matches U+0130 and U+0131. *)
Definition diff_here (s : str) : bool :=
  match s with
  | c :: r =>
      is_space c &&
      match lstrip r with
      | a :: b :: c' :: d :: t =>
          ((a =? 68) || (a =? 100))%N
          && ((b =? 73) || (b =? 105) || (b =? 304) || (b =? 305))%N
          && ((c' =? 70) || (c' =? 102))%N
          && ((d =? 70) || (d =? 102))%N
          && str_eqb (lstrip t) []
      | _ => false
      end
  | [] => false
  end.

(** [re.sub(r"\s+Diff\s*$", "", s, flags=re.IGNORECASE)]: a match reaches
    the end of the text, so the leftmost one is the only one. *)
Fixpoint strip_diff (s : str) : str :=
  if diff_here s then []
  else match s with
       | c :: s' => c :: strip_diff s'
       | [] => []
       end.

(** The branch of the column-header line. *)
Definition reflow_header (diff_col_start : Z) (line : str) : str :=
  let stripped_header := rstrip (rstrip_char (chr "│") (rstrip line)) in
  let stripped_header := strip_diff stripped_header in
  let new_header :=
    if len stripped_header <? diff_col_start
    then stripped_header ++ spaces (diff_col_start - len stripped_header)
    else stripped_header ++ u "  " in
  let new_header :=
    if contains (u "vs base") line then new_header ++ u "Diff" else new_header in
  let new_header := new_header ++ u "│" in
  INDENT ++ new_header.

Definition append_aligned (diff_col_start : Z) (left_part content : str) : str :=
  let aligned :=
    if len left_part <? diff_col_start
    then left_part ++ spaces (diff_col_start - len left_part)
    else left_part ++ u "  " in
  INDENT ++ aligned ++ content.

(** [(numbers[1] - numbers[0]) / numbers[0] * 100] *)
Definition diff_percent (base pr : float) : float :=
  fmul (fdiv (fsub pr base) base) (float_of_Z 100).

(** [f"{diff_val:+.2f}% {icon}"] *)
Definition diff_text (diff_val : float) : str :=
  format_plus_2f diff_val ++ u "% " ++ get_icon diff_val.

(** The branch of a data line. *)
Definition reflow_data (diff_col_start : Z) (line : str) : result str :=
  let line := strip_worker_suffix line in
  let tokens := split line in
  match tokens with
  | [] => Ok (INDENT ++ line)
  | _ =>
      numbers ← extract_two_numbers tokens;
      match numbers with
      | [n0; n1] =>
          if fne n0 (float_of_Z 0) then
            let diff_val := diff_percent n0 n1 in
            let left := rstrip line in
            Ok (append_aligned diff_col_start left (diff_text diff_val))
          else Ok (INDENT ++ line)
      | _ => Ok (INDENT ++ line)
      end
  end.

(** One iteration of the second loop: the new [in_code] and the line
    appended to [processed_lines]. *)
Definition emit_line (diff_col_start : Z) (in_code : bool) (line : str)
  : result (bool * str) :=
  if is_fence line then Ok (negb in_code, line)
  else if negb in_code then Ok (in_code, line)
  else if is_footnote line then Ok (in_code, INDENT ++ line)
  else if is_column_header line then Ok (in_code, reflow_header diff_col_start line)
  else if is_metadata line then Ok (in_code, INDENT ++ line)
  else out ← reflow_data diff_col_start line; Ok (in_code, out).

(** The second loop, on the state [(in_code, processed_lines)]. *)
Fixpoint emit (diff_col_start : Z) (st : bool * list str) (lines : list str)
  : result (bool * list str) :=
  match lines with
  | [] => Ok st
  | line :: rest =>
      '(in_code, out) ← emit_line diff_col_start st.1 line;
      emit diff_col_start (in_code, st.2 ++ [out]) rest
  end.

(** *** The script *)

(** Both loops on the lines of the file. [in_code] is set once, before the
    first loop, and the second loop starts from the value the first one
    leaves. *)
Definition reflow (lines : list str) : result (list str) :=
  let processed_lines := [] in
  let in_code := false in
  let '(in_code, max_content_width) := width_pass in_code lines in
  let diff_col_start := max_content_width - 13 in
  '(_, processed_lines) ← emit diff_col_start (in_code, processed_lines) lines;
  Ok processed_lines.

(** [comparison.md] as the script finds it: absent, present but not
    readable as UTF-8 text ([read_text] raises), or a text. *)
Inductive file :=
| Absent
| Unreadable (e : exn)
| Present (text : str).

(** What a run leaves behind: the exit status, the lines printed on the
    standard output, and the file. *)
Record outcome := {
  status : Z;
  printed : list str;
  file_after : file
}.

(** The body of the [try] after the test of existence: the new text of
    the file. [read_text] raises on a file that is not there, a case [main]
    leaves before. *)
Definition process (f : file) : result str :=
  match f with
  | Absent => Raise (OSError (u "[Errno 2] No such file or directory: 'comparison.md'"))
  | Unreadable e => Raise e
  | Present text =>
      processed_lines ← reflow (splitlines text);
      Ok (join_lines processed_lines ++ [10%N])
  end.

(** [sys.exit(0)] raises [SystemExit], which [except Exception] does not
    catch. *)
Definition main (f : file) : outcome :=
  match f with
  | Absent =>
      {| status := 0;
         printed := [u "comparison.md not found, skipping post-processing."];
         file_after := f |}
  | _ =>
      match process f with
      | Ok text => {| status := 0; printed := []; file_after := Present text |}
      | Raise e =>
          {| status := 1;
             printed := [u "Error post-processing comparison.md: " ++ exn_text e];
             file_after := f |}
      end
  end.

End Formatter.
Import Formatter.

(** ** The Comparator: [benchstat_simulator.py] *)

Module Simulator.

(** An entry of ["benches"]; the spec's data model gives ["value"] as a
    float (a JSON integer below 2^53 denotes the same number). *)
Record bench := { name : str; value : float }.

(** The literals [1e3], [1e6], [1e9] and the integer [0]. *)
Definition f_1e3 : float := float_of_Z 1000.
Definition f_1e6 : float := float_of_Z 1000000.
Definition f_1e9 : float := float_of_Z 1000000000.
Definition f_0 : float := float_of_Z 0.

Definition format_val (val : option float) : str :=
  match val with
  | None => u "N/A"
  | Some val =>
      if flt val f_1e3 then format_2f val ++ u "n"
      else if flt val f_1e6 then format_2f (fdiv val f_1e3) ++ u "µ"
      else if flt val f_1e9 then format_2f (fdiv val f_1e6) ++ u "m"
      else format_2f (fdiv val f_1e9) ++ u "s"
  end.

(** [{b["name"]: b["value"] for b in benches}]: a later entry replaces an
    earlier one of the same name. *)
Definition to_map (benches : list bench) : gmap str float :=
  foldl (fun m b => <[name b := value b]> m) ∅ benches.

(** The order of [str]: by code points, a proper prefix first. *)
Fixpoint str_leb (a b : str) : bool :=
  match a, b with
  | [], _ => true
  | _ :: _, [] => false
  | x :: a', y :: b' =>
      if (x <? y)%N then true
      else if (y <? x)%N then false
      else str_leb a' b'
  end.

Definition str_le (a b : str) : Prop := str_leb a b = true.

#[global] Instance str_le_dec a b : Decision (str_le a b).
Proof. unfold str_le. apply _. Defined.

(** [sorted(set(base_map.keys()) | set(pr_map.keys()))] *)
Definition all_names (base_map pr_map : gmap str float) : list str :=
  merge_sort str_le (elements (dom base_map ∪ dom pr_map)).

(** [m.get(name, 0)] *)
Definition get0 (m : gmap str float) (name : str) : float :=
  default f_0 (m !! name).

Definition format_cell (val : float) : str :=
  if feq val f_0 then u "N/A"
  else format_val (Some val) ++ u " ± ∞ ¹".

Definition comp_str (base_val pr_val : float) : str :=
  if fgt base_val f_0 && fgt pr_val f_0 then u "~ (p=1.000 n=1) ²" else [].

(** The line printed for [name]. *)
Definition row (base_map pr_map : gmap str float) (name : str) : str :=
  let base_val := get0 base_map name in
  let pr_val := get0 pr_map name in
  ljust 52 name ++ ljust 22 (format_cell base_val)
    ++ ljust 22 (format_cell pr_val) ++ comp_str base_val pr_val.

(** [base_values] and [pr_values] after the loop: the values above zero,
    in the order of the names. *)
Definition values_of (m : gmap str float) (names : list str) : list float :=
  filter (fun v => fgt v f_0 = true) (get0 m <$> names).

Section Geomean.

(** [math.exp] and [math.log] are the C library's, and the builtin [sum]
    of floats is a plain running sum before CPython 3.12 and a
    compensated one since: the three are left open. *)
Variable math_exp math_log : float -> float.
Variable float_sum : list float -> float.

Definition calc_geo (vals : list float) : float :=
  math_exp (fdiv (float_sum (math_log <$> vals)) (float_of_Z (Z.of_nat (length vals)))).

(** The line of the geometric means, when there is one. *)
Definition geomean_row (base_values pr_values : list float) : option str :=
  match base_values, pr_values with
  | _ :: _, _ :: _ =>
      let g_base := calc_geo base_values in
      let g_pr := calc_geo pr_values in
      Some (ljust 52 (u "geomean") ++ ljust 22 (format_val (Some g_base))
              ++ ljust 22 (format_val (Some g_pr)))
  | _, _ => None
  end.

Definition header_lines (cpu_info : str) : list str :=
  [ u "Comparison:"; u "```"; u "goos: linux"; u "goarch: amd64";
    u "pkg: github.com/casbin/node-casbin"; u "cpu: " ++ cpu_info;
    ljust 52 [] ++ u "│ " ++ ljust 19 (u "base") ++ u " │           "
      ++ ljust 19 (u "pr") ++ u "           │";
    ljust 52 [] ++ u "│       sec/op        │    sec/op      vs base                │   Diff" ].

Definition footnotes : list str :=
  [ u "¹ need >= 6 samples for confidence interval at level 0.95";
    u "² all samples are equal";
    u "³ need >= 4 samples to detect a difference at alpha level 0.05";
    u "⁴ summaries must be >0 to compute geomean";
    u "```" ].

(** What [main] prints for two loaded documents, [cpu_info] being the
    result of the processor probe. *)
Definition report (cpu_info : str) (base_benches pr_benches : list bench)
  : list str :=
  let base_map := to_map base_benches in
  let pr_map := to_map pr_benches in
  let names := all_names base_map pr_map in
  let base_values := values_of base_map names in
  let pr_values := values_of pr_map names in
  header_lines cpu_info
    ++ (row base_map pr_map <$> names)
    ++ option_list (geomean_row base_values pr_values)
    ++ footnotes.

End Geomean.

End Simulator.

(** ** The Normalizer: [format_benchmark_data.py] *)

Module Normalizer.

(** An element of the input list; a key that is missing is [None]. The
    spec's data model gives the score as a float. *)
Record metric := { score : option float; scoreUnit : option str }.
Record raw_result := { benchmark : option str; primaryMetric : option metric }.

Record canonical := { name : str; value : float; unit : str; extra : str }.

Definition normalize_name (name : str) : str := strip_benchmark_prefix name.

(** The literals [1.0] and [1e9]. *)
Definition f_1 : float := float_of_Z 1.
Definition f_1e9 : float := float_of_Z 1000000000.

(** [bench.get("primaryMetric", {}).get("score", 0)] and
    [bench.get("primaryMetric", {}).get("scoreUnit", "")] *)
Definition score_of (b : raw_result) : float :=
  default (float_of_Z 0) (primaryMetric b ≫= score).
Definition unit_of (b : raw_result) : str :=
  default [] (primaryMetric b ≫= scoreUnit).

(** [(1.0 / score) * 1e9] *)
Definition val_ns (score : float) : float := fmul (fdiv f_1 score) f_1e9.

(** The body of the loop: the record appended to [benches], if any. *)
Definition convert (b : raw_result) : option canonical :=
  let name := normalize_name (default [] (benchmark b)) in
  let score := score_of b in
  let unit := unit_of b in
  if fgt score (float_of_Z 0) && str_eqb unit (u "ops/s")
  then Some {| name := name; value := round2 (val_ns score);
               unit := u "ns/op"; extra := [] |}
  else None.

(** The list [benches] after the loop. *)
Definition benches (data : list raw_result) : list canonical :=
  omap convert data.

End Normalizer.


(** ** Vocabulary of the statements *)

(** Every character of [s] is a blank. *)
Definition blanks (s : str) : Prop := Forall (fun c => is_space c = true) s.

(** Every character of [s] is a decimal digit. *)
Definition digits (s : str) : Prop := Forall (fun c => is_digit c = true) s.

(** A text of the language of [need\s*>?=\s*\d+\s+samples]. *)
Definition need_samples_text (m : str) : Prop :=
  ∃ ws1 gt ws2 ds ws3,
    m = u "need" ++ ws1 ++ gt ++ u "=" ++ ws2 ++ ds ++ ws3 ++ u "samples"
    ∧ blanks ws1 ∧ (gt = [] ∨ gt = u ">") ∧ blanks ws2
    ∧ digits ds ∧ ds ≠ [] ∧ blanks ws3 ∧ ws3 ≠ [].

(** All the decimal digits. *)
Definition all_digits : list N :=
  flat_map (fun s => (fun k => (s + k)%N) <$> [0; 1; 2; 3; 4; 5; 6; 7; 8; 9]%N)
    decimal_runs.

(** Positive zero, a positive finite number or positive infinity. *)
Definition nonneg (x : float) : Prop :=
  match x with
  | S754_zero s | S754_infinity s | S754_finite s _ _ => s = false
  | S754_nan => False
  end.

(** The number of fence delimiters of a text is odd. *)
Definition odd_fences (lines : list str) : bool :=
  foldl (fun b line => if is_fence line then negb b else b) false lines.

(** For each line, whether it is a fence delimiter or lies outside the
    fenced region, [in_code] being the state before the first line. *)
Fixpoint passes_through (in_code : bool) (lines : list str) : list bool :=
  match lines with
  | [] => []
  | line :: rest =>
      if is_fence line then true :: passes_through (negb in_code) rest
      else negb in_code :: passes_through in_code rest
  end.

(** The text of a number: a sign [sg], the digits [d1] and, when [d2] is
    not empty, a point and the digits [d2]. *)
Definition numeral (sg d1 d2 : str) : str :=
  sg ++ d1 ++ match d2 with [] => [] | _ => chr "." :: d2 end.

Definition sign_text (sg : str) : Prop := sg = [] ∨ sg = u "-" ∨ sg = u "+".

(** Every character of [s] is of the class [[a-zA-Zµ]]. *)
Definition unit_letters (s : str) : Prop := Forall (fun c => is_unit_letter c = true) s.

(** A character that takes no part in the cleaning steps of [parse_val]:
    not a blank, not a superscript, none of [%], [=], [±], [(]. *)
Definition plain (c : N) : bool :=
  negb (is_space c) && negb (is_superscript c)
  && negb (c =? chr "%")%N && negb (c =? chr "=")%N
  && negb (c =? chr "±")%N && negb (c =? chr "(")%N.

(** The choice of the scale by the suffix, as [parse_val] ends. *)
Definition by_suffix (val : float) (suffix : str) : result (option float) :=
  if str_eqb suffix (u "n") || str_eqb suffix (u "ns") then Ok (Some (fmul val f_1e_9))
  else if str_eqb suffix (u "u") || str_eqb suffix (u "us") then Ok (Some (fmul val f_1e_6))
  else if str_eqb suffix (u "m") || str_eqb suffix (u "ms") then Ok (Some (fmul val f_1e_3))
  else if str_eqb suffix (u "s") then Ok (Some val)
  else if str_eqb suffix [] then Ok (Some val)
  else Raise (ValueError (u "Unexpected unit: " ++ suffix)).

(** The suffixes [parse_val] knows, once [µ] is written [u]. *)
Definition known_suffixes : list str :=
  [u "n"; u "ns"; u "u"; u "us"; u "m"; u "ms"; u "s"].

(** The suffixes as the specification lists them. *)
Definition listed_suffixes : list str :=
  [u "n"; u "ns"; u "u"; u "us"; u "m"; u "ms"; u "s"; u "µ"].

(** The lines the first loop measures: inside the fenced region, neither
    a footnote nor a metadata line nor the column header. *)
Fixpoint data_lines (in_code : bool) (lines : list str) : list str :=
  match lines with
  | [] => []
  | line :: rest =>
      if is_fence line then data_lines (negb in_code) rest
      else if in_code && negb (is_footnote line) && negb (is_metadata line)
              && negb (is_column_header line)
      then line :: data_lines in_code rest
      else data_lines in_code rest
  end.

(** The width of a line once its worker suffixes and the blanks at its
    end are gone. *)
Definition stripped_width (line : str) : Z := len (rstrip (strip_worker_suffix line)).

(** The greatest of some widths, 0 when there is none. *)
Definition longest (ws : list Z) : Z := foldr Z.max 0 ws.

(** Where the text appended to [left_part] begins in the line that
    [append_aligned] returns, and where the label of the header begins. *)
Definition column_offset (diff_col_start : Z) (left_part : str) : Z :=
  len INDENT + (if len left_part <? diff_col_start then diff_col_start
                else len left_part + 2).

(** The floats at most [k] steps above or below [x]. *)
Fixpoint steps_up (k : nat) (x : float) : list float :=
  match k with
  | O => []
  | S k' => let y := SFsucc prec emax x in y :: steps_up k' y
  end.

Fixpoint steps_down (k : nat) (x : float) : list float :=
  match k with
  | O => []
  | S k' => let y := SFpred prec emax x in y :: steps_down k' y
  end.

(** [g] is within [k] units in the last place of [x]. *)
Definition within_ulps (k : nat) (x g : float) : Prop :=
  g ∈ x :: steps_up k x ++ steps_down k x.

(** The running sum of floats from [0], as the builtin [sum] gives it
    before CPython 3.12. *)
Definition plain_sum (l : list float) : float := foldl fadd (float_of_Z 0) l.

(** Four values of a C library: the logarithms of 100 and 200 and the
    exponentials of these, as glibc rounds them. *)
Definition sample_log (x : float) : float :=
  if feq x (float_of_Z 100) then S754_finite false 5184960683398421 (-50)
  else if feq x (float_of_Z 200) then S754_finite false 5965380781968517 (-50)
  else S754_nan.

Definition sample_exp (x : float) : float :=
  if feq x (S754_finite false 5184960683398421 (-50))
  then S754_finite false 7036874417766403 (-46)
  else if feq x (S754_finite false 5965380781968517 (-50))
  then S754_finite false 7036874417766397 (-45)
  else S754_nan.

(** No character of the line is a line boundary of [str.splitlines]. *)
Definition one_line (line : str) : Prop :=
  Forall (fun c => is_linebreak c = false) line.

(** Neither an infinity nor a NaN. *)
Definition finite (x : float) : bool :=
  match x with
  | S754_zero _ | S754_finite _ _ _ => true
  | _ => false
  end.

(** What [parse_val] reads in the text of [y] with two decimals and a
    unit: [y] rounded to two places and scaled by the unit, nothing for an
    infinity or a NaN. *)
Definition read_back (y : float) (scale : option float) : option float :=
  if finite y
  then Some (match scale with Some k => fmul (round2 y) k | None => round2 y end)
  else None.

(** No character of [s] is a blank: a token of [str.split()]. *)
Definition word (s : str) : Prop := Forall (fun c => is_space c = false) s.

(** No character of [s] is a hyphen. *)
Definition no_hyphen (s : str) : Prop :=
  Forall (fun c => (c =? chr "-")%N = false) s.
(** The number of characters of [s] that are not blanks. *)
Definition nonblanks (s : str) : nat :=
  length (filter (fun c => is_space c = false) s).

(** The label of the diff column in every case of its letters, as the
    header pattern finds it under [re.IGNORECASE], where [i] also stands
    for U+0130 and U+0131. *)
Definition diff_labels : list str :=
  a ← [68; 100]%N; b ← [73; 105; 304; 305]%N; c ← [70; 102]%N; d ← [70; 102]%N;
  [[a; b; c; d]].

(** The tokens of a cell of the Comparator. *)
Definition cell_tokens (val : float) : list str :=
  if feq val Simulator.f_0 then [u "N/A"]
  else [Simulator.format_val (Some val); u "±"; u "∞"; u "¹"].

(** Every token of the line after the first, once the worker suffixes are
    stripped, is one that [parse_val] reads without an error. *)
Definition safe_tokens (line : str) : bool :=
  forallb (fun t => match parse_val t with Ok _ => true | Raise _ => false end)
    (drop 1 (split (strip_worker_suffix line))).
(** [h] hundredths is the number with two decimal places nearest to
    [m * 2^e], a tie going to the even one: with [n / d] the fraction
    [100 * m * 2^e], twice the distance from [n] to [h * d] is at most [d],
    and [h] is even when it is [d]. *)
Definition nearest_hundredth (m : positive) (e h : Z) : Prop :=
  let n := 100 * Z.pos m * 2 ^ Z.max e 0 in
  let d := 2 ^ Z.max (- e) 0 in
  2 * Z.abs (n - h * d) ≤ d ∧ (2 * Z.abs (n - h * d) = d → Z.even h = true).

(** [v] is [x] rounded to two decimal places, in the words of the
    specification: the float nearest to the nearest number with two
    decimal places, of the sign of [x]; a zero or an infinity is its own
    rounding. *)
Definition rounded_to_2_places (x v : float) : Prop :=
  match x with
  | S754_finite s m e =>
      ∃ h : Z, 0 ≤ h ∧ nearest_hundredth m e h
               ∧ v = float_of_ratio s (Z.to_N h) 100
  | _ => v = x
  end.

(** ** The second loop with the exceptions of Python's own operations

    [reflow_data] writes the subscripts and the division of the data-line
    branch as total operations. Here they are as Python has them: a
    subscript out of range raises [IndexError] and a division of floats by
    zero raises [ZeroDivisionError]. The other operations of the two loops
    raise nothing: the pattern functions and the string methods are total,
    [float()] is inside a [try], and the arithmetic of floats other than
    the division gives an infinity or a NaN where it has no number. *)

Module Checked.

Inductive raised :=
| Raised (e : exn)
| ZeroDivisionError
| IndexError.

Inductive checked (A : Type) :=
| Done (a : A)
| Fails (r : raised).
Arguments Done {A} a.
Arguments Fails {A} r.

#[global] Instance checked_ret : MRet checked := fun A a => Done a.

#[global] Instance checked_bind : MBind checked := fun A B k r =>
  match r with
  | Done a => k a
  | Fails x => Fails x
  end.

(** A [raise] of the script, as it comes out of [parse_val]. *)
Definition lift {A} (r : result A) : checked A :=
  match r with
  | Ok a => Done a
  | Raise e => Fails (Raised e)
  end.

(** [l[i]] for an index that is not negative. *)
Definition subscript {A} (l : list A) (i : nat) : checked A :=
  match l !! i with
  | Some x => Done x
  | None => Fails IndexError
  end.

(** [x / y] on floats. *)
Definition truediv (x y : float) : checked float :=
  if feq y (float_of_Z 0) then Fails ZeroDivisionError else Done (fdiv x y).

(** The branch of a data line: [tokens[0]] is read for [is_geomean], and
    [and] evaluates [numbers[0] != 0] only when the length is 2. *)
Definition reflow_data (diff_col_start : Z) (line : str) : checked str :=
  let line := strip_worker_suffix line in
  let tokens := split line in
  match tokens with
  | [] => Done (INDENT ++ line)
  | _ =>
      numbers ← lift (extract_two_numbers tokens);
      t0 ← subscript tokens 0;
      let is_geomean := str_eqb t0 (u "geomean") in
      (if (length numbers =? 2)%nat
       then n0 ← subscript numbers 0; Done (fne n0 (float_of_Z 0))
       else Done false) ≫= fun cond : bool =>
      if cond then
        n1 ← subscript numbers 1;
        n0 ← subscript numbers 0;
        d ← subscript numbers 0;
        q ← truediv (fsub n1 n0) d;
        let diff_val := fmul q (float_of_Z 100) in
        let left := rstrip line in
        Done (append_aligned diff_col_start left (diff_text diff_val))
      else Done (INDENT ++ line)
  end.

Definition emit_line (diff_col_start : Z) (in_code : bool) (line : str)
  : checked (bool * str) :=
  if is_fence line then Done (negb in_code, line)
  else if negb in_code then Done (in_code, line)
  else if is_footnote line then Done (in_code, INDENT ++ line)
  else if is_column_header line then Done (in_code, reflow_header diff_col_start line)
  else if is_metadata line then Done (in_code, INDENT ++ line)
  else out ← reflow_data diff_col_start line; Done (in_code, out).

Fixpoint emit (diff_col_start : Z) (st : bool * list str) (lines : list str)
  : checked (bool * list str) :=
  match lines with
  | [] => Done st
  | line :: rest =>
      '(in_code, out) ← emit_line diff_col_start st.1 line;
      emit diff_col_start (in_code, st.2 ++ [out]) rest
  end.

Definition reflow (lines : list str) : checked (list str) :=
  let processed_lines := [] in
  let in_code := false in
  let '(in_code, max_content_width) := width_pass in_code lines in
  let diff_col_start := max_content_width - 13 in
  '(_, processed_lines) ← emit diff_col_start (in_code, processed_lines) lines;
  Done processed_lines.

End Checked.

(** ** Values of the text and float primitives

    Values that CPython gives, kept as checks of the definitions above. *)

Lemma float_examples :
  float_of_numeral (u "123.45") = Some (S754_finite false 8687021468732621 (-46))
  ∧ f_1e_9 = S754_finite false 4835703278458517 (-82)
  ∧ float_of_numeral (u "-.5") = Some (S754_finite true 4503599627370496 (-53))
  ∧ round2 (float_of_ratio false 2675 1000) = float_of_ratio false 267 100
  ∧ format_2f (float_of_ratio false 2675 1000) = u "2.67"
  ∧ format_2f (float_of_ratio false 125 1000) = u "0.12"
  ∧ format_2f (float_of_Z (10 ^ 23)) = u "99999999999999991611392.00"
  ∧ format_plus_2f (float_of_ratio true 1 1000) = u "-0.00"
  ∧ format_plus_2f S754_nan = u "+nan".
Proof. repeat split; vm_compute; reflexivity. Qed.

Lemma text_examples :
  strip_worker_suffix (u "BenchmarkFoo-8   12.3n ± ∞ ¹   a-1-2 -3 b-x-4")
  = u "Foo   12.3n ± ∞ ¹   a-1 -3 b-x"
  ∧ split (u "  Foo   1.00m ± ∞ ¹ ") = [u "Foo"; u "1.00m"; u "±"; u "∞"; u "¹"]
  ∧ match_number (u "1.5e") = Some (u "1.5", u "e")
  ∧ match_number (u "1e5") = None
  ∧ match_number (u "5.") = None
  ∧ strip_diff (u "   vs base   │   Diff") = u "   vs base   │"
  ∧ need_samples (u "¹ need >= 6 samples for confidence interval at level 0.95") = true
  ∧ need_samples (u "need 6 samples") = false
  ∧ splitlines [97; 13; 10; 98; 10; 10; 99]%N = [[97]; [98]; []; [99]]%N.
Proof. repeat split; vm_compute; reflexivity. Qed.

(** ** Characters and prefixes *)

Lemma str_eqb_eq a b : str_eqb a b = true ↔ a = b.
Proof.
  revert b. induction a as [|x a IH]; intros [|y b]; cbn; try done.
  rewrite andb_true_iff, N.eqb_eq, IH. split; [by intros [-> ->]|by intros [= -> ->]].
Qed.

Lemma digit_in_all runs c v :
  digit_in runs c = Some v →
  In c (flat_map (fun s => (fun k => (s + k)%N) <$> [0; 1; 2; 3; 4; 5; 6; 7; 8; 9]%N) runs).
Proof.
  induction runs as [|s runs IH]; simpl; [discriminate|].
  destruct ((s <=? c) && (c <? s + 10))%N eqn:E.
  - intros _. apply andb_true_iff in E as [E1 E2].
    apply N.leb_le in E1. apply N.ltb_lt in E2.
    assert (c = s + 0 ∨ c = s + 1 ∨ c = s + 2 ∨ c = s + 3 ∨ c = s + 4 ∨ c = s + 5
            ∨ c = s + 6 ∨ c = s + 7 ∨ c = s + 8 ∨ c = s + 9)%N as H by lia.
    repeat (destruct H as [H|H]; [left; congruence | right]).
    left. congruence.
  - intros H. do 10 right. by apply IH.
Qed.

Lemma is_digit_all c : is_digit c = true → In c all_digits.
Proof.
  unfold is_digit, decimal_value.
  destruct (digit_in decimal_runs c) eqn:E; [|discriminate].
  intros _. by eapply digit_in_all.
Qed.

(** A property of characters that is checked on every digit holds of any
    digit. *)
Lemma digit_property (P : N → bool) :
  forallb P all_digits = true → ∀ c, is_digit c = true → P c = true.
Proof.
  intros H c Hc. rewrite forallb_forall in H. apply H. by apply is_digit_all.
Qed.

Lemma digit_not_space c : is_digit c = true → is_space c = false.
Proof.
  intros H. apply negb_true_iff.
  revert c H. apply digit_property. vm_compute. reflexivity.
Qed.

Lemma lstrip_blanks ws s : blanks ws → lstrip (ws ++ s) = lstrip s.
Proof.
  induction 1 as [|c ws Hc _ IH]; [done|]. simpl. by rewrite Hc.
Qed.

Lemma lstrip_head c s : is_space c = false → lstrip (c :: s) = c :: s.
Proof. intros H. simpl. by rewrite H. Qed.

Lemma span_app (p : N → bool) ds s :
  Forall (fun c => p c = true) ds →
  match s with c :: _ => p c = false | [] => True end →
  span p (ds ++ s) = (ds, s).
Proof.
  intros Hds Hs. induction Hds as [|c ds Hc _ IH]; simpl.
  - destruct s as [|c s]; [done|]. simpl in *. by rewrite Hs.
  - by rewrite Hc, IH.
Qed.

Lemma need_samples_here_text m post :
  need_samples_text m → need_samples_here (m ++ post) = true.
Proof.
  intros (ws1 & gt & ws2 & ds & ws3 & -> & H1 & Hgt & H2 & Hds & Hne & H3 & Hne3).
  destruct ws3 as [|w ws3]; [done|]. apply Forall_cons in H3 as [Hw H3].
  destruct ds as [|d ds]; [done|].
  pose proof Hds as Hd. apply Forall_cons in Hd as [Hd _].
  assert (Hwd : is_digit w = false).
  { destruct (is_digit w) eqn:E; [|done]. apply digit_not_space in E. congruence. }
  unfold need_samples_here.
  change (u "need") with [110; 101; 101; 100]%N.
  change (u "=") with [61%N].
  change (u "samples") with [115; 97; 109; 112; 108; 101; 115]%N.
  rewrite <- !app_assoc.
  cbn [app startswith drop N.eqb Pos.eqb andb]. rewrite !drop_0.
  rewrite lstrip_blanks by done.
  assert (Hgo : ∀ r, r = 61%N :: ws2 ++ d :: ds ++ w :: ws3 ++
                       115%N :: 97%N :: 109%N :: 112%N :: 108%N :: 101%N :: 115%N :: post →
     match r with
     | c :: r' =>
         (c =? chr "=")%N &&
         (let '(ds0, r'') := span is_digit (lstrip r') in
          match ds0, r'' with
          | _ :: _, c' :: t =>
              is_space c' && startswith [115; 97; 109; 112; 108; 101; 115]%N (lstrip t)
          | _, _ => false
          end)
     | [] => false
     end = true).
  { intros r ->. change (61 =? chr "=")%N with true. cbn [andb].
    rewrite lstrip_blanks by done.
    rewrite lstrip_head by (by apply digit_not_space).
    change (d :: ds ++ ?x) with ((d :: ds) ++ x).
    rewrite span_app; [|done|done].
    rewrite Hw. cbn [andb]. rewrite lstrip_blanks by done. reflexivity. }
  destruct Hgt as [-> | ->].
  - cbn [app]. rewrite lstrip_head by reflexivity.
    change (61 =? chr ">")%N with false. cbv iota. exact (Hgo _ eq_refl).
  - change (u ">") with [62%N]. cbn [app]. rewrite lstrip_head by reflexivity.
    change (62 =? chr ">")%N with true. cbv iota. exact (Hgo _ eq_refl).
Qed.

Lemma need_samples_unfold s :
  need_samples s =
  need_samples_here s || match s with _ :: r => need_samples r | [] => false end.
Proof. by destruct s. Qed.

Lemma need_samples_anywhere pre s :
  need_samples_here s = true → need_samples (pre ++ s) = true.
Proof.
  intros H. induction pre as [|c pre IH].
  - rewrite need_samples_unfold. cbn [app]. by rewrite H.
  - rewrite need_samples_unfold. cbn [app]. rewrite IH. apply orb_true_r.
Qed.

(** C9. A line that is not a fence delimiter and holds, at any position,
    a text of the pattern [need\s*>?=\s*\d+\s+samples] is a footnote for
    both loops: inside the fenced region the width loop leaves the maximal
    width as it is, and the emission loop appends the line with the indent
    and nothing else. Neither result depends on the tokens of the line, so
    it is never parsed for numbers, whatever else it holds. *)
Theorem need_samples_line_is_footnote (pre m post : str) (w dcs : Z) :
  need_samples_text m →
  is_fence (pre ++ m ++ post) = false →
  let line := pre ++ m ++ post in
  is_footnote line = true
  ∧ width_step (true, w) line = (true, w)
  ∧ emit_line dcs true line = Ok (true, INDENT ++ line).
Proof.
  intros Hm Hf line.
  assert (Hfoot : is_footnote line = true).
  { unfold is_footnote, line. apply orb_true_iff. right.
    apply need_samples_anywhere. by apply need_samples_here_text. }
  split; [done|]. unfold width_step, emit_line. fold line in Hf.
  by rewrite Hf, Hfoot.
Qed.

(** A data row of the Comparator with the footnote phrase in its middle:
    the row is passed over by the width loop and only indented, its two
    measurements unread. *)
Lemma need_samples_line_is_footnote_witness :
  let line := u "Foo-8   1.00m ± ∞ ¹  need >= 6 samples  2.00m ± ∞ ¹" in
  is_footnote line = true
  ∧ width_step (true, 7) line = (true, 7)
  ∧ emit_line 40 true line = Ok (true, INDENT ++ line).
Proof.
  apply (need_samples_line_is_footnote
           (u "Foo-8   1.00m ± ∞ ¹  ") (u "need >= 6 samples") (u "  2.00m ± ∞ ¹")).
  - exists (u " "), (u ">"), (u " "), (u "6"), (u " ").
    split; [vm_compute; reflexivity|].
    split; [by repeat constructor|].
    split; [by right|].
    split; [by repeat constructor|].
    split; [by repeat constructor|].
    split; [discriminate|].
    split; [by repeat constructor|discriminate].
  - vm_compute. reflexivity.
Defined.

(** ** Signs of rounded results *)


Lemma iter_pos_invariant {A} (P : A → Prop) (f : A → A) :
  (∀ x, P x → P (f x)) → ∀ p x, P x → P (SpecFloat.iter_pos f p x).
Proof.
  intros Hf. induction p as [p IH|p IH|]; intros x Hx; simpl; auto.
Qed.

Lemma shr_1_nonneg mrs : 0 ≤ shr_m mrs → 0 ≤ shr_m (shr_1 mrs).
Proof.
  destruct mrs as [m r s]. simpl.
  destruct m as [|[p|p|]|p]; simpl; lia.
Qed.

Lemma shr_nonneg mrs e n : 0 ≤ shr_m mrs → 0 ≤ shr_m (shr mrs e n).1.
Proof.
  intros H. unfold shr. destruct n; simpl; try done.
  by apply (iter_pos_invariant (fun x => 0 ≤ shr_m x)); [apply shr_1_nonneg|].
Qed.

Lemma shr_fexp_nonneg m e l : 0 ≤ m → 0 ≤ shr_m (shr_fexp prec emax m e l).1.
Proof.
  intros H. unfold shr_fexp. apply shr_nonneg.
  by destruct l as [|[]].
Qed.

Lemma round_nearest_even_nonneg m l : 0 ≤ m → 0 ≤ round_nearest_even m l.
Proof.
  intros H. unfold round_nearest_even.
  destruct l as [|[]]; try done; [destruct (Z.even m)|]; lia.
Qed.

Lemma binary_round_aux_nonneg m e l :
  0 ≤ m → nonneg (binary_round_aux prec emax false m e l).
Proof.
  intros H. unfold binary_round_aux.
  pose proof (shr_fexp_nonneg m e l H) as H1.
  destruct (shr_fexp prec emax m e l) as [mrs' e'] eqn:E1. simpl in H1.
  pose proof (shr_fexp_nonneg
                (round_nearest_even (shr_m mrs') (loc_of_shr_record mrs')) e' loc_Exact
                (round_nearest_even_nonneg _ _ H1)) as H2.
  destruct (shr_fexp prec emax (round_nearest_even (shr_m mrs') (loc_of_shr_record mrs'))
              e' loc_Exact) as [mrs'' e''] eqn:E2. simpl in H2.
  destruct (shr_m mrs'') as [|p|p]; simpl; [done| |lia].
  by destruct (e'' <=? emax - prec).
Qed.

Lemma fdiv_nonneg x y : nonneg x → nonneg y → x ≠ S754_zero false ∨ y ≠ S754_zero false →
  x ≠ S754_infinity false ∨ y ≠ S754_infinity false → nonneg (fdiv x y).
Proof.
  destruct x as [sx|sx| |sx mx ex], y as [sy|sy| |sy my ey]; simpl;
    intros Hx Hy H0 Hi; subst; try done; try (by destruct H0); try (by destruct Hi).
  unfold fdiv, SFdiv; cbn [xorb].
  destruct (SFdiv_core_binary prec emax (Z.pos mx) ex (Z.pos my) ey) as [[mz ez] lz] eqn:E.
  apply binary_round_aux_nonneg.
  unfold SFdiv_core_binary in E.
  set (m' := match _ with Z.pos _ => _ | _ => _ end) in E.
  assert (0 ≤ m') as Hm'.
  { unfold m'. destruct (ex - ey - _); try lia. apply Z.shiftl_nonneg. lia. }
  pose proof (Z.div_pos m' (Z.pos my) Hm' ltac:(lia)) as Hq.
  unfold Z.div in Hq. destruct (Z.div_eucl m' (Z.pos my)) as [q r].
  simpl in Hq. by injection E as <- _ _.
Qed.

Lemma fmul_nonneg x sy my ey :
  nonneg x → sy = false → nonneg (fmul x (S754_finite sy my ey)).
Proof.
  destruct x as [sx|sx| |sx mx ex]; simpl; intros Hx Hy; subst; try done.
  by apply binary_round_aux_nonneg.
Qed.

Lemma float_of_ratio_nonneg n d : nonneg (float_of_ratio false n d).
Proof.
  destruct n as [|p]; [done|]. unfold float_of_ratio.
  apply fdiv_nonneg; simpl; auto.
Qed.

Lemma round2_nonneg x : nonneg x → nonneg (round2 x).
Proof.
  destruct x as [s|s| |s m e]; simpl; try done.
  intros Hx; subst. apply float_of_ratio_nonneg.
Qed.

Lemma nonneg_ge_zero x : nonneg x → fle (float_of_Z 0) x = true.
Proof. destruct x as [s|s| |s m e]; simpl; intros Hx; subst; done. Qed.



Lemma hundredths_nonneg m e : 0 ≤ hundredths m e.
Proof.
  unfold hundredths. destruct (0 <=? e) eqn:E.
  - apply Z.leb_le in E. pose proof (Z.pow_nonneg 2 e). nia.
  - assert (0 < 2 ^ (- e)) by (apply Z.pow_pos_nonneg; lia).
    assert (0 ≤ Z.pos m * 100 / 2 ^ (- e)) by (apply Z.div_pos; lia).
    destruct (2 * _ ?= _); [destruct (Z.even _)|..]; lia.
Qed.

(** [hundredths] is the rounding to the nearest hundredth, ties to even. *)
Lemma hundredths_nearest m e : nearest_hundredth m e (hundredths m e).
Proof.
  unfold nearest_hundredth, hundredths. destruct (0 <=? e) eqn:E.
  - apply Z.leb_le in E. rewrite Z.max_l, Z.max_r by lia.
    change (2 ^ 0) with 1.
    replace (100 * Z.pos m * 2 ^ e - Z.pos m * 100 * 2 ^ e * 1) with 0 by lia.
    cbn. split; [lia|discriminate].
  - apply Z.leb_gt in E. rewrite Z.max_r, Z.max_l by lia.
    change (2 ^ 0) with 1. rewrite Z.mul_1_r.
    assert (Hd : 0 < 2 ^ (- e)) by (apply Z.pow_pos_nonneg; lia).
    set (d := 2 ^ (- e)) in *.
    pose proof (Z.div_mod (Z.pos m * 100) d ltac:(lia)) as Hdm.
    pose proof (Z.mod_pos_bound (Z.pos m * 100) d Hd) as Hr.
    set (q := Z.pos m * 100 / d) in *. set (r := (Z.pos m * 100) mod d) in *.
    assert (Hn : 100 * Z.pos m = q * d + r) by lia.
    rewrite Hn.
    destruct (Z.compare_spec (2 * r) d) as [Heq|Hlt|Hgt].
    + destruct (Z.even q) eqn:Ev.
      * replace (q * d + r - q * d) with r by lia. split; [lia|done].
      * replace (q * d + r - (q + 1) * d) with (r - d) by lia.
        split; [lia|]. intros _. rewrite Z.even_add, Ev. reflexivity.
    + replace (q * d + r - q * d) with r by lia. split; lia.
    + replace (q * d + r - (q + 1) * d) with (r - d) by lia. split; lia.
Qed.

(** ** The Normalizer *)

Section NormalizerFacts.
Import Normalizer.

(** C6. A raw record is included in the output exactly when it has a
    primary metric whose score is above zero and whose unit is ["ops/s"];
    a missing metric, score or unit counts as the score 0 and the unit
    [""]. The record emitted for it has the name without its [Benchmark]
    prefix, the unit ["ns/op"], no extra, and for value
    [(1.0 / score) * 1e9] rounded to two decimal places: the float nearest
    to the nearest hundredth, ties to the even one. Every other record is
    left out, and the output is the included records in the order of the
    input: a record that is left out contributes nothing, and the loop has
    no error. *)
Theorem normalizer_includes_iff (b : raw_result) :
  (is_Some (convert b)
   ↔ ∃ m s, primaryMetric b = Some m ∧ score m = Some s
            ∧ scoreUnit m = Some (u "ops/s")
            ∧ fgt s (float_of_Z 0) = true)
  ∧ (∀ c m s,
       convert b = Some c → primaryMetric b = Some m → score m = Some s →
       name c = strip_benchmark_prefix (default [] (benchmark b))
       ∧ rounded_to_2_places
           (fmul (fdiv (float_of_Z 1) s) (float_of_Z 1000000000)) (value c)
       ∧ unit c = u "ns/op" ∧ extra c = [])
  ∧ (primaryMetric b = None → convert b = None)
  ∧ (∀ m, primaryMetric b = Some m →
       score m = None ∨ scoreUnit m = None
       ∨ (∃ s, score m = Some s ∧ fgt s (float_of_Z 0) = false)
       ∨ (∃ un, scoreUnit m = Some un ∧ un ≠ u "ops/s") →
       convert b = None)
  ∧ (∀ before after,
       benches (before ++ b :: after)
       = benches before ++ option_list (convert b) ++ benches after).
Proof.
  assert (Hiff : is_Some (convert b)
     ↔ ∃ m s, primaryMetric b = Some m ∧ score m = Some s
              ∧ scoreUnit m = Some (u "ops/s")
              ∧ fgt s (float_of_Z 0) = true).
  { unfold convert, score_of, unit_of. destruct (primaryMetric b) as [m|]; cbn.
    - destruct (score m) as [s|] eqn:Es, (scoreUnit m) as [un|] eqn:Eu; cbn.
      + destruct (fgt s (float_of_Z 0)) eqn:E1; cbn.
        * destruct (str_eqb un (u "ops/s")) eqn:E2.
          -- apply str_eqb_eq in E2 as ->. split; [|by eexists].
             intros _. exists m, s. by rewrite Es, Eu.
          -- split; [by intros [? ?]|]. intros (m' & s' & [= <-] & _ & Hu & _).
             assert (un = u "ops/s") as -> by congruence.
             rewrite (proj2 (str_eqb_eq _ _) eq_refl) in E2. done.
        * split; [by intros [? ?]|]. intros (m' & s' & [= <-] & Hs & _ & Hg).
          congruence.
      + split; [|intros (m' & s' & [= <-] & _ & ? & _); congruence].
        intros [c Hc]. by destruct (fgt s (float_of_Z 0)).
      + split; [by intros [? ?]|intros (m' & s' & [= <-] & ? & _); congruence].
      + split; [by intros [? ?]|intros (m' & s' & [= <-] & ? & _); congruence].
    - split; [by intros [? ?]|]. by intros (m' & s' & ? & _). }
  assert (Hnone : ∀ P : Prop, (is_Some (convert b) → ¬ P) → P → convert b = None).
  { intros P HP p. destruct (convert b) as [c|] eqn:E; [|done].
    exfalso. apply (HP (mk_is_Some _ _ eq_refl) p). }
  split; [exact Hiff|]. split; [|split; [|split]].
  - intros c m s Hc Hm Hs. revert Hc. unfold convert, score_of, unit_of.
    rewrite Hm. cbn [mbind option_bind default]. rewrite Hs. cbn [default]. unfold id.
    destruct (_ && _); [|done].
    intros [= <-]. cbn [name value unit extra].
    split; [done|]. split; [|done].
    unfold val_ns, round2, rounded_to_2_places.
    change f_1 with (float_of_Z 1). change f_1e9 with (float_of_Z 1000000000).
    destruct (fmul (fdiv (float_of_Z 1) s) (float_of_Z 1000000000))
      as [sg|sg| |sg mm ee]; try done.
    exists (hundredths mm ee).
    split; [apply hundredths_nonneg|]. split; [apply hundredths_nearest|done].
  - intros Hm. apply (Hnone True); [|done].
    intros H _. apply Hiff in H as (m & s & ? & _). congruence.
  - intros m Hm Hcase. apply (Hnone True); [|done].
    intros H _. apply Hiff in H as (m' & s & Hm' & Hs & Hu & Hg).
    rewrite Hm in Hm'. injection Hm' as <-.
    destruct Hcase as [?|[?|[(s' & ? & ?)|(un & ? & ?)]]]; congruence.
  - intros before after. unfold benches.
    rewrite omap_app. change (omap convert (b :: after)) with
      (match convert b with Some c => c :: omap convert after | None => omap convert after end).
    by destruct (convert b).
Qed.

(** A score of 1234.56 operations per second: the value is 810005.18. *)
Lemma normalizer_includes_iff_witness :
  let m := {| score := Some (float_of_ratio false 123456 100);
              scoreUnit := Some (u "ops/s") |} in
  let b := {| benchmark := Some (u "BenchmarkRBACModel"); primaryMetric := Some m |} in
  let c := {| name := u "RBACModel"; value := float_of_ratio false 81000518 100;
              unit := u "ns/op"; extra := [] |} in
  convert b = Some c
  ∧ rounded_to_2_places
      (fmul (fdiv (float_of_Z 1) (float_of_ratio false 123456 100))
         (float_of_Z 1000000000))
      (float_of_ratio false 81000518 100)
  ∧ convert {| benchmark := Some (u "BenchmarkRBACModel");
               primaryMetric := Some {| score := Some (float_of_ratio false 123456 100);
                                        scoreUnit := Some (u "ops/ms") |} |} = None.
Proof.
  intros m b c.
  assert (H : convert b = Some c) by (vm_compute; reflexivity).
  split; [exact H|]. split.
  - exact (proj1 (proj2 (proj1 (proj2 (normalizer_includes_iff b))
                           c m _ H eq_refl eq_refl))).
  - refine (proj1 (proj2 (proj2 (proj2 (normalizer_includes_iff
              {| benchmark := Some (u "BenchmarkRBACModel");
                 primaryMetric := Some {| score := Some (float_of_ratio false 123456 100);
                                          scoreUnit := Some (u "ops/ms") |} |}))))
              {| score := Some (float_of_ratio false 123456 100);
                 scoreUnit := Some (u "ops/ms") |} eq_refl _).
    do 3 right. exists (u "ops/ms"). split; [reflexivity|discriminate].
Defined.

(** C7, as amended. The value of an included record is never negative
    (and never a NaN): it is zero or above. It is not always above zero,
    since [(1.0 / score) * 1e9] is rounded to two decimals. *)
Theorem normalizer_value_not_negative (b : raw_result) (c : canonical) :
  convert b = Some c → fle (float_of_Z 0) (value c) = true.
Proof.
  unfold convert.
  destruct (fgt (score_of b) (float_of_Z 0)) eqn:E; [|done]. cbn [andb].
  destruct (str_eqb (unit_of b) (u "ops/s")); [|done].
  intros [= <-]. cbn [value]. apply nonneg_ge_zero, round2_nonneg.
  unfold val_ns.
  assert (Hs : nonneg (score_of b) ∧ score_of b ≠ S754_zero false).
  { unfold fgt in E. destruct (score_of b) as [s|s| |s m e]; try done.
    - by destruct s.
    - by destruct s. }
  destruct Hs as [Hs Hnz].
  change f_1e9 with (S754_finite false 8388608000000000 (-23)).
  apply fmul_nonneg; [|done].
  apply fdiv_nonneg; [done|done|by right|by left].
Qed.

Lemma normalizer_value_not_negative_witness :
  let b := {| benchmark := Some (u "BenchmarkRBACModel");
              primaryMetric := Some {| score := Some (float_of_ratio false 123456 100);
                                       scoreUnit := Some (u "ops/s") |} |} in
  let c := {| name := u "RBACModel"; value := float_of_ratio false 81000518 100;
              unit := u "ns/op"; extra := [] |} in
  convert b = Some c ∧ fle (float_of_Z 0) (value c) = true.
Proof.
  intros b c.
  assert (H : convert b = Some c) by (vm_compute; reflexivity).
  split; [exact H|]. exact (normalizer_value_not_negative b c H).
Defined.

(** C7, as stated, fails: a score of [1e12] operations per second passes
    the filter and its value, [0.001] nanoseconds, is rounded to [0.0]. *)
Lemma normalizer_value_zero :
  let b := {| benchmark := Some (u "BenchmarkFast");
              primaryMetric := Some {| score := Some (float_of_Z 1000000000000);
                                       scoreUnit := Some (u "ops/s") |} |} in
  fgt (score_of b) (float_of_Z 0) = true
  ∧ unit_of b = u "ops/s"
  ∧ ∃ c, benches [b] = [c]
         ∧ value c = S754_zero false
         ∧ fgt (value c) (float_of_Z 0) = false.
Proof.
  intros b. split; [vm_compute; reflexivity|]. split; [vm_compute; reflexivity|].
  eexists. split; [vm_compute; reflexivity|]. split; reflexivity.
Qed.

End NormalizerFacts.

(** ** The run of TableReflow *)

(** A missing file: a message, no work, exit status 0. *)
Lemma missing_file_clean_exit :
  main Absent
  = {| status := 0;
       printed := [u "comparison.md not found, skipping post-processing."];
       file_after := Absent |}.
Proof. reflexivity. Qed.

(** Any exception of the pass is printed, the exit status is 1 and the file
    is left as it was. *)
Lemma failure_exits_nonzero (f : file) (e : exn) :
  f ≠ Absent → process f = Raise e →
  main f = {| status := 1;
              printed := [u "Error post-processing comparison.md: " ++ exn_text e];
              file_after := f |}.
Proof.
  intros Hf He. unfold main. destruct f; [done| |]; by rewrite He.
Qed.

(** A file that cannot be read as text is such a failure. *)
Lemma unreadable_file_exits_nonzero (e : exn) :
  status (main (Unreadable e)) = 1 ∧ file_after (main (Unreadable e)) = Unreadable e.
Proof. done. Qed.

(** Outside the fenced region the emission loop appends the line as it
    is; a fence delimiter is appended as it is in either state. *)
Lemma emit_line_outside (dcs : Z) (line : str) :
  emit_line dcs false line = Ok (is_fence line, line).
Proof. unfold emit_line. by destruct (is_fence line). Qed.

Lemma emit_line_fence (dcs : Z) (in_code : bool) (line : str) :
  is_fence line = true → emit_line dcs in_code line = Ok (negb in_code, line).
Proof. unfold emit_line. by intros ->. Qed.

(** The first loop leaves [in_code] set exactly when the number of fence
    delimiters is odd, so the second loop starts outside the fenced region
    exactly when the delimiters are paired. *)
Lemma width_step_in_code st line :
  (width_step st line).1 = if is_fence line then negb st.1 else st.1.
Proof.
  destruct st as [ic w]. unfold width_step.
  destruct (is_fence line); [done|].
  destruct (negb ic); [done|]. destruct (is_footnote line); [done|].
  destruct (is_metadata line); [done|]. by destruct (is_column_header line).
Qed.

Lemma width_pass_in_code lines :
  (width_pass false lines).1 = odd_fences lines.
Proof.
  unfold width_pass, odd_fences.
  generalize 0. generalize false.
  induction lines as [|line lines IH]; intros b w; [done|].
  cbn [foldl]. destruct (width_step (b, w) line) as [b' w'] eqn:E.
  pose proof (width_step_in_code (b, w) line) as H. rewrite E in H. cbn [fst] in H.
  rewrite IH. by rewrite H.
Qed.

(** The second loop appends one line for each line it reads, and the line
    itself for a fence delimiter and for a line it takes to be outside the
    fenced region. *)
Lemma emit_passes_through dcs lines in_code acc in_code' out :
  emit dcs (in_code, acc) lines = Ok (in_code', out) →
  ∃ outs,
    out = acc ++ outs ∧ length outs = length lines
    ∧ ∀ i line, lines !! i = Some line →
        passes_through in_code lines !! i = Some true → outs !! i = Some line.
Proof.
  revert in_code acc. induction lines as [|l lines IH]; intros ic acc H.
  - injection H as _ <-. exists []. by rewrite app_nil_r.
  - cbn [emit fst snd] in H.
    destruct (emit_line dcs ic l) as [[ic1 o]|e] eqn:E; [|done].
    cbn [mbind result_bind] in H.
    destruct (IH _ _ H) as (outs & -> & Hlen & Hpass).
    exists (o :: outs). split; [by rewrite <- app_assoc|].
    split; [cbn; by rewrite Hlen|].
    assert (Hstate : ic1 = if is_fence l then negb ic else ic).
    { unfold emit_line in E. destruct (is_fence l); [by injection E as <- _|].
      destruct (negb ic); [by injection E as <- _|].
      destruct (is_footnote l); [by injection E as <- _|].
      destruct (is_column_header l); [by injection E as <- _|].
      destruct (is_metadata l); [by injection E as <- _|].
      destruct (reflow_data dcs l); [|done]. by injection E as <- _. }
    intros [|i] line Hi Hflag; cbn [passes_through] in Hflag.
    + injection Hi as ->. cbn. f_equal.
      unfold emit_line in E. destruct (is_fence line); [by injection E as _ <-|].
      injection Hflag as Hic. rewrite Hic in E. by injection E as _ <-.
    + cbn in Hi. cbn. apply Hpass; [done|].
      rewrite Hstate. by destruct (is_fence l).
Qed.

(** When the fence delimiters of a text are paired, every fence delimiter
    and every line outside the fenced region is rewritten as it is. *)
Lemma paired_fences_pass_through lines outs :
  odd_fences lines = false → reflow lines = Ok outs →
  length outs = length lines
  ∧ ∀ i line, lines !! i = Some line →
      passes_through false lines !! i = Some true → outs !! i = Some line.
Proof.
  intros Hodd H. unfold reflow in H.
  pose proof (width_pass_in_code lines) as Hic. rewrite Hodd in Hic.
  destruct (width_pass false lines) as [ic w]. cbn [fst] in Hic. subst ic.
  destruct (emit (w - 13) (false, []) lines) as [[ic' out]|e] eqn:E; [|done].
  cbn [mbind result_bind] in H. injection H as <-.
  destruct (emit_passes_through _ _ _ _ _ _ E) as (outs & -> & Hlen & Hpass).
  by rewrite app_nil_l.
Qed.

(** C8, at a text whose fence is not closed. The claim lets the heading
    pass unchanged and has the row inside the fence reflowed; the script
    indents the heading and leaves the row as it is, since the second loop
    starts with the [in_code] the first loop ended with. The exit status
    is 0. *)
Theorem unclosed_fence_swaps_regions :
  let lines := [u "Results"; u "```"; u "Foo   1.00m   1.10m"] in
  odd_fences lines = true
  ∧ reflow lines = Ok [u "        Results"; u "```"; u "Foo   1.00m   1.10m"]
  ∧ main (Present (join_lines lines ++ [10%N]))
    = {| status := 0; printed := [];
         file_after :=
           Present (join_lines [u "        Results"; u "```"; u "Foo   1.00m   1.10m"]
                      ++ [10%N]) |}.
Proof. vm_compute. done. Qed.

(** With the fence closed the same heading passes unchanged and the row
    gets its difference. *)
Lemma closed_fence_regions :
  reflow [u "Results"; u "```"; u "Foo   1.00m   1.10m"; u "```"]
  = Ok [u "Results"; u "```"; u "        Foo   1.00m   1.10m  +10.00% 🐌"; u "```"].
Proof. vm_compute. reflexivity. Qed.

(** ** The difference and its glyph *)

Lemma icons_distinct : slower ≠ faster ∧ slower ≠ neutral ∧ faster ≠ neutral.
Proof. repeat split; discriminate. Qed.

(** A float below [-10] is not above [10]. *)
Lemma below_not_above d :
  flt d (float_of_Z (-10)) = true → fgt d (float_of_Z 10) = false.
Proof.
  change (float_of_Z (-10)) with (S754_finite true 5629499534213120 (-49)).
  change (float_of_Z 10) with (S754_finite false 5629499534213120 (-49)).
  unfold flt, fgt, SFltb.
  destruct d as [[]|[]| |[] m e]; cbv [SFcompare];
    first [discriminate | intros _; reflexivity].
Qed.

Lemma get_icon_cases d :
  (get_icon d = slower ↔ fgt d (float_of_Z 10) = true)
  ∧ (get_icon d = faster ↔ flt d (float_of_Z (-10)) = true)
  ∧ (get_icon d = neutral
     ↔ fgt d (float_of_Z 10) = false ∧ flt d (float_of_Z (-10)) = false).
Proof.
  destruct icons_distinct as (H1 & H2 & H3).
  pose proof (below_not_above d) as Hx.
  unfold get_icon.
  destruct (fgt d (float_of_Z 10)) eqn:E1, (flt d (float_of_Z (-10))) eqn:E2.
  - specialize (Hx eq_refl). discriminate.
  - clear Hx. repeat split; first [done | by intros [? ?] | by intros ?].
  - clear Hx. repeat split; first [done | by intros [? ?] | by intros ?].
  - clear Hx. repeat split; first [done | by intros [? ?] | by intros ?].
Qed.

(** C2, as amended. On a data line with two magnitudes, the first not
    zero, the text appended is [(second - first) / first * 100] in the
    format [+.2f], a percent sign, a blank and the glyph; the glyph is the
    slower one exactly above 10, the faster one exactly below -10 and the
    neutral one otherwise, so at exactly 10 it is neutral. In floats the
    difference of [1e-3] and [1.1e-3] is a little above 10: it prints as
    [+10.00%] with the slower glyph; that of [1e-3] and [0.85e-3] prints
    as [-15.00%] with the faster glyph. *)
Theorem diff_percent_and_glyph (dcs : Z) (line : str) (n0 n1 : float) :
  extract_two_numbers (split (strip_worker_suffix line)) = Ok [n0; n1] →
  fne n0 (float_of_Z 0) = true →
  let d := fmul (fdiv (fsub n1 n0) n0) (float_of_Z 100) in
  reflow_data dcs line
  = Ok (append_aligned dcs (rstrip (strip_worker_suffix line))
          (format_plus_2f d ++ u "% " ++ get_icon d))
  ∧ (∀ x, (get_icon x = slower ↔ fgt x (float_of_Z 10) = true)
          ∧ (get_icon x = faster ↔ flt x (float_of_Z (-10)) = true)
          ∧ (get_icon x = neutral
             ↔ fgt x (float_of_Z 10) = false ∧ flt x (float_of_Z (-10)) = false))
  ∧ get_icon (float_of_Z 10) = neutral
  ∧ (let x := diff_percent (float_of_ratio false 1 1000) (float_of_ratio false 11 10000) in
     format_plus_2f x = u "+10.00" ∧ get_icon x = slower)
  ∧ (let x := diff_percent (float_of_ratio false 1 1000) (float_of_ratio false 85 100000) in
     format_plus_2f x = u "-15.00" ∧ get_icon x = faster).
Proof.
  intros He Hn d. split; [|split; [apply get_icon_cases|]].
  - unfold reflow_data. rewrite He.
    destruct (split (strip_worker_suffix line)) as [|t ts] eqn:Et; [done|].
    cbn [mbind result_bind]. by rewrite Hn.
  - split; [vm_compute; reflexivity|].
    split; split; vm_compute; reflexivity.
Qed.

Lemma diff_percent_and_glyph_witness :
  let line := u "RBACModel-8   1.00m ± ∞ ¹   0.85m ± ∞ ¹   ~ (p=1.000 n=1) ²" in
  reflow_data 0 line
  = Ok (u "        RBACModel   1.00m ± ∞ ¹   0.85m ± ∞ ¹   ~ (p=1.000 n=1) ²  -15.00% 🚀").
Proof.
  intros line.
  pose proof (diff_percent_and_glyph 0 line
                (S754_finite false 4611686018427388 (-62))
                (S754_finite false 7839866231326559 (-63))
                ltac:(vm_compute; reflexivity) ltac:(vm_compute; reflexivity)) as [H _].
  rewrite H. vm_compute. reflexivity.
Defined.

(** C2, as stated, fails at its own boundary case: for a base of [1e-3]
    seconds and a candidate of [1.1e-3] seconds the script computes
    [10.000000000000005], which is above 10, and the glyph is the slower
    one, not the neutral one. The same holds when the two magnitudes come
    from the tokens [1.00m] and [1.10m] of a row. *)
Lemma ten_percent_is_slower :
  let base := float_of_ratio false 1 1000 in
  let pr := float_of_ratio false 11 10000 in
  let d := diff_percent base pr in
  d = S754_finite false 5629499534213123 (-49)
  ∧ fgt d (float_of_Z 10) = true
  ∧ format_plus_2f d = u "+10.00"
  ∧ get_icon d = slower
  ∧ get_icon d ≠ neutral
  ∧ extract_two_numbers (split (u "Foo 1.00m 1.10m")) = Ok [base; pr]
  ∧ reflow_data 0 (u "Foo 1.00m 1.10m") = Ok (u "        Foo 1.00m 1.10m  +10.00% 🐌").
Proof.
  repeat split; try (vm_compute; reflexivity).
  vm_compute. discriminate.
Qed.

(** ** Tokens of numbers *)

Lemma range_property (P : N → bool) (a : N) (n : nat) :
  forallb P ((fun k => (a + N.of_nat k)%N) <$> seq 0 n) = true →
  ∀ c, (a ≤ c < a + N.of_nat n)%N → P c = true.
Proof.
  intros H c Hc. rewrite forallb_forall in H. apply H.
  apply list_elem_of_In, list_elem_of_fmap. exists (N.to_nat (c - a)). split; [lia|].
  apply list_elem_of_In, in_seq. lia.
Qed.

Lemma unit_letter_property (P : N → bool) :
  forallb P ((fun k => (65 + N.of_nat k)%N) <$> seq 0 26) = true →
  forallb P ((fun k => (97 + N.of_nat k)%N) <$> seq 0 26) = true →
  P 181%N = true →
  ∀ c, is_unit_letter c = true → P c = true.
Proof.
  intros H1 H2 H3 c. unfold is_unit_letter, is_ascii_letter.
  rewrite !orb_true_iff, !andb_true_iff, !N.leb_le, N.eqb_eq.
  intros [[[Ha Hb]|[Ha Hb]]|Hc].
  - apply (range_property P 65 26 H1). lia.
  - apply (range_property P 97 26 H2). lia.
  - change (chr "µ") with 181%N in Hc. by subst.
Qed.

Lemma digit_plain c : is_digit c = true → plain c = true.
Proof. revert c. apply digit_property. vm_compute. reflexivity. Qed.

Lemma unit_letter_plain c : is_unit_letter c = true → plain c = true.
Proof. revert c. apply unit_letter_property; vm_compute; reflexivity. Qed.

Lemma digit_not_unit_letter c : is_digit c = true → is_unit_letter c = false.
Proof.
  intros H. apply negb_true_iff. revert c H. apply digit_property.
  vm_compute. reflexivity.
Qed.

Lemma unit_letter_not_digit c : is_unit_letter c = true → is_digit c = false.
Proof.
  intros H. destruct (is_digit c) eqn:E; [|done].
  apply digit_not_unit_letter in E. congruence.
Qed.

Lemma digit_not_sign_or_point c :
  is_digit c = true →
  (c =? chr "-")%N = false ∧ (c =? chr "+")%N = false ∧ (c =? chr ".")%N = false.
Proof.
  intros H.
  assert (negb (c =? chr "-")%N && negb (c =? chr "+")%N && negb (c =? chr ".")%N = true) as Hx.
  { revert c H. apply digit_property. vm_compute. reflexivity. }
  apply andb_true_iff in Hx as [Hx H3]. apply andb_true_iff in Hx as [H1 H2].
  by rewrite !negb_true_iff in *.
Qed.

Lemma unit_letter_not_point c :
  is_unit_letter c = true → (c =? chr ".")%N = false.
Proof.
  intros H. apply negb_true_iff. revert c H.
  apply unit_letter_property; vm_compute; reflexivity.
Qed.

(** The cleaning steps leave a text of plain characters as it is. *)
Lemma contains_single x s :
  Forall (fun c => (c =? x)%N = false) s → contains [x] s = false.
Proof.
  induction 1 as [|c s Hc _ IH]; [done|].
  cbn. rewrite N.eqb_sym, Hc. cbn. exact IH.
Qed.

Lemma clean_superscripts_id s :
  Forall (fun c => is_superscript c = false) s → clean_superscripts s = s.
Proof.
  unfold clean_superscripts. change (@filter N str) with (@filter N (list N)).
  induction 1 as [|c s Hc _ IH]; [done|].
  rewrite filter_cons, decide_True by done. by rewrite IH.
Qed.

Lemma before_first_id x s :
  Forall (fun c => (c =? x)%N = false) s → before_first x s = s.
Proof.
  induction 1 as [|c s Hc _ IH]; [done|]. cbn. by rewrite Hc, IH.
Qed.

Lemma lstrip_id s : Forall (fun c => is_space c = false) s → lstrip s = s.
Proof. destruct 1 as [|c s Hc _]; [done|]. cbn. by rewrite Hc. Qed.

Lemma strip_id s : Forall (fun c => is_space c = false) s → strip s = s.
Proof.
  intros H. unfold strip, rstrip. rewrite (lstrip_id s H).
  rewrite lstrip_id; [apply rev_involutive|].
  apply Forall_forall. intros c Hc. rewrite Forall_forall in H. apply H.
  apply list_elem_of_In. apply list_elem_of_In in Hc. by apply in_rev.
Qed.

Lemma plain_parts c :
  plain c = true →
  is_space c = false ∧ is_superscript c = false
  ∧ (c =? chr "%")%N = false ∧ (c =? chr "=")%N = false
  ∧ (c =? chr "±")%N = false ∧ (c =? chr "(")%N = false.
Proof.
  unfold plain. rewrite !andb_true_iff, !negb_true_iff.
  intros [[[[[H1 H2] H3] H4] H5] H6]. done.
Qed.

Lemma plain_text_cleaning s :
  Forall (fun c => plain c = true) s →
  contains (u "%") s = false ∧ contains (u "=") s = false
  ∧ strip (before_first (chr "(")
             (strip (before_first (chr "±") (clean_superscripts s)))) = s.
Proof.
  intros H.
  assert (∀ (Q : N → Prop), (∀ c, plain c = true → Q c) → Forall Q s) as HQ.
  { intros Q HQ. eapply Forall_impl; [exact H|]. exact HQ. }
  split; [|split].
  - apply contains_single, HQ. intros c Hc. apply plain_parts in Hc as (?&?&?&?&?&?). assumption.
  - apply contains_single, HQ. intros c Hc. apply plain_parts in Hc as (?&?&?&?&?&?). assumption.
  - rewrite clean_superscripts_id
      by (apply HQ; intros c Hc; apply plain_parts in Hc as (?&?&?&?&?&?); assumption).
    rewrite (before_first_id (chr "±") s)
      by (apply HQ; intros c Hc; apply plain_parts in Hc as (?&?&?&?&?&?); assumption).
    rewrite (strip_id s)
      by (apply HQ; intros c Hc; apply plain_parts in Hc as (?&?&?&?&?&?); assumption).
    rewrite (before_first_id (chr "(") s)
      by (apply HQ; intros c Hc; apply plain_parts in Hc as (?&?&?&?&?&?); assumption).
    apply strip_id, HQ. intros c Hc. apply plain_parts in Hc as (?&?&?&?&?&?). assumption.
Qed.

Lemma span_all (p : N → bool) s :
  Forall (fun c => p c = true) s → span p s = (s, []).
Proof.
  intros H. rewrite <- (app_nil_r s) at 1. by apply span_app.
Qed.

(** What follows the sign in [match_number] and in [float_of_numeral]. *)
Lemma number_body_spans d1 d2 sfx :
  digits d1 → digits d2 → d1 ≠ [] ∨ d2 ≠ [] → unit_letters sfx →
  let frac := match d2 with [] => [] | _ => chr "." :: d2 end in
  span is_digit (d1 ++ frac ++ sfx) = (d1, frac ++ sfx)
  ∧ span is_digit (d2 ++ sfx) = (d2, sfx)
  ∧ span is_unit_letter sfx = (sfx, [])
  ∧ match d1 ++ frac ++ sfx with
    | c :: _ => (c =? chr "-")%N || (c =? chr "+")%N = false
    | [] => True
    end.
Proof.
  intros H1 H2 Hne Hs frac.
  assert (Hsfx : match sfx with c :: _ => is_digit c = false | [] => True end).
  { destruct Hs as [|c sfx Hc _]; [done|]. by apply unit_letter_not_digit. }
  split; [|split; [|split]].
  - apply span_app; [done|]. unfold frac. destruct d2; [|done]. by rewrite app_nil_l.
  - by apply span_app.
  - by apply span_all.
  - destruct d1 as [|c d1].
    + destruct Hne as [?|Hne]; [done|]. unfold frac. by destruct d2.
    + apply Forall_cons in H1 as [Hc _]. cbn [app].
      apply digit_not_sign_or_point in Hc as (-> & -> & _). done.
Qed.

Lemma take_sign_numeral sg rest :
  sign_text sg →
  match rest with
  | c :: _ => (c =? chr "-")%N || (c =? chr "+")%N = false
  | [] => True
  end →
  rest ≠ [] →
  take_sign (sg ++ rest) = (sg, rest).
Proof.
  intros [-> | [-> | ->]] Hr Hne.
  - rewrite app_nil_l. destruct rest as [|c r]; [done|]. unfold take_sign. by rewrite Hr.
  - reflexivity.
  - reflexivity.
Qed.

Lemma number_body_numeral d1 d2 sfx :
  digits d1 → digits d2 → d1 ≠ [] ∨ d2 ≠ [] → unit_letters sfx →
  let frac := match d2 with [] => [] | _ => chr "." :: d2 end in
  number_body (d1 ++ frac ++ sfx) = Some (d1 ++ frac, sfx).
Proof.
  intros H1 H2 Hne Hs frac.
  destruct (number_body_spans d1 d2 sfx H1 H2 Hne Hs) as (Ha & Hb & Hc & Hd).
  unfold number_body. fold frac in Ha. rewrite Ha.
  unfold frac in *. destruct d2 as [|c2 d2].
  - rewrite app_nil_l, app_nil_r. destruct Hne as [Hne|?]; [|done].
    destruct d1 as [|c1 d1]; [done|].
    destruct sfx as [|l sfx]; [done|].
    apply Forall_cons in Hs as [Hl Hs'].
    by rewrite (unit_letter_not_point l Hl).
  - cbn [app]. change (chr "." =? chr ".")%N with true. cbv iota.
    cbn [app] in Hb. by rewrite Hb.
Qed.

Lemma match_number_numeral sg d1 d2 sfx :
  sign_text sg → digits d1 → digits d2 → d1 ≠ [] ∨ d2 ≠ [] → unit_letters sfx →
  match_number (numeral sg d1 d2 ++ sfx) = Some (numeral sg d1 d2, sfx).
Proof.
  intros Hsg H1 H2 Hne Hs.
  destruct (number_body_spans d1 d2 sfx H1 H2 Hne Hs) as (Ha & Hb & Hc & Hd).
  unfold numeral, match_number. rewrite <- !app_assoc.
  rewrite take_sign_numeral; [|done|done|].
  - rewrite number_body_numeral by done. by rewrite Hc.
  - destruct d1; [|done]. destruct Hne as [?|Hne]; [done|]. by destruct d2.
Qed.

Lemma digits_value_some ds acc :
  digits ds → ∃ n, digits_value acc ds = Some n.
Proof.
  intros H. revert acc. induction H as [|c ds Hc _ IH]; intros acc; [by eexists|].
  cbn [digits_value]. unfold is_digit in Hc.
  destruct (decimal_value c); [|done]. apply IH.
Qed.

(** [float()] of the text of a number: the float nearest to the decimal
    it writes. *)
Lemma float_of_numeral_numeral sg d1 d2 :
  sign_text sg → digits d1 → digits d2 → d1 ≠ [] ∨ d2 ≠ [] →
  ∃ n, digits_value 0 (d1 ++ d2) = Some n
       ∧ float_of_numeral (numeral sg d1 d2)
         = Some (float_of_ratio (str_eqb sg (u "-")) n (pow10 (length d2))).
Proof.
  intros Hsg H1 H2 Hne.
  destruct (digits_value_some (d1 ++ d2) 0%N) as [n Hn]; [by apply Forall_app|].
  exists n. split; [done|].
  destruct (number_body_spans d1 d2 [] H1 H2 Hne ltac:(constructor))
    as (Ha & Hb & _ & Hd).
  rewrite !app_nil_r in *.
  set (frac := match d2 with [] => [] | _ => chr "." :: d2 end) in *.
  assert (Hrest : ∀ neg,
    (let '(d1', r1) := span is_digit (d1 ++ frac) in
     let '(d2', r2) :=
       match r1 with
       | c :: r => if (c =? chr ".")%N then span is_digit r else ([], r1)
       | [] => ([], [])
       end in
     match d1' ++ d2', r2 with
     | _ :: _, [] =>
         match digits_value 0 (d1' ++ d2') with
         | Some n => Some (float_of_ratio neg n (pow10 (length d2')))
         | None => None
         end
     | _, _ => None
     end) = Some (float_of_ratio neg n (pow10 (length d2)))).
  { intros neg. rewrite Ha. unfold frac. destruct d2 as [|c2 d2].
    - rewrite app_nil_r in *. destruct Hne as [Hne|?]; [|done].
      destruct d1 as [|c1 d1]; [done|]. cbn [app]. by rewrite Hn.
    - change (chr "." =? chr ".")%N with true. cbv iota. rewrite Hb.
      destruct (d1 ++ c2 :: d2) as [|x xs] eqn:E; [by destruct d1|].
      by rewrite Hn. }
  unfold numeral. fold frac.
  destruct Hsg as [-> | [-> | ->]].
  - rewrite app_nil_l. unfold float_of_numeral.
    destruct (d1 ++ frac) as [|c r] eqn:E.
    + destruct d1; [|done]. destruct Hne as [?|Hne]; [done|].
      unfold frac in E. by destruct d2.
    + apply orb_false_iff in Hd as [Hd1 Hd2]. rewrite Hd1, Hd2.
      exact (Hrest false).
  - exact (Hrest true).
  - exact (Hrest false).
Qed.

Lemma numeral_plain sg d1 d2 sfx :
  sign_text sg → digits d1 → digits d2 → unit_letters sfx →
  Forall (fun c => plain c = true) (numeral sg d1 d2 ++ sfx).
Proof.
  intros Hsg H1 H2 Hs. unfold numeral.
  repeat apply Forall_app_2.
  - destruct Hsg as [-> | [-> | ->]]; repeat constructor.
  - eapply Forall_impl; [exact H1|]. apply digit_plain.
  - destruct d2 as [|c d2]; [constructor|]. constructor; [reflexivity|].
    eapply Forall_impl; [exact H2|]. apply digit_plain.
  - eapply Forall_impl; [exact Hs|]. apply unit_letter_plain.
Qed.

(** [parse_val] on the text of a number followed by letters: the cleaning
    steps change nothing, the pattern splits the token into the number and
    the letters, and the suffix chooses the scale. *)
Lemma parse_val_numeral sg d1 d2 sfx :
  sign_text sg → digits d1 → digits d2 → d1 ≠ [] ∨ d2 ≠ [] → unit_letters sfx →
  ∃ n, digits_value 0 (d1 ++ d2) = Some n
       ∧ float_of_numeral (numeral sg d1 d2)
         = Some (float_of_ratio (str_eqb sg (u "-")) n (pow10 (length d2)))
       ∧ parse_val (numeral sg d1 d2 ++ sfx)
         = by_suffix (float_of_ratio (str_eqb sg (u "-")) n (pow10 (length d2)))
             (micro_to_u sfx).
Proof.
  intros Hsg H1 H2 Hne Hs.
  destruct (float_of_numeral_numeral sg d1 d2 Hsg H1 H2 Hne) as (n & Hn & Hf).
  exists n. split; [done|]. split; [done|].
  destruct (plain_text_cleaning _ (numeral_plain sg d1 d2 sfx Hsg H1 H2 Hs))
    as (Hp & He & Hclean).
  unfold parse_val. rewrite Hp, He. cbn [orb]. rewrite Hclean.
  rewrite (match_number_numeral sg d1 d2 sfx Hsg H1 H2 Hne Hs), Hf.
  destruct (numeral sg d1 d2 ++ sfx) as [|c r] eqn:E; [|reflexivity].
  exfalso. apply app_eq_nil in E as [E _]. unfold numeral in E.
  apply app_eq_nil in E as [_ E]. apply app_eq_nil in E as [E1 E2].
  destruct Hne as [?|Hne]; [done|]. by destruct d2.
Qed.

(** Evaluation of the comparisons of a known suffix. *)
Ltac eval_suffix :=
  unfold by_suffix;
  repeat match goal with
         | |- context [str_eqb ?a ?b] =>
             let v := eval vm_compute in (str_eqb a b) in
             change (str_eqb a b) with v
         end;
  cbn [orb]; reflexivity.

(** C3. The text of a number (a sign or none, digits, and digits after a
    point or none) followed by a unit parses to the float of the number
    times the scale of the unit: [1e-9] for [n] and [ns], [1e-6] for [u],
    [us], [µ] and [µs], [1e-3] for [m] and [ms], and the number itself for
    [s] and for no unit. So ["123.45ms"] parses to [0.12345] and ["5n"] to
    [5e-9]. A token with a [%] or a [=] in it parses to [None] and the scan
    of a line steps over it, as for ["50%"] and ["p=0.05"]. *)
Theorem parse_val_scales (sg d1 d2 : str) :
  sign_text sg → digits d1 → digits d2 → d1 ≠ [] ∨ d2 ≠ [] →
  let num := numeral sg d1 d2 in
  (∃ n val,
     digits_value 0 (d1 ++ d2) = Some n
     ∧ val = float_of_ratio (str_eqb sg (u "-")) n (pow10 (length d2))
     ∧ float_of_numeral num = Some val
     ∧ parse_val (num ++ u "n") = Ok (Some (fmul val f_1e_9))
     ∧ parse_val (num ++ u "ns") = Ok (Some (fmul val f_1e_9))
     ∧ parse_val (num ++ u "u") = Ok (Some (fmul val f_1e_6))
     ∧ parse_val (num ++ u "us") = Ok (Some (fmul val f_1e_6))
     ∧ parse_val (num ++ u "µ") = Ok (Some (fmul val f_1e_6))
     ∧ parse_val (num ++ u "µs") = Ok (Some (fmul val f_1e_6))
     ∧ parse_val (num ++ u "m") = Ok (Some (fmul val f_1e_3))
     ∧ parse_val (num ++ u "ms") = Ok (Some (fmul val f_1e_3))
     ∧ parse_val (num ++ u "s") = Ok (Some val)
     ∧ parse_val num = Ok (Some val))
  ∧ parse_val (u "123.45ms") = Ok (Some (float_of_ratio false 12345 100000))
  ∧ parse_val (u "5n") = Ok (Some (float_of_ratio false 5 1000000000))
  ∧ (∀ token, contains (u "%") token = true ∨ contains (u "=") token = true →
       parse_val token = Ok None
       ∧ ∀ found rest, extract_loop found (token :: rest) = extract_loop found rest)
  ∧ parse_val (u "50%") = Ok None
  ∧ parse_val (u "p=0.05") = Ok None
  ∧ extract_two_numbers [u "name"; u "50%"; u "p=0.05"] = Ok [].
Proof.
  intros Hsg H1 H2 Hne num.
  split; [|split; [|split; [|split]]].
  - destruct (float_of_numeral_numeral sg d1 d2 Hsg H1 H2 Hne) as (n & Hn & Hf).
    exists n, (float_of_ratio (str_eqb sg (u "-")) n (pow10 (length d2))).
    split; [done|]. split; [done|]. split; [done|].
    assert (Hp : ∀ sfx, unit_letters sfx →
      parse_val (num ++ sfx)
      = by_suffix (float_of_ratio (str_eqb sg (u "-")) n (pow10 (length d2)))
          (micro_to_u sfx)).
    { intros sfx Hs.
      destruct (parse_val_numeral sg d1 d2 sfx Hsg H1 H2 Hne Hs) as (n' & Hn' & _ & Hp).
      rewrite Hn in Hn'. injection Hn' as <-. exact Hp. }
    repeat split;
      try (rewrite Hp by (repeat constructor); eval_suffix).
    rewrite <- (app_nil_r num). rewrite Hp by constructor. eval_suffix.
  - vm_compute. reflexivity.
  - vm_compute. reflexivity.
  - intros token Ht.
    assert (Hc : contains (u "%") token || contains (u "=") token = true).
    { apply orb_true_iff. exact Ht. }
    split.
    + unfold parse_val. by rewrite Hc.
    + intros found rest. cbn [extract_loop]. rewrite Hc.
      by destruct (is_separator token).
  - repeat split; vm_compute; reflexivity.
Qed.

Lemma parse_val_scales_witness :
  parse_val (u "123.45ms")
  = Ok (Some (fmul (float_of_ratio false 12345 100) f_1e_3)).
Proof.
  destruct (parse_val_scales [] (u "123") (u "45")) as [(n & val & Hn & Hv & H) _].
  - by left.
  - repeat constructor.
  - repeat constructor.
  - left. discriminate.
  - destruct H as (_ & _ & _ & _ & _ & _ & _ & _ & Hms & _).
    injection Hn as <-. rewrite Hv in Hms. exact Hms.
Defined.

(** ** An unexpected unit *)

Lemma str_eqb_neq a b : a ≠ b → str_eqb a b = false.
Proof.
  intros H. destruct (str_eqb a b) eqn:E; [|done]. by apply str_eqb_eq in E.
Qed.

Lemma by_suffix_unknown val suffix :
  suffix ≠ [] → suffix ∉ known_suffixes →
  by_suffix val suffix = Raise (ValueError (u "Unexpected unit: " ++ suffix)).
Proof.
  intros Hne Hn. unfold known_suffixes in Hn.
  rewrite !not_elem_of_cons in Hn.
  destruct Hn as (?&?&?&?&?&?&?&_).
  unfold by_suffix. by rewrite !str_eqb_neq.
Qed.

Lemma micro_to_u_nil sfx : micro_to_u sfx = [] → sfx = [].
Proof. by destruct sfx. Qed.

(** The scan of a line does not step over the text of a number with
    letters after it. *)
Lemma numeral_not_skipped sg d1 d2 sfx :
  sign_text sg → digits d1 → digits d2 → d1 ≠ [] ∨ d2 ≠ [] → unit_letters sfx →
  sfx ≠ [] →
  let tok := numeral sg d1 d2 ++ sfx in
  is_separator tok = false
  ∧ contains (u "%") tok || contains (u "=") tok = false
  ∧ startswith (u "p=") tok || startswith (u "n=") tok = false.
Proof.
  intros Hsg H1 H2 Hne Hs Hsfx tok.
  pose proof (numeral_plain sg d1 d2 sfx Hsg H1 H2 Hs) as Hplain. fold tok in Hplain.
  destruct (plain_text_cleaning _ Hplain) as (Hp & He & _).
  assert (Hlen : (2 ≤ length tok)%nat).
  { unfold tok, numeral. rewrite !length_app.
    destruct sfx; [done|]. destruct d1; cbn [length]; [|lia].
    destruct Hne as [?|Hne]; [done|]. destruct d2; [done|]. cbn [length]. lia. }
  split; [|split].
  - unfold is_separator.
    destruct tok as [|c1 [|c2 r]]; cbn [length] in Hlen; [lia|lia|].
    rewrite !str_eqb_neq by (vm_compute; discriminate). reflexivity.
  - by rewrite Hp, He.
  - destruct tok as [|c1 [|c2 r]]; cbn [length] in Hlen; [lia|lia|].
    apply Forall_cons in Hplain as [_ Hplain]. apply Forall_cons in Hplain as [Hc2 _].
    apply plain_parts in Hc2 as (_ & _ & _ & Heq & _).
    change (u "p=") with [112%N; chr "="]. change (u "n=") with [110%N; chr "="].
    cbn [startswith]. rewrite (N.eqb_sym (chr "=")), Heq.
    by rewrite !andb_false_r.
Qed.

(** The scan goes on after a prefix of the tokens that ends with fewer
    than two numbers found. *)
Lemma extract_loop_app found ts1 found' ts2 :
  extract_loop found ts1 = Ok found' → length found' ≠ 2%nat →
  extract_loop found (ts1 ++ ts2) = extract_loop found' ts2.
Proof.
  revert found. induction ts1 as [|t ts1 IH]; intros found H Hlen.
  - by injection H as ->.
  - cbn [app extract_loop] in *.
    destruct (is_separator t); [by apply IH|].
    destruct (contains (u "%") t || contains (u "=") t); [by apply IH|].
    destruct (startswith (u "p=") t || startswith (u "n=") t); [by apply IH|].
    destruct (parse_val t) as [[v|]|e]; cbn [mbind result_bind] in *; [| |done].
    + destruct (length (found ++ [v]) =? 2)%nat eqn:E.
      * injection H as <-. by apply Nat.eqb_eq in E.
      * by apply IH.
    + by apply IH.
Qed.

(** The second loop stops at the first line that raises. *)
Lemma emit_app dcs st l1 l2 :
  emit dcs st (l1 ++ l2) = (st' ← emit dcs st l1; emit dcs st' l2).
Proof.
  revert st. induction l1 as [|line l1 IH]; intros st; [done|].
  cbn [app emit]. destruct (emit_line dcs st.1 line) as [[ic out]|e]; [|done].
  cbn [mbind result_bind]. apply IH.
Qed.

(** C4, as amended. The text of a number followed by letters that are
    not a known unit, once every [µ] is read as [u], makes [parse_val]
    raise; the known units are [n], [ns], [u], [us], [m], [ms], [s], and
    so [µ] and [µs] as well. Nothing catches the error on its way: the scan
    of the tokens raises when it reaches the token, the branch of the data
    line raises, the second loop stops, and the handler at the top prints
    the error and exits with status 1. The file is written only after the
    loop, so it is left as it was. *)
Theorem unexpected_unit_is_fatal (sg d1 d2 sfx : str) :
  sign_text sg → digits d1 → digits d2 → d1 ≠ [] ∨ d2 ≠ [] →
  unit_letters sfx → sfx ≠ [] → micro_to_u sfx ∉ known_suffixes →
  let tok := numeral sg d1 d2 ++ sfx in
  let e := ValueError (u "Unexpected unit: " ++ micro_to_u sfx) in
  parse_val tok = Raise e
  ∧ (∀ found before found' after,
       extract_loop found before = Ok found' → length found' ≠ 2%nat →
       extract_loop found (before ++ tok :: after) = Raise e)
  ∧ (∀ dcs line name before found' after,
       split (strip_worker_suffix line) = name :: before ++ tok :: after →
       extract_loop [] before = Ok found' → length found' ≠ 2%nat →
       reflow_data dcs line = Raise e)
  ∧ (∀ dcs line,
       is_fence line = false → is_footnote line = false →
       is_column_header line = false → is_metadata line = false →
       reflow_data dcs line = Raise e →
       emit_line dcs true line = Raise e)
  ∧ (∀ text before line after in_code w processed,
       splitlines text = before ++ line :: after →
       width_pass false (splitlines text) = (in_code, w) →
       emit (w - 13) (in_code, []) before = Ok (true, processed) →
       emit_line (w - 13) true line = Raise e →
       main (Present text)
       = {| status := 1;
            printed := [u "Error post-processing comparison.md: " ++ exn_text e];
            file_after := Present text |}).
Proof.
  intros Hsg H1 H2 Hne Hs Hsfx Hunk tok e.
  assert (Hparse : parse_val tok = Raise e).
  { destruct (parse_val_numeral sg d1 d2 sfx Hsg H1 H2 Hne Hs) as (n & _ & _ & Hp).
    unfold tok. rewrite Hp. apply by_suffix_unknown; [|done].
    intros Hnil. by apply micro_to_u_nil in Hnil. }
  assert (Hscan : ∀ found before found' after,
             extract_loop found before = Ok found' → length found' ≠ 2%nat →
             extract_loop found (before ++ tok :: after) = Raise e).
  { intros found before found' after Hb Hlen.
    rewrite (extract_loop_app _ _ _ _ Hb Hlen). cbn [extract_loop].
    destruct (numeral_not_skipped sg d1 d2 sfx Hsg H1 H2 Hne Hs Hsfx) as (Ha & Hb' & Hc).
    fold tok in Ha, Hb', Hc. by rewrite Ha, Hb', Hc, Hparse. }
  split; [done|]. split; [done|]. split; [|split].
  - intros dcs line name before found' after Hsplit Hb Hlen.
    unfold reflow_data, extract_two_numbers. rewrite Hsplit. cbn [drop].
    rewrite drop_0. by rewrite (Hscan _ _ _ _ Hb Hlen).
  - intros dcs line Hf Hfoot Hh Hm Hr. unfold emit_line.
    by rewrite Hf, Hfoot, Hh, Hm, Hr.
  - intros text before line after in_code w processed Hlines Hw Hbefore Hline.
    apply failure_exits_nonzero; [done|].
    unfold process, reflow. rewrite Hw, Hlines, emit_app, Hbefore.
    cbn [mbind result_bind emit fst]. by rewrite Hline.
Qed.

(** A table whose first row gives its measurements in kilobytes: the run
    ends with status 1 and the file is untouched. *)
Lemma unexpected_unit_is_fatal_witness :
  let text := join_lines [u "```"; u "goos: linux";
                          u "Foo-8   12.5kB ± ∞ ¹   13.0kB ± ∞ ¹"; u "```"]
              ++ [10%N] in
  parse_val (u "12.5kB") = Raise (ValueError (u "Unexpected unit: kB"))
  ∧ main (Present text)
    = {| status := 1;
         printed := [u "Error post-processing comparison.md: Unexpected unit: kB"];
         file_after := Present text |}.
Proof.
  intros text.
  destruct (unexpected_unit_is_fatal [] (u "12") (u "5") (u "kB"))
    as (Hp & _ & Hdata & Hline & Hmain).
  - by left.
  - repeat constructor.
  - repeat constructor.
  - left. discriminate.
  - repeat constructor.
  - discriminate.
  - vm_compute. intros H. by repeat (apply elem_of_cons in H as [H|H]; [discriminate|]);
      apply elem_of_nil in H.
  - split; [exact Hp|].
    apply (Hmain text [u "```"; u "goos: linux"] (u "Foo-8   12.5kB ± ∞ ¹   13.0kB ± ∞ ¹")
             [u "```"] false 33 [u "```"; u "        goos: linux"]).
    + vm_compute. reflexivity.
    + vm_compute. reflexivity.
    + vm_compute. reflexivity.
    + apply Hline; [vm_compute; reflexivity ..|].
      apply (Hdata _ _ (u "Foo") [] [] [u "±"; u "∞"; u "¹"; u "13.0kB"; u "±"; u "∞"; u "¹"]).
      * vm_compute. reflexivity.
      * reflexivity.
      * discriminate.
Defined.

(** C4, as stated, fails for the suffix [µs]: it is made of letters of the
    pattern, it is not empty and it is not in the list of the
    specification, yet [parse_val] reads it as [us] and returns the number
    of microseconds; a table that holds such tokens is rewritten and the
    run ends with status 0. *)
Lemma micro_seconds_are_known :
  unit_letters (u "µs") ∧ (u "µs" ≠ []) ∧ (u "µs" ∉ listed_suffixes)
  ∧ parse_val (u "5µs") = Ok (Some (fmul (float_of_Z 5) f_1e_6))
  ∧ main (Present (join_lines [u "```"; u "Foo-8   5µs   6µs"; u "```"] ++ [10%N]))
    = {| status := 0; printed := [];
         file_after :=
           Present (join_lines [u "```"; u "        Foo   5µs   6µs  +20.00% 🐌"; u "```"]
                      ++ [10%N]) |}.
Proof.
  split; [repeat constructor|]. split; [discriminate|]. split.
  - vm_compute. intros H.
    by repeat (apply elem_of_cons in H as [H|H]; [discriminate|]); apply elem_of_nil in H.
  - split; vm_compute; reflexivity.
Qed.

(** ** The column of the differences *)

Lemma len_app a b : len (a ++ b) = len a + len b.
Proof. unfold len. rewrite length_app. lia. Qed.

Lemma len_spaces n : 0 ≤ n → len (spaces n) = n.
Proof. intros H. unfold len, spaces. rewrite length_replicate. lia. Qed.

(** The padding of [append_aligned] and of the header branch. *)
Lemma aligned_length dcs left_part :
  len (INDENT ++
       (if len left_part <? dcs
        then left_part ++ spaces (dcs - len left_part)
        else left_part ++ u "  "))
  = column_offset dcs left_part.
Proof.
  unfold column_offset. rewrite len_app.
  destruct (len left_part <? dcs) eqn:E.
  - apply Z.ltb_lt in E. rewrite len_app, len_spaces by lia. lia.
  - rewrite len_app. change (len (u "  ")) with 2. lia.
Qed.

Lemma longest_nonneg ws : 0 ≤ longest ws.
Proof. induction ws; cbn [longest foldr]; [done|]. fold (longest ws). lia. Qed.

Lemma width_pass_from in_code w lines :
  0 ≤ w →
  (foldl width_step (in_code, w) lines).2
  = Z.max w (longest (stripped_width <$> data_lines in_code lines)).
Proof.
  revert in_code w. induction lines as [|line lines IH]; intros ic w Hw.
  - cbn. lia.
  - cbn [foldl data_lines]. unfold width_step at 2.
    destruct (is_fence line); [by apply IH|].
    destruct ic; cbn [negb andb]; [|by apply IH].
    destruct (is_footnote line); cbn [negb andb]; [by apply IH|].
    destruct (is_metadata line); cbn [negb andb]; [by apply IH|].
    destruct (is_column_header line); cbn [negb andb]; [by apply IH|].
    fold (stripped_width line).
    pose proof (longest_nonneg (stripped_width <$> data_lines true lines)) as Hl.
    destruct (w <? stripped_width line) eqn:E;
      [apply Z.ltb_lt in E | apply Z.ltb_ge in E];
      (rewrite IH by lia); cbn [fmap list_fmap longest foldr];
      fold (longest (stripped_width <$> data_lines true lines)); lia.
Qed.

Lemma longest_bound ws x : x ∈ ws → x ≤ longest ws.
Proof.
  induction 1 as [x ws|x y ws _ IH]; cbn [longest foldr]; fold (longest ws); lia.
Qed.


(** C1, as amended. The start of the difference column is the width of
    the longest stripped data line less 13, and the second loop uses that
    one number for the column header and for every data line. It is a
    least position, not the position: after the indent of 8 characters,
    the label of the header and the difference of a row begin at that
    offset when the text before them is shorter than it, and two characters
    after that text otherwise. No data line is wider than the longest, so
    the difference of the longest row always begins two characters after
    the row. For a longest line of 60 characters the differences begin at
    character 55 of the rewritten line for the rows shorter than 47
    characters and at the row's width plus 10 for the others. *)
Theorem diff_column_offset (lines : list str) :
  let W := longest (stripped_width <$> data_lines false lines) in
  let dcs := W - 13 in
  (∃ in_code,
     width_pass false lines = (in_code, W)
     ∧ reflow lines = ('(_, processed) ← emit dcs (in_code, []) lines; Ok processed))
  ∧ (∀ line, line ∈ data_lines false lines → stripped_width line ≤ W)
  ∧ (∀ line,
       is_fence line = false → is_footnote line = false →
       is_column_header line = true →
       let h := strip_diff (rstrip (rstrip_char (chr "│") (rstrip line))) in
       ∃ pad,
         emit_line dcs true line
         = Ok (true, INDENT ++ h ++ pad
                       ++ (if contains (u "vs base") line then u "Diff" else [])
                       ++ u "│")
         ∧ len (INDENT ++ h ++ pad) = column_offset dcs h)
  ∧ (∀ line n0 n1,
       is_fence line = false → is_footnote line = false →
       is_column_header line = false → is_metadata line = false →
       extract_two_numbers (split (strip_worker_suffix line)) = Ok [n0; n1] →
       fne n0 (float_of_Z 0) = true →
       let left := rstrip (strip_worker_suffix line) in
       ∃ pad,
         emit_line dcs true line
         = Ok (true, INDENT ++ left ++ pad ++ diff_text (diff_percent n0 n1))
         ∧ len (INDENT ++ left ++ pad) = column_offset dcs left)
  ∧ (W = 60 →
     ∀ left, column_offset dcs left = if len left <? 47 then 55 else len left + 10).
Proof.
  intros W dcs. split; [|split; [|split; [|split]]].
  - pose proof (width_pass_from false 0 lines ltac:(lia)) as Hw.
    fold (width_pass false lines) in Hw. fold W in Hw.
    pose proof (longest_nonneg (stripped_width <$> data_lines false lines)) as Hn.
    fold W in Hn. rewrite Z.max_r in Hw by done.
    destruct (width_pass false lines) as [ic w] eqn:E. cbn [snd] in Hw. subst w.
    exists ic. split; [done|]. unfold reflow. by rewrite E.
  - intros line Hin. apply longest_bound. by apply list_elem_of_fmap_2.
  - intros line Hf Hfoot Hh h.
    exists (if len h <? dcs then spaces (dcs - len h) else u "  ").
    split.
    + unfold emit_line, reflow_header. rewrite Hf, Hfoot, Hh. cbn [negb].
      fold h. destruct (len h <? dcs), (contains (u "vs base") line);
        by rewrite <- ?app_assoc.
    + rewrite <- (aligned_length dcs h). by destruct (len h <? dcs).
  - intros line n0 n1 Hf Hfoot Hh Hm He Hn left.
    exists (if len left <? dcs then spaces (dcs - len left) else u "  ").
    split.
    + unfold emit_line. rewrite Hf, Hfoot, Hh, Hm. cbn [negb].
      unfold reflow_data. rewrite He.
      destruct (split (strip_worker_suffix line)) as [|t ts]; [done|].
      cbn [mbind result_bind]. rewrite Hn. unfold append_aligned. fold left.
      by destruct (len left <? dcs); rewrite <- ?app_assoc.
    + rewrite <- (aligned_length dcs left). by destruct (len left <? dcs).
  - intros HW left. unfold column_offset, dcs. rewrite HW.
    change (len INDENT) with 8. change (60 - 13) with 47.
    destruct (len left <? 47); lia.
Qed.

(** A table of two rows whose longer row is 60 characters wide once its
    worker suffix is gone. *)
Lemma diff_column_offset_witness :
  let row_a := ljust 42 (u "ModelA-8") ++ ljust 15 (u "1.00m") ++ u "1.10m" in
  let row_b := ljust 20 (u "ModelB-8") ++ ljust 10 (u "1.00m") ++ u "0.85m" in
  let lines := [u "```"; row_a; row_b; u "```"] in
  longest (stripped_width <$> data_lines false lines) = 60
  ∧ reflow lines
    = Ok [u "```";
          u "        ModelA                                  1.00m          1.10m  +10.00% 🐌";
          u "        ModelB            1.00m     0.85m              -15.00% 🚀";
          u "```"].
Proof.
  intros row_a row_b lines.
  destruct (diff_column_offset lines) as ((ic & Hw & Hr) & _).
  split; [vm_compute; reflexivity|].
  assert (ic = false) as -> by (vm_compute in Hw; congruence).
  rewrite Hr. vm_compute. reflexivity.
Defined.

(** C1, as stated, fails on that table: the longest stripped line is 60
    characters wide, and the difference begins at character 70 of the
    longer row and at character 55 of the shorter one, neither of which is
    47, and the two are not one column. *)
Lemma diff_column_not_at_47 :
  let row_a := ljust 42 (u "ModelA-8") ++ ljust 15 (u "1.00m") ++ u "1.10m" in
  let row_b := ljust 20 (u "ModelB-8") ++ ljust 10 (u "1.00m") ++ u "0.85m" in
  let lines := [u "```"; row_a; row_b; u "```"] in
  longest (stripped_width <$> data_lines false lines) = 60
  ∧ ∃ out_a out_b,
      reflow lines = Ok [u "```"; out_a; out_b; u "```"]
      ∧ find (u "+10.00%") out_a = Some 70
      ∧ find (u "-15.00%") out_b = Some 55
      ∧ find (u "+10.00%") out_a ≠ Some 47
      ∧ find (u "-15.00%") out_b ≠ Some 47.
Proof.
  intros row_a row_b lines. split; [vm_compute; reflexivity|].
  eexists _, _. split; [vm_compute; reflexivity|].
  repeat split; try (vm_compute; reflexivity); vm_compute; discriminate.
Qed.

(** ** The Comparator *)

Section ComparatorFacts.
Import Simulator.

#[local] Instance str_le_total : Total str_le.
Proof.
  intros a. unfold str_le. induction a as [|x a IH]; intros [|y b]; cbn; auto.
  destruct (N.ltb_spec x y), (N.ltb_spec y x); auto; lia.
Qed.

#[local] Instance str_le_trans : Transitive str_le.
Proof.
  intros a. unfold str_le. induction a as [|x a IH]; intros [|y b] [|z c]; cbn; try done.
  destruct (N.ltb_spec x y), (N.ltb_spec y x), (N.ltb_spec y z), (N.ltb_spec z y),
    (N.ltb_spec x z), (N.ltb_spec z x); try done; try lia.
  apply IH.
Qed.

#[local] Instance str_le_antisym : AntiSymm (=) str_le.
Proof.
  intros a. unfold str_le. induction a as [|x a IH]; intros [|y b]; cbn; try done.
  destruct (N.ltb_spec x y), (N.ltb_spec y x); try done; try lia.
  intros H1 H2. assert (x = y) as -> by lia. f_equal. by apply IH.
Qed.

Lemma elem_of_all_names base_map pr_map n :
  n ∈ all_names base_map pr_map ↔ is_Some (base_map !! n) ∨ is_Some (pr_map !! n).
Proof.
  unfold all_names. rewrite merge_sort_Permutation, elem_of_elements, elem_of_union.
  by rewrite !elem_of_dom.
Qed.

Lemma zero_not_above_zero : fgt f_0 f_0 = false.
Proof. reflexivity. Qed.

(** The values of a side are those of its map that are above zero. *)
Lemma elem_of_values_of m names v :
  v ∈ values_of m names ↔ ∃ n, n ∈ names ∧ m !! n = Some v ∧ fgt v f_0 = true.
Proof.
  unfold values_of. change (@filter float (list float)) with (@filter float (list float)).
  rewrite list_elem_of_filter, list_elem_of_fmap. split.
  - intros (Hv & n & -> & Hn). exists n. split; [done|]. split; [|done].
    unfold get0 in *. destruct (m !! n) as [w|]; [done|].
    cbn in Hv. by rewrite zero_not_above_zero in Hv.
  - intros (n & Hn & Hm & Hv). split; [done|]. exists n. split; [|done].
    unfold get0. by rewrite Hm.
Qed.

Variable math_exp math_log : float → float.
Variable float_sum : list float → float.

(** A float within 8 units in the last place of 100 or of 200 prints as
    that number. *)
Lemma near_100_prints g :
  within_ulps 8 (float_of_Z 100) g → format_val (Some g) = u "100.00n".
Proof.
  unfold within_ulps. intros H. vm_compute in H.
  repeat (apply elem_of_cons in H as [->|H]; [vm_compute; reflexivity|]).
  by apply elem_of_nil in H.
Qed.

Lemma near_200_prints g :
  within_ulps 8 (float_of_Z 200) g → format_val (Some g) = u "200.00n".
Proof.
  unfold within_ulps. intros H. vm_compute in H.
  repeat (apply elem_of_cons in H as [->|H]; [vm_compute; reflexivity|]).
  by apply elem_of_nil in H.
Qed.

(** C5. The row of the geometric means is printed exactly when each side
    has a value above zero. The mean of a side is [math.exp] of the sum of
    the [math.log] of its values above zero divided by their number, the
    two sides apart, and the row is the label and the two means, with no
    comparison after them. A name that one side lacks has [N/A] in the
    cell of that side and no comparison after its cells. For the maps
    [{"A": 100}] and [{"A": 200}] the means print as the two values,
    [math.exp(math.log(x))] being within a few units in the last place
    of [x]. *)
Theorem geomean_row_spec (base_benches pr_benches : list bench) :
  let base_map := to_map base_benches in
  let pr_map := to_map pr_benches in
  let names := all_names base_map pr_map in
  let base_values := values_of base_map names in
  let pr_values := values_of pr_map names in
  let geo := fun vals =>
    math_exp (fdiv (float_sum (math_log <$> vals)) (float_of_Z (Z.of_nat (length vals)))) in
  (∀ cpu_info,
     report math_exp math_log float_sum cpu_info base_benches pr_benches
     = header_lines cpu_info ++ (row base_map pr_map <$> names)
       ++ option_list (geomean_row math_exp math_log float_sum base_values pr_values)
       ++ footnotes)
  ∧ (is_Some (geomean_row math_exp math_log float_sum base_values pr_values)
     ↔ (∃ n v, base_map !! n = Some v ∧ fgt v f_0 = true)
       ∧ (∃ n v, pr_map !! n = Some v ∧ fgt v f_0 = true))
  ∧ (∀ v, v ∈ base_values ↔ ∃ n, base_map !! n = Some v ∧ fgt v f_0 = true)
  ∧ (∀ v, v ∈ pr_values ↔ ∃ n, pr_map !! n = Some v ∧ fgt v f_0 = true)
  ∧ (∀ r, geomean_row math_exp math_log float_sum base_values pr_values = Some r →
       r = ljust 52 (u "geomean") ++ ljust 22 (format_val (Some (geo base_values)))
             ++ ljust 22 (format_val (Some (geo pr_values))))
  ∧ (∀ n, base_map !! n = None →
       row base_map pr_map n
       = ljust 52 n ++ ljust 22 (u "N/A") ++ ljust 22 (format_cell (get0 pr_map n)))
  ∧ (∀ n, pr_map !! n = None →
       row base_map pr_map n
       = ljust 52 n ++ ljust 22 (format_cell (get0 base_map n)) ++ ljust 22 (u "N/A"))
  ∧ (∀ cpu_info,
       within_ulps 8 (float_of_Z 100) (geo [float_of_Z 100]) →
       within_ulps 8 (float_of_Z 200) (geo [float_of_Z 200]) →
       report math_exp math_log float_sum cpu_info
         [{| name := u "A"; value := float_of_Z 100 |}]
         [{| name := u "A"; value := float_of_Z 200 |}]
       = header_lines cpu_info
         ++ [ljust 52 (u "A") ++ ljust 22 (u "100.00n ± ∞ ¹")
               ++ ljust 22 (u "200.00n ± ∞ ¹") ++ u "~ (p=1.000 n=1) ²";
             ljust 52 (u "geomean") ++ ljust 22 (u "100.00n") ++ ljust 22 (u "200.00n")]
         ++ footnotes)
  ∧ (∀ cpu_info,
       report math_exp math_log float_sum cpu_info
         [] [{| name := u "A"; value := float_of_Z 200 |}]
       = header_lines cpu_info
         ++ [ljust 52 (u "A") ++ ljust 22 (u "N/A") ++ ljust 22 (u "200.00n ± ∞ ¹")]
         ++ footnotes).
Proof.
  intros base_map pr_map names base_values pr_values geo.
  split; [done|].
  assert (Hb : ∀ v, v ∈ base_values ↔ ∃ n, base_map !! n = Some v ∧ fgt v f_0 = true).
  { intros v. unfold base_values. rewrite elem_of_values_of. split.
    - intros (n & _ & H). by exists n.
    - intros (n & Hm & Hv). exists n. split; [|done].
      apply elem_of_all_names. left. by eexists. }
  assert (Hp : ∀ v, v ∈ pr_values ↔ ∃ n, pr_map !! n = Some v ∧ fgt v f_0 = true).
  { intros v. unfold pr_values. rewrite elem_of_values_of. split.
    - intros (n & _ & H). by exists n.
    - intros (n & Hm & Hv). exists n. split; [|done].
      apply elem_of_all_names. right. by eexists. }
  split; [|split; [done|split; [done|split; [|split; [|split; [|split]]]]]].
  - unfold geomean_row. split.
    + intros Hsome. destruct base_values as [|v vs] eqn:E1; [by destruct Hsome|].
      destruct pr_values as [|w ws] eqn:E2; [by destruct Hsome|].
      split.
      * destruct (proj1 (Hb v) ltac:(left)) as (n & H). by exists n, v.
      * destruct (proj1 (Hp w) ltac:(left)) as (n & H). by exists n, w.
    + intros [(n & v & Hv) (n' & w & Hw)].
      assert (v ∈ base_values) as H1 by (apply Hb; by exists n).
      assert (w ∈ pr_values) as H2 by (apply Hp; by exists n').
      destruct base_values; [by apply elem_of_nil in H1|].
      destruct pr_values; [by apply elem_of_nil in H2|]. by eexists.
  - intros r. unfold geomean_row, calc_geo.
    destruct base_values; [done|]. destruct pr_values; [done|]. by intros [= <-].
  - intros n Hn. unfold row, comp_str, get0. rewrite Hn. cbn [default].
    change (format_cell f_0) with (u "N/A"). change (fgt f_0 f_0) with false.
    cbn [andb]. by rewrite app_nil_r.
  - intros n Hn. unfold row, comp_str, get0. rewrite Hn. cbn [default].
    change (format_cell f_0) with (u "N/A"). change (fgt f_0 f_0) with false.
    rewrite andb_false_r. by rewrite app_nil_r.
  - intros cpu_info H100 H200.
    apply near_100_prints in H100. apply near_200_prints in H200.
    unfold report.
    change (all_names _ _) with [u "A"].
    change (values_of (to_map [{| name := u "A"; value := float_of_Z 100 |}]) [u "A"])
      with [float_of_Z 100].
    change (values_of (to_map [{| name := u "A"; value := float_of_Z 200 |}]) [u "A"])
      with [float_of_Z 200].
    unfold geomean_row, calc_geo. fold (geo [float_of_Z 100]). fold (geo [float_of_Z 200]).
    rewrite H100, H200. cbn [option_list].
    by f_equal.
  - intros cpu_info. unfold report.
    change (all_names _ _) with [u "A"].
    change (values_of (to_map []) [u "A"]) with (@nil float).
    cbn [geomean_row option_list]. by f_equal.
Qed.

Lemma StronglySorted_filter {A} (R : relation A) (P : A → Prop)
    `{∀ x, Decision (P x)} (l : list A) :
  StronglySorted R l → StronglySorted R (filter P l).
Proof.
  induction 1 as [|x l Hl IH Hx]; [constructor|].
  rewrite filter_cons. destruct (decide (P x)); [|done].
  constructor; [done|]. apply Forall_forall. intros y Hy.
  apply list_elem_of_filter in Hy as [_ Hy]. rewrite Forall_forall in Hx. by apply Hx.
Qed.

Lemma all_names_sorted a b : StronglySorted str_le (all_names a b).
Proof. apply StronglySorted_merge_sort; apply _. Qed.

Lemma all_names_NoDup a b : NoDup (all_names a b).
Proof.
  unfold all_names. rewrite merge_sort_Permutation. apply NoDup_elements.
Qed.

(** The names other than [n] do not depend on the entry of [n]. *)
Lemma other_names m o n z :
  filter (λ x, x ≠ n) (all_names (<[n := z]> m) o)
  = filter (λ x, x ≠ n) (all_names (delete n m) o).
Proof.
  apply (StronglySorted_unique str_le).
  - apply StronglySorted_filter, all_names_sorted.
  - apply StronglySorted_filter, all_names_sorted.
  - apply NoDup_Permutation.
    + apply NoDup_filter, all_names_NoDup.
    + apply NoDup_filter, all_names_NoDup.
    + intros x. rewrite !list_elem_of_filter, !elem_of_all_names.
      split; intros [Hx H]; (split; [done|]).
      * by rewrite lookup_delete_ne; rewrite lookup_insert_ne in H.
      * by rewrite lookup_insert_ne; rewrite lookup_delete_ne in H.
Qed.

Lemma values_of_skip m names n :
  fgt (get0 m n) f_0 = false →
  values_of m names = values_of m (filter (λ x, x ≠ n) names).
Proof.
  intros Hn. unfold values_of. induction names as [|x names IH]; [done|].
  rewrite filter_cons. destruct (decide (x ≠ n)) as [Hx|Hx].
  - rewrite !fmap_cons, !filter_cons. by rewrite IH.
  - apply dec_stable in Hx. subst x. rewrite fmap_cons, filter_cons.
    destruct (decide (fgt (get0 m n) f_0 = true)) as [E|_]; [congruence|done].
Qed.

Lemma values_of_ext m1 m2 names :
  (∀ x, x ∈ names → get0 m1 x = get0 m2 x) →
  values_of m1 names = values_of m2 names.
Proof.
  intros H. unfold values_of. f_equal. apply list_fmap_ext.
  intros i x Hx. apply H. by eapply list_elem_of_lookup_2.
Qed.

Lemma get0_insert (m : gmap str float) n z : get0 (<[n := z]> m) n = z.
Proof. unfold get0. by rewrite lookup_insert_eq. Qed.

Lemma get0_delete (m : gmap str float) n : get0 (delete n m) n = f_0.
Proof. unfold get0. by rewrite lookup_delete_eq. Qed.

Lemma float_zero_cases z : feq z f_0 = true → ∃ s, z = S754_zero s.
Proof. destruct z as [s|[]| |[] m e]; try done. by eexists. Qed.

Lemma values_of_zero_entry m o n z :
  feq z f_0 = true →
  values_of (<[n := z]> m) (all_names (<[n := z]> m) o)
  = values_of (delete n m) (all_names (delete n m) o).
Proof.
  intros Hz. apply float_zero_cases in Hz as [s ->].
  rewrite (values_of_skip (<[n := S754_zero s]> m) _ n).
  2:{ rewrite get0_insert. by destruct s. }
  rewrite (values_of_skip (delete n m) _ n).
  2:{ by rewrite get0_delete. }
  rewrite other_names. apply values_of_ext.
  intros x Hx. apply list_elem_of_filter in Hx as [Hx _].
  unfold get0. by rewrite lookup_insert_ne, lookup_delete_ne.
Qed.

(** A document that ends with an entry for [n] gives the map with that
    entry. *)
Lemma to_map_snoc benches b :
  to_map (benches ++ [b]) = <[name b := value b]> (to_map benches).
Proof. unfold to_map. by rewrite foldl_app. Qed.

Lemma all_names_comm a b : all_names a b = all_names b a.
Proof. unfold all_names. by rewrite (union_comm_L (dom a)). Qed.

(** C10. An entry whose value is zero is to the Comparator what a missing
    entry is: its cell is [N/A] with no confidence mark, no comparison
    follows the cells of its row, the row is the same text as with the
    entry deleted, and the values that enter the geometric mean of its
    side are the same as with the entry deleted. This holds on the base
    side and on the candidate side. *)
Theorem zero_value_as_absent (base_map pr_map : gmap str float) (n : str) (z : float) :
  feq z f_0 = true →
  format_cell z = u "N/A"
  ∧ row (<[n := z]> base_map) pr_map n
    = ljust 52 n ++ ljust 22 (u "N/A") ++ ljust 22 (format_cell (get0 pr_map n))
  ∧ row base_map (<[n := z]> pr_map) n
    = ljust 52 n ++ ljust 22 (format_cell (get0 base_map n)) ++ ljust 22 (u "N/A")
  ∧ row (<[n := z]> base_map) pr_map n = row (delete n base_map) pr_map n
  ∧ row base_map (<[n := z]> pr_map) n = row base_map (delete n pr_map) n
  ∧ values_of (<[n := z]> base_map) (all_names (<[n := z]> base_map) pr_map)
    = values_of (delete n base_map) (all_names (delete n base_map) pr_map)
  ∧ values_of (<[n := z]> pr_map) (all_names base_map (<[n := z]> pr_map))
    = values_of (delete n pr_map) (all_names base_map (delete n pr_map)).
Proof.
  intros Hz. pose proof Hz as Hz'. apply float_zero_cases in Hz' as [s ->].
  assert (Hcell : format_cell (S754_zero s) = u "N/A") by (by destruct s).
  assert (Hgt : fgt (S754_zero s) f_0 = false) by (by destruct s).
  split; [done|].
  assert (Hb : ∀ o, row (<[n := S754_zero s]> base_map) o n
                = ljust 52 n ++ ljust 22 (u "N/A") ++ ljust 22 (format_cell (get0 o n))).
  { intros o. unfold row, comp_str. rewrite !get0_insert, Hcell, Hgt.
    cbn [andb]. by rewrite app_nil_r. }
  assert (Hp : ∀ o, row o (<[n := S754_zero s]> pr_map) n
                = ljust 52 n ++ ljust 22 (format_cell (get0 o n)) ++ ljust 22 (u "N/A")).
  { intros o. unfold row, comp_str. rewrite !get0_insert, Hcell, Hgt, andb_false_r.
    by rewrite app_nil_r. }
  split; [apply Hb|]. split; [apply Hp|]. split; [|split; [|split]].
  - rewrite Hb. unfold row, comp_str. rewrite !get0_delete.
    change (format_cell f_0) with (u "N/A").
    change (fgt f_0 f_0) with false. cbn [andb]. by rewrite app_nil_r.
  - rewrite Hp. unfold row, comp_str. rewrite !get0_delete.
    change (format_cell f_0) with (u "N/A").
    change (fgt f_0 f_0) with false. rewrite andb_false_r. by rewrite app_nil_r.
  - by apply values_of_zero_entry.
  - rewrite (all_names_comm base_map), (all_names_comm base_map).
    by apply values_of_zero_entry.
Qed.

End ComparatorFacts.

Section ComparatorSamples.
Import Simulator.

(** A base document that lists [B] with the value 0 and a candidate that
    measures it. *)
Lemma zero_value_as_absent_witness :
  let base_map := to_map [{| name := u "A"; value := float_of_Z 100 |}] in
  let pr_map := to_map [{| name := u "A"; value := float_of_Z 200 |};
                        {| name := u "B"; value := float_of_Z 300 |}] in
  row (<[u "B" := float_of_Z 0]> base_map) pr_map (u "B")
  = ljust 52 (u "B") ++ ljust 22 (u "N/A") ++ ljust 22 (u "300.00n ± ∞ ¹")
  ∧ values_of (<[u "B" := float_of_Z 0]> base_map)
      (all_names (<[u "B" := float_of_Z 0]> base_map) pr_map)
    = [float_of_Z 100].
Proof.
  intros base_map pr_map.
  destruct (zero_value_as_absent base_map pr_map (u "B") (float_of_Z 0) eq_refl)
    as (_ & Hrow & _ & _ & _ & Hvals & _).
  split.
  - rewrite Hrow. vm_compute. reflexivity.
  - rewrite Hvals. vm_compute. reflexivity.
Defined.

(** The sample of the C library with the plain running sum: the means of
    100 and of 200 are three units in the last place off, and print as
    [100.00n] and [200.00n]. *)
Lemma geomean_row_spec_witness :
  within_ulps 8 (float_of_Z 100)
    (sample_exp (fdiv (plain_sum (sample_log <$> [float_of_Z 100])) (float_of_Z 1)))
  ∧ within_ulps 8 (float_of_Z 200)
      (sample_exp (fdiv (plain_sum (sample_log <$> [float_of_Z 200])) (float_of_Z 1)))
  ∧ report sample_exp sample_log plain_sum (u "GitHub Actions Runner")
      [{| name := u "A"; value := float_of_Z 100 |}]
      [{| name := u "A"; value := float_of_Z 200 |}]
    = header_lines (u "GitHub Actions Runner")
      ++ [ljust 52 (u "A") ++ ljust 22 (u "100.00n ± ∞ ¹")
            ++ ljust 22 (u "200.00n ± ∞ ¹") ++ u "~ (p=1.000 n=1) ²";
          ljust 52 (u "geomean") ++ ljust 22 (u "100.00n") ++ ljust 22 (u "200.00n")]
      ++ footnotes.
Proof.
  assert (H100 : within_ulps 8 (float_of_Z 100)
            (sample_exp (fdiv (plain_sum (sample_log <$> [float_of_Z 100])) (float_of_Z 1)))).
  { unfold within_ulps. vm_compute. do 3 right. left. }
  assert (H200 : within_ulps 8 (float_of_Z 200)
            (sample_exp (fdiv (plain_sum (sample_log <$> [float_of_Z 200])) (float_of_Z 1)))).
  { unfold within_ulps. vm_compute. do 11 right. left. }
  split; [exact H100|]. split; [exact H200|].
  pose proof (geomean_row_spec sample_exp sample_log plain_sum [] []) as H.
  exact (proj1 (proj2 (proj2 (proj2 (proj2 (proj2 (proj2 (proj2 H)))))))
           (u "GitHub Actions Runner") H100 H200).
Defined.


End ComparatorSamples.

(** * Further properties of the scripts *)

(** ** TableReflow: the shape of the output *)

(** X1. The second loop appends exactly one line for each line it reads:
    when the pass succeeds, the rewritten report has as many lines as the
    report read. *)
Theorem reflow_keeps_line_count (lines outs : list str) :
  reflow lines = Ok outs → length outs = length lines.
Proof.
  unfold reflow. destruct (width_pass false lines) as [ic w].
  destruct (emit (w - 13) (ic, []) lines) as [[ic' out]|e] eqn:E; [|done].
  cbn [mbind result_bind]. intros [= <-].
  destruct (emit_passes_through _ _ _ _ _ _ E) as (outs & -> & Hlen & _).
  by rewrite app_nil_l.
Qed.

Lemma reflow_keeps_line_count_witness :
  length [u "```"; u "        Foo   1.00m   1.10m  +10.00% 🐌"; u "```"]
  = length [u "```"; u "Foo-8   1.00m   1.10m"; u "```"].
Proof.
  apply reflow_keeps_line_count. vm_compute. reflexivity.
Defined.

(** X2. Inside the fenced region every line but a fence delimiter comes
    out behind the indent of eight blanks, whatever its class, and the
    region goes on. *)
Theorem emit_line_indents (dcs : Z) (line out : str) (in_code : bool) :
  is_fence line = false →
  emit_line dcs true line = Ok (in_code, out) →
  in_code = true ∧ ∃ rest, out = INDENT ++ rest.
Proof.
  intros Hf. unfold emit_line. rewrite Hf. cbn [negb].
  destruct (is_footnote line); [intros [= <- <-]; eauto|].
  destruct (is_column_header line); [intros [= <- <-]; unfold reflow_header; eauto|].
  destruct (is_metadata line); [intros [= <- <-]; eauto|].
  unfold reflow_data.
  destruct (split (strip_worker_suffix line)) as [|t ts]; [intros [= <- <-]; eauto|].
  destruct (extract_two_numbers (t :: ts)) as [numbers|e]; [|done].
  cbn [mbind result_bind].
  destruct numbers as [|n0 [|n1 [|n2 ns]]]; try (intros [= <- <-]; eauto).
  destruct (fne n0 (float_of_Z 0)); intros [= <- <-]; unfold append_aligned; eauto.
Qed.

Lemma emit_line_indents_witness :
  ∃ rest, u "        goos: linux" = INDENT ++ rest.
Proof.
  destruct (emit_line_indents 0 (u "goos: linux") (u "        goos: linux") true)
    as [_ H]; [vm_compute; reflexivity ..|exact H].
Defined.

(** ** TableReflow: a second run *)

Lemma strip_blanks ws s : blanks ws → strip (ws ++ s) = strip s.
Proof. intros H. unfold strip. by rewrite lstrip_blanks. Qed.

Lemma startswith_blank p0 p c s :
  is_space p0 = false → is_space c = true → startswith (p0 :: p) (c :: s) = false.
Proof.
  intros Hp Hc. cbn [startswith].
  destruct (N.eqb_spec p0 c) as [->|]; [congruence|done].
Qed.

Lemma contains_blanks p0 p ws s :
  is_space p0 = false → blanks ws → contains (p0 :: p) (ws ++ s) = contains (p0 :: p) s.
Proof.
  intros Hp. induction 1 as [|c ws Hc _ IH]; [done|].
  cbn [app]. change (contains (p0 :: p) (c :: ws ++ s))
    with (startswith (p0 :: p) (c :: ws ++ s) || contains (p0 :: p) (ws ++ s)).
  by rewrite startswith_blank, IH.
Qed.

Lemma need_samples_blanks ws s : blanks ws → need_samples (ws ++ s) = need_samples s.
Proof.
  induction 1 as [|c ws Hc _ IH]; [done|].
  cbn [app]. rewrite need_samples_unfold, IH.
  unfold need_samples_here. change (u "need") with (110%N :: u "eed").
  by rewrite startswith_blank.
Qed.

(** The class of a line does not depend on blanks put before it. *)
Lemma class_of_indented ws line :
  blanks ws →
  is_fence (ws ++ line) = is_fence line
  ∧ is_footnote (ws ++ line) = is_footnote line
  ∧ is_column_header (ws ++ line) = is_column_header line
  ∧ is_metadata (ws ++ line) = is_metadata line.
Proof.
  intros H. unfold is_fence, is_footnote, starts_with_superscript,
    is_column_header, is_metadata.
  rewrite strip_blanks, lstrip_blanks, need_samples_blanks by done.
  change (u "│") with (9474%N :: []). change (u "vs base") with (118%N :: u "s base").
  change (u "old") with (111%N :: u "ld"). change (u "new") with (110%N :: u "ew").
  by rewrite !contains_blanks.
Qed.

(** X3. The script does not recognise its own indent: the class of a
    line is the same with blanks before it, so a footnote or a metadata
    line of the fenced region, which a first run indents, is indented once
    more by a run on the output. The rewriting is not idempotent. *)
Theorem second_run_indents_again (dcs dcs' : Z) (line : str) :
  is_fence line = false →
  is_footnote line = true ∨ (is_column_header line = false ∧ is_metadata line = true) →
  emit_line dcs true line = Ok (true, INDENT ++ line)
  ∧ emit_line dcs' true (INDENT ++ line) = Ok (true, INDENT ++ INDENT ++ line)
  ∧ INDENT ++ INDENT ++ line ≠ INDENT ++ line.
Proof.
  intros Hf Hclass.
  assert (Hb : blanks INDENT) by (repeat constructor).
  destruct (class_of_indented INDENT line Hb) as (H1 & H2 & H3 & H4).
  assert (Hstep : ∀ d l, is_fence l = false →
            is_footnote l = true ∨ (is_column_header l = false ∧ is_metadata l = true) →
            emit_line d true l = Ok (true, INDENT ++ l)).
  { intros d l Hfl [Hl|[Hh Hm]]; unfold emit_line; rewrite Hfl; cbn [negb].
    - by rewrite Hl.
    - rewrite Hh, Hm. by destruct (is_footnote l). }
  split; [by apply Hstep|]. split.
  - apply Hstep; [by rewrite H1|]. by rewrite H2, H3, H4.
  - intros Heq. apply (f_equal (@length N)) in Heq.
    rewrite !length_app in Heq. change (length INDENT) with 8%nat in Heq. lia.
Qed.

Lemma second_run_indents_again_witness :
  emit_line 50 true (INDENT ++ u "² all samples are equal")
  = Ok (true, INDENT ++ INDENT ++ u "² all samples are equal").
Proof.
  destruct (second_run_indents_again 40 50 (u "² all samples are equal"))
    as (_ & H & _); [vm_compute; reflexivity|left; vm_compute; reflexivity|].
  exact H.
Defined.

(** ** TableReflow: a report with no fence *)

Lemma emit_outside dcs lines acc :
  Forall (fun line => is_fence line = false) lines →
  emit dcs (false, acc) lines = Ok (false, acc ++ lines).
Proof.
  intros H. revert acc. induction H as [|line lines Hl _ IH]; intros acc.
  - by rewrite app_nil_r.
  - cbn [emit fst snd]. rewrite emit_line_outside, Hl. cbn [mbind result_bind].
    rewrite IH. by rewrite <- app_assoc.
Qed.

Lemma odd_fences_none lines :
  Forall (fun line => is_fence line = false) lines → odd_fences lines = false.
Proof.
  unfold odd_fences. induction 1 as [|line lines Hl _ IH]; [done|].
  cbn [foldl]. by rewrite Hl.
Qed.

(** X4. A report with no fence delimiter is rewritten line for line as it
    is: the run succeeds and the file holds the same lines, each ended by
    a newline. *)
Theorem no_fence_unchanged (text : str) :
  Forall (fun line => is_fence line = false) (splitlines text) →
  reflow (splitlines text) = Ok (splitlines text)
  ∧ main (Present text)
    = {| status := 0; printed := [];
         file_after := Present (join_lines (splitlines text) ++ [10%N]) |}.
Proof.
  intros H.
  assert (Hr : reflow (splitlines text) = Ok (splitlines text)).
  { unfold reflow. pose proof (width_pass_in_code (splitlines text)) as Hic.
    rewrite (odd_fences_none _ H) in Hic.
    destruct (width_pass false (splitlines text)) as [ic w]. cbn [fst] in Hic. subst ic.
    by rewrite emit_outside. }
  split; [done|]. unfold main, process. by rewrite Hr.
Qed.

Lemma no_fence_unchanged_witness :
  main (Present (u "Comparison:" ++ [13; 10]%N ++ u "Foo-8   1.00m   1.10m"))
  = {| status := 0; printed := [];
       file_after := Present (u "Comparison:" ++ [10%N] ++ u "Foo-8   1.00m   1.10m"
                                ++ [10%N]) |}.
Proof.
  destruct (no_fence_unchanged
              (u "Comparison:" ++ [13; 10]%N ++ u "Foo-8   1.00m   1.10m")) as [_ H].
  - vm_compute. repeat constructor.
  - rewrite H. vm_compute. reflexivity.
Defined.

(** ** TableReflow: writing and reading the file *)

Lemma splitlines_go_line cur line rest :
  one_line line →
  splitlines_go cur (line ++ 10%N :: rest) = (rev cur ++ line) :: splitlines_go [] rest.
Proof.
  intros H. revert cur. induction H as [|c line Hc _ IH]; intros cur.
  - cbn [app splitlines_go]. change (is_linebreak 10) with true. cbv iota.
    rewrite app_nil_r. by destruct rest as [|[|[]]].
  - cbn [app splitlines_go]. rewrite Hc, IH. cbn [rev]. by rewrite <- app_assoc.
Qed.

(** X5. What the script writes reads back as the lines it wrote: for a
    list of lines that is not empty and whose lines hold no line boundary,
    [splitlines] of the lines joined by newlines and ended by a newline is
    the list. An empty list is written as a single newline, which reads
    back as one empty line. *)
Theorem written_lines_read_back (lines : list str) :
  lines ≠ [] → Forall one_line lines →
  splitlines (join_lines lines ++ [10%N]) = lines.
Proof.
  intros Hne H. unfold splitlines.
  induction H as [|line lines Hl Hls IH]; [done|].
  destruct lines as [|line' lines].
  - cbn [join_lines]. by rewrite splitlines_go_line.
  - change (join_lines (line :: line' :: lines))
      with (line ++ 10%N :: join_lines (line' :: lines)).
    rewrite <- app_assoc. cbn [app]. rewrite splitlines_go_line by done.
    cbn [rev app]. f_equal. by apply IH.
Qed.

Lemma written_lines_read_back_witness :
  splitlines (join_lines [u "```"; []; u "        Foo   1.00m"] ++ [10%N])
  = [u "```"; []; u "        Foo   1.00m"]
  ∧ splitlines (join_lines [] ++ [10%N]) = [[]].
Proof.
  split; [|reflexivity].
  apply written_lines_read_back; [discriminate|].
  unfold one_line. vm_compute. repeat constructor.
Defined.

(** ** TableReflow: the numbers of a line *)

Lemma extract_loop_bound found ts found' :
  (length found ≤ 1)%nat → extract_loop found ts = Ok found' →
  (length found' ≤ 2)%nat.
Proof.
  revert found. induction ts as [|t ts IH]; intros found Hlen H.
  - injection H as <-. lia.
  - cbn [extract_loop] in H.
    destruct (is_separator t); [by eapply IH|].
    destruct (contains (u "%") t || contains (u "=") t); [by eapply IH|].
    destruct (startswith (u "p=") t || startswith (u "n=") t); [by eapply IH|].
    destruct (parse_val t) as [[v|]|e]; cbn [mbind result_bind] in H; [| |done].
    + destruct (length (found ++ [v]) =? 2)%nat eqn:E.
      * injection H as <-. apply Nat.eqb_eq in E. lia.
      * apply (IH (found ++ [v])); [|done].
        apply Nat.eqb_neq in E. rewrite length_app in *. cbn [length] in *. lia.
    + by eapply IH.
Qed.

(** X6. [extract_two_numbers] never returns more than two numbers, and it
    never reads the first token: the name of a row is not taken for a
    number, even when it is one. *)
Theorem extract_two_numbers_bound (tokens : list str) (found : list float) :
  extract_two_numbers tokens = Ok found →
  (length found ≤ 2)%nat
  ∧ ∀ name, extract_two_numbers (name :: drop 1 tokens) = Ok found.
Proof.
  unfold extract_two_numbers. intros H. split.
  - eapply extract_loop_bound; [|exact H]. cbn. lia.
  - intros name. done.
Qed.

Lemma extract_two_numbers_bound_witness :
  extract_two_numbers (split (u "5 1.00m 2.00m 3.00m"))
  = Ok [fmul (float_of_Z 1) f_1e_3; fmul (float_of_Z 2) f_1e_3]
  ∧ (length [fmul (float_of_Z 1) f_1e_3; fmul (float_of_Z 2) f_1e_3] ≤ 2)%nat.
Proof.
  assert (H : extract_two_numbers (split (u "5 1.00m 2.00m 3.00m"))
              = Ok [fmul (float_of_Z 1) f_1e_3; fmul (float_of_Z 2) f_1e_3])
    by (vm_compute; reflexivity).
  split; [exact H|].
  exact (proj1 (extract_two_numbers_bound _ _ H)).
Defined.

(** ** TableReflow: the only error of the text processing *)

Lemma parse_val_raise t e :
  parse_val t = Raise e →
  ∃ sfx, sfx ≠ [] ∧ (sfx ∉ known_suffixes)
         ∧ e = ValueError (u "Unexpected unit: " ++ sfx).
Proof.
  unfold parse_val.
  destruct (contains (u "%") t || contains (u "=") t); [done|].
  destruct (strip (before_first (chr "(") _)) as [|c tok]; [done|].
  destruct (match_number (c :: tok)) as [[g1 g2]|]; [|done].
  destruct (float_of_numeral g1) as [val|]; [|done].
  cbv zeta.
  destruct (str_eqb (micro_to_u g2) (u "n")) eqn:E1; [done|].
  destruct (str_eqb (micro_to_u g2) (u "ns")) eqn:E2; [done|].
  destruct (str_eqb (micro_to_u g2) (u "u")) eqn:E3; [done|].
  destruct (str_eqb (micro_to_u g2) (u "us")) eqn:E4; [done|].
  destruct (str_eqb (micro_to_u g2) (u "m")) eqn:E5; [done|].
  destruct (str_eqb (micro_to_u g2) (u "ms")) eqn:E6; [done|].
  destruct (str_eqb (micro_to_u g2) (u "s")) eqn:E7; [done|].
  destruct (str_eqb (micro_to_u g2) []) eqn:E8; [done|].
  cbn [orb]. intros [= <-]. exists (micro_to_u g2).
  assert (Hne : ∀ a, str_eqb (micro_to_u g2) a = false → micro_to_u g2 ≠ a).
  { intros a Ha Heq. apply str_eqb_eq in Heq. congruence. }
  split; [by apply Hne|]. split; [|done].
  unfold known_suffixes. rewrite !not_elem_of_cons.
  repeat split; try by apply Hne. apply not_elem_of_nil.
Qed.

Lemma extract_loop_raise found ts e :
  extract_loop found ts = Raise e → ∃ t, t ∈ ts ∧ parse_val t = Raise e.
Proof.
  revert found. induction ts as [|t ts IH]; intros found H; [done|].
  assert (Hrest : ∀ f, extract_loop f ts = Raise e →
                       ∃ t', t' ∈ t :: ts ∧ parse_val t' = Raise e).
  { intros f Hf. destruct (IH _ Hf) as (t' & ? & ?). exists t'. split; [by right|done]. }
  cbn [extract_loop] in H.
  destruct (is_separator t); [by eapply Hrest|].
  destruct (contains (u "%") t || contains (u "=") t); [by eapply Hrest|].
  destruct (startswith (u "p=") t || startswith (u "n=") t); [by eapply Hrest|].
  destruct (parse_val t) as [[v|]|e'] eqn:E; cbn [mbind result_bind] in H.
  - destruct (length (found ++ [v]) =? 2)%nat; [done|]. by eapply Hrest.
  - by eapply Hrest.
  - injection H as ->. exists t. split; [by left|done].
Qed.

Lemma emit_raise dcs st lines e :
  emit dcs st lines = Raise e →
  ∃ line t, line ∈ lines ∧ t ∈ split (strip_worker_suffix line)
            ∧ parse_val t = Raise e.
Proof.
  revert st. induction lines as [|line lines IH]; intros st H; [done|].
  cbn [emit] in H.
  destruct (emit_line dcs st.1 line) as [[ic out]|e'] eqn:E;
    cbn [mbind result_bind] in H.
  - destruct (IH _ H) as (l & t & ? & ? & ?). exists l, t. split; [by right|done].
  - injection H as ->. exists line.
    unfold emit_line in E.
    destruct (is_fence line); [done|]. destruct (negb st.1); [done|].
    destruct (is_footnote line); [done|].
    destruct (is_column_header line); [done|].
    destruct (is_metadata line); [done|].
    destruct (reflow_data dcs line) as [out|e''] eqn:E'; [done|].
    cbn [mbind result_bind] in E. injection E as ->.
    unfold reflow_data in E'.
    destruct (split (strip_worker_suffix line)) as [|t0 ts] eqn:Es; [done|].
    destruct (extract_two_numbers (t0 :: ts)) as [ns|e''] eqn:E2.
    + cbn [mbind result_bind] in E'.
      destruct ns as [|n0 [|n1 [|]]]; try done.
      by destruct (fne n0 (float_of_Z 0)).
    + cbn [mbind result_bind] in E'. injection E' as ->.
      unfold extract_two_numbers in E2.
      destruct (extract_loop_raise _ _ _ E2) as (t & Ht & Hp).
      exists t. split; [by left|]. split; [|done].
      right. cbn [drop] in Ht. exact Ht.
Qed.

(** The guards of the data-line branch keep its subscripts in range and
    its divisor away from zero: with Python's own exceptions the branch
    does what [reflow_data] does. *)
Lemma checked_reflow_data dcs line :
  Checked.reflow_data dcs line = Checked.lift (reflow_data dcs line).
Proof.
  unfold Checked.reflow_data, reflow_data.
  destruct (split (strip_worker_suffix line)) as [|t0 ts]; [done|].
  destruct (extract_two_numbers (t0 :: ts)) as [numbers|e]; [|done].
  cbn [Checked.lift mbind Checked.checked_bind result_bind].
  destruct numbers as [|n0 [|n1 [|n2 numbers]]]; try done.
  cbn [Checked.subscript lookup list_lookup length Nat.eqb
         mbind Checked.checked_bind].
  unfold fne, Checked.truediv, feq, diff_percent.
  by destruct (SFeqb n0 (float_of_Z 0)).
Qed.

Lemma checked_emit dcs st lines :
  Checked.emit dcs st lines = Checked.lift (emit dcs st lines).
Proof.
  revert st. induction lines as [|line lines IH]; intros st; [done|].
  cbn [Checked.emit emit].
  assert (Hl : Checked.emit_line dcs st.1 line
               = Checked.lift (emit_line dcs st.1 line)).
  { unfold Checked.emit_line, emit_line.
    destruct (is_fence line); [done|]. destruct (negb st.1); [done|].
    destruct (is_footnote line); [done|].
    destruct (is_column_header line); [done|].
    destruct (is_metadata line); [done|].
    rewrite checked_reflow_data. by destruct (reflow_data dcs line). }
  rewrite Hl. destruct (emit_line dcs st.1 line) as [[ic out]|e]; [|done].
  cbn [Checked.lift mbind Checked.checked_bind result_bind]. apply IH.
Qed.

Lemma checked_reflow lines :
  Checked.reflow lines = Checked.lift (reflow lines).
Proof.
  unfold Checked.reflow, reflow.
  destruct (width_pass false lines) as [ic w]. rewrite checked_emit.
  by destruct (emit (w - 13) (ic, []) lines) as [[ic' out]|e].
Qed.

(** X7. The one error of the two loops is the error of a unit. With the
    subscripts and the division of the data-line branch as Python has
    them, the loops never raise [IndexError] or [ZeroDivisionError]:
    [tokens[0]] is read only when there is a token, [numbers[0]] and
    [numbers[1]] only when two numbers were found, and the division is
    made only when [numbers[0]] is not zero. So the loops do what [reflow]
    does; and when they raise, some token of some line, its worker suffix
    stripped, has made [parse_val] raise a [ValueError] with the text
    [Unexpected unit: ] and a suffix that is neither empty nor known, and
    [main] exits with status 1 and leaves the file. *)
Theorem only_units_raise (lines : list str) :
  Checked.reflow lines = Checked.lift (reflow lines)
  ∧ (∀ r, Checked.reflow lines = Checked.Fails r →
       ∃ line t sfx,
         line ∈ lines ∧ t ∈ split (strip_worker_suffix line)
         ∧ sfx ≠ [] ∧ (sfx ∉ known_suffixes)
         ∧ parse_val t = Raise (ValueError (u "Unexpected unit: " ++ sfx))
         ∧ r = Checked.Raised (ValueError (u "Unexpected unit: " ++ sfx)))
  ∧ (∀ text e, splitlines text = lines → reflow lines = Raise e →
       main (Present text)
       = {| status := 1;
            printed := [u "Error post-processing comparison.md: " ++ exn_text e];
            file_after := Present text |}).
Proof.
  split; [apply checked_reflow|]. split.
  - intros r. rewrite checked_reflow.
    destruct (reflow lines) as [out|e] eqn:H; [done|].
    intros [= <-]. unfold reflow in H.
    destruct (width_pass false lines) as [ic w].
    destruct (emit (w - 13) (ic, []) lines) as [[ic' out]|e'] eqn:E; [done|].
    cbn [mbind result_bind] in H. injection H as ->.
    destruct (emit_raise _ _ _ _ E) as (line & t & Hl & Ht & Hp).
    destruct (parse_val_raise _ _ Hp) as (sfx & ? & ? & ->).
    by exists line, t, sfx.
  - intros text e Htext H. unfold main, process. by rewrite Htext, H.
Qed.

(** A row whose base is zero, where an unguarded division would raise,
    and a row with an unknown unit. *)
Lemma only_units_raise_witness :
  Checked.reflow [u "```"; u "Foo-8   0.00m   2.00m"; u "```"]
  = Checked.Done [u "```"; INDENT ++ u "Foo   0.00m   2.00m"; u "```"]
  ∧ Checked.reflow [u "```"; u "Foo-8   1.00x   2.00x"; u "```"]
    = Checked.Fails (Checked.Raised (ValueError (u "Unexpected unit: x"))).
Proof.
  split.
  - rewrite (proj1 (only_units_raise _)). vm_compute. reflexivity.
  - rewrite (proj1 (only_units_raise _)). vm_compute. reflexivity.
Defined.

(** ** From the Comparator to TableReflow: a printed value read back *)

Lemma uint_digits_digits d : digits (uint_digits d).
Proof. induction d; constructor; done. Qed.

Lemma digits_value_acc d p :
  digits_value (Npos p) (uint_digits d) = Some (Npos (Pos.of_uint_acc d p)).
Proof.
  revert p. induction d; intros p; [done|..];
    cbn [uint_digits digits_value Pos.of_uint_acc];
    match goal with
    | |- context [decimal_value ?c] =>
        let v := eval vm_compute in (decimal_value c) in
        change (decimal_value c) with v
    end; cbv iota; rewrite <- IHd; f_equal; lia.
Qed.

Lemma digits_value_uint d :
  digits_value 0 (uint_digits d) = Some (Pos.of_uint d).
Proof.
  induction d; [done|..];
    cbn [uint_digits digits_value Pos.of_uint];
    match goal with
    | |- context [decimal_value ?c] =>
        let v := eval vm_compute in (decimal_value c) in
        change (decimal_value c) with v
    end; cbv iota; [exact IHd|..]; apply digits_value_acc.
Qed.

Lemma digits_of_value n : 0 ≤ n → digits_value 0 (digits_of n) = Some (Z.to_N n).
Proof.
  intros _. unfold digits_of. rewrite digits_value_uint.
  f_equal. apply DecimalN.Unsigned.of_to.
Qed.

Lemma digits_of_nonnil n : digits_of n ≠ [].
Proof.
  unfold digits_of. destruct (Z.to_N n) as [|p]; [done|].
  cbn [N.to_uint]. pose proof (DecimalPos.Unsigned.to_uint_nonnil p) as H.
  by destruct (Pos.to_uint p).
Qed.

Lemma digits_value_app acc a b :
  digits_value acc (a ++ b)
  = match digits_value acc a with Some n => digits_value n b | None => None end.
Proof.
  revert acc. induction a as [|c a IH]; intros acc; [done|].
  cbn [app digits_value]. by destruct (decimal_value c).
Qed.

Lemma two_digits_value r :
  0 ≤ r < 100 →
  ∃ c1 c2 v1 v2,
    two_digits r = [c1; c2]
    ∧ decimal_value c1 = Some v1 ∧ decimal_value c2 = Some v2
    ∧ (v1 * 10 + v2)%N = Z.to_N r.
Proof.
  intros Hr.
  set (check := fun k : nat =>
    match two_digits (Z.of_nat k) with
    | [c1; c2] =>
        match decimal_value c1, decimal_value c2 with
        | Some v1, Some v2 => (v1 * 10 + v2 =? N.of_nat k)%N
        | _, _ => false
        end
    | _ => false
    end).
  assert (Hall : forallb check (seq 0 100) = true) by (vm_compute; reflexivity).
  rewrite forallb_forall in Hall.
  specialize (Hall (Z.to_nat r)). rewrite in_seq in Hall.
  assert (Hc : check (Z.to_nat r) = true) by (apply Hall; lia).
  unfold check in Hc. rewrite Z2Nat.id in Hc by lia.
  destruct (two_digits r) as [|c1 [|c2 [|]]]; try done.
  destruct (decimal_value c1) as [v1|] eqn:E1; [|done].
  destruct (decimal_value c2) as [v2|] eqn:E2; [|done].
  exists c1, c2, v1, v2. repeat split; try done.
  apply N.eqb_eq in Hc. by rewrite Z_nat_N in Hc.
Qed.

(** The text of a finite float with two decimals: the digits of the
    hundredths, read back as a number. *)
Lemma format_2f_numeral x :
  finite x = true →
  ∃ d1 d2,
    digits d1 ∧ digits d2 ∧ d1 ≠ [] ∧ length d2 = 2%nat
    ∧ format_2f x = numeral (if sign_bit x then u "-" else []) d1 d2
    ∧ float_of_ratio (sign_bit x) (default 0%N (digits_value 0 (d1 ++ d2))) 100
      = round2 x.
Proof.
  destruct x as [s| | |s m e]; try done; intros _.
  - exists (u "0"), (u "00").
    split; [repeat constructor|].
    split; [repeat constructor|].
    split; [discriminate|].
    split; [vm_compute; reflexivity|].
    split; destruct s; vm_compute; reflexivity.
  - pose proof (hundredths_nonneg m e) as Hh.
    set (h := hundredths m e) in *.
    destruct (two_digits_value (h mod 100)) as (c1 & c2 & v1 & v2 & Ht & Hv1 & Hv2 & Hv).
    { apply Z.mod_pos_bound. lia. }
    exists (digits_of (h / 100)), (two_digits (h mod 100)).
    split; [apply uint_digits_digits|].
    split.
    { rewrite Ht. repeat constructor; unfold is_digit; by rewrite ?Hv1, ?Hv2. }
    split; [apply digits_of_nonnil|].
    split; [by rewrite Ht|].
    split.
    { unfold format_2f, fixed2_abs, numeral. fold h. cbn [sign_bit].
      rewrite Ht. change (u ".") with [chr "."]. reflexivity. }
    cbn [round2 sign_bit]. fold h. f_equal.
    rewrite digits_value_app, digits_of_value by (apply Z.div_pos; lia).
    rewrite Ht. cbn [digits_value]. rewrite Hv1, Hv2. cbn [default].
    assert (0 ≤ h / 100) by (apply Z.div_pos; lia).
    pose proof (Z.div_mod h 100 ltac:(lia)).
    pose proof (Z.mod_pos_bound h 100 ltac:(lia)).
    unfold id. clearbody h. lia.
Qed.

(** The text of a finite float with two decimals, followed by unit
    letters, is read as the float rounded to two places, scaled by the
    unit. *)
Lemma format_2f_read (x : float) (sfx : str) :
  finite x = true → unit_letters sfx →
  parse_val (format_2f x ++ sfx) = by_suffix (round2 x) (micro_to_u sfx).
Proof.
  intros Hx Hs.
  destruct (format_2f_numeral x Hx) as (d1 & d2 & H1 & H2 & Hne & Hlen & Hf & Hr).
  set (sg := if sign_bit x then u "-" else []) in *.
  assert (Hsg : sign_text sg) by (unfold sg, sign_text; destruct (sign_bit x); auto).
  destruct (parse_val_numeral sg d1 d2 sfx Hsg H1 H2 (or_introl Hne) Hs)
    as (n & Hn & _ & Hp).
  rewrite Hf, Hp. f_equal. rewrite <- Hr, Hn, Hlen. cbn [default].
  f_equal. unfold sg. by destruct (sign_bit x).
Qed.

(** The texts of the infinities and of NaN hold no digit: [parse_val]
    reads nothing in them. *)
Lemma format_2f_not_read (x : float) (sfx : str) :
  finite x = false → unit_letters sfx →
  parse_val (format_2f x ++ sfx) = Ok None.
Proof.
  intros Hx Hs.
  assert (Hplain : Forall (fun c => plain c = true) (format_2f x ++ sfx)).
  { apply Forall_app_2.
    - destruct x as [| [] | |]; try done; repeat constructor.
    - eapply Forall_impl; [exact Hs|]. apply unit_letter_plain. }
  destruct (plain_text_cleaning _ Hplain) as (Hp & He & Hclean).
  unfold parse_val. rewrite Hp, He. cbn [orb]. rewrite Hclean.
  destruct x as [| [] | |]; done.
Qed.

(** X8. [parse_val] reads the text of a float with two decimals, followed
    by unit letters, as the float rounded to two places and scaled by the
    unit; it reads nothing in the text of an infinity or of a NaN, whatever
    the letters. So [parse_val] undoes [f"{x:.2f}"] up to the rounding, and
    only a unit can make it raise on such a text. *)
Theorem printed_value_read_back (x : float) (sfx : str) :
  unit_letters sfx →
  parse_val (format_2f x ++ sfx)
  = if finite x then by_suffix (round2 x) (micro_to_u sfx) else Ok None.
Proof.
  intros Hs. destruct (finite x) eqn:E.
  - by apply format_2f_read.
  - by apply format_2f_not_read.
Qed.

Lemma printed_value_read_back_witness :
  parse_val (format_2f (float_of_ratio true 24691 2) ++ u "µs")
  = Ok (Some (fmul (float_of_ratio true 1234550 100) f_1e_6)).
Proof.
  rewrite printed_value_read_back by repeat constructor.
  vm_compute. reflexivity.
Defined.

(** ** From the Comparator to TableReflow: the cells of a row *)

Section CellsReadBack.
Import Simulator.

Lemma format_val_read (v : float) :
  parse_val (format_val (Some v))
  = Ok (if flt v f_1e3 then read_back v (Some f_1e_9)
        else if flt v f_1e6 then read_back (fdiv v f_1e3) (Some f_1e_6)
        else if flt v f_1e9 then read_back (fdiv v f_1e6) (Some f_1e_3)
        else read_back (fdiv v f_1e9) None).
Proof.
  assert (Hread : ∀ y sfx scale,
    unit_letters sfx →
    (∀ r, by_suffix r (micro_to_u sfx)
          = Ok (Some (match scale with Some k => fmul r k | None => r end))) →
    parse_val (format_2f y ++ sfx) = Ok (read_back y scale)).
  { intros y sfx scale Hs Hby. unfold read_back. destruct (finite y) eqn:E.
    - rewrite format_2f_read by done. apply Hby.
    - by apply format_2f_not_read. }
  unfold format_val.
  destruct (flt v f_1e3); [|destruct (flt v f_1e6); [|destruct (flt v f_1e9)]];
    apply Hread; try (repeat constructor); intros r; eval_suffix.
Qed.

(** X9. What the Comparator prints for a value, TableReflow reads back:
    [parse_val] of [format_val] never raises, and it gives the number
    printed, rounded to two places, times the scale of the unit printed,
    [1e-9] for [n], [1e-6] for [µ], [1e-3] for [m] and 1 for [s]; an
    infinity or a NaN is read as nothing, and so are [N/A] and the marks
    [±], [∞] and [¹] of a cell. *)
Theorem cell_value_read_back (v : float) :
  parse_val (format_val (Some v))
  = Ok (if flt v f_1e3 then read_back v (Some f_1e_9)
        else if flt v f_1e6 then read_back (fdiv v f_1e3) (Some f_1e_6)
        else if flt v f_1e9 then read_back (fdiv v f_1e6) (Some f_1e_3)
        else read_back (fdiv v f_1e9) None)
  ∧ parse_val (format_val None) = Ok None
  ∧ split (u " ± ∞ ¹") = [u "±"; u "∞"; u "¹"]
  ∧ is_separator (u "±") = true ∧ is_separator (u "∞") = true
  ∧ parse_val (u "¹") = Ok None.
Proof.
  split; [apply format_val_read|].
  repeat split; vm_compute; reflexivity.
Qed.

End CellsReadBack.

(** ** TableReflow: the worker suffix *)

Lemma word_check s : forallb (fun c => negb (is_space c)) s = true → word s.
Proof.
  intros H. apply Forall_forall. intros c Hc. rewrite forallb_forall in H.
  apply negb_true_iff, H. by apply list_elem_of_In.
Qed.

Lemma no_hyphen_check s :
  forallb (fun c => negb (c =? chr "-")%N) s = true → no_hyphen s.
Proof.
  intros H. apply Forall_forall. intros c Hc. rewrite forallb_forall in H.
  apply negb_true_iff, H. by apply list_elem_of_In.
Qed.

Lemma digits_check s : forallb is_digit s = true → digits s.
Proof.
  intros H. apply Forall_forall. intros c Hc. rewrite forallb_forall in H.
  apply H. by apply list_elem_of_In.
Qed.

Lemma worker_grow_none g s : no_hyphen s → worker_grow g s = None.
Proof.
  intros H. revert g. induction H as [|c s Hc _ IH]; intros g; [done|].
  cbn [worker_grow worker_tail]. rewrite Hc. destruct (is_space c); [done|]. apply IH.
Qed.

Lemma sub_worker_id s : no_hyphen s → sub_worker 0 s = s.
Proof.
  induction 1 as [|c s Hc Hs IH]; [done|].
  cbn [sub_worker worker_here].
  destruct (is_space c); [by rewrite IH|].
  by rewrite (worker_grow_none _ _ Hs), IH.
Qed.

Lemma sub_worker_skip pre s : sub_worker (length pre) (pre ++ s) = sub_worker 0 s.
Proof. induction pre as [|c pre IH]; [done|]. exact IH. Qed.

Lemma worker_grow_word w g s :
  word w → no_hyphen w → worker_grow g (w ++ s) = worker_grow (rev w ++ g) s.
Proof.
  intros Hw Hh. revert g. induction Hw as [|c w Hc _ IH]; intros g; [done|].
  apply Forall_cons in Hh as [Hc' Hh].
  cbn [app worker_grow worker_tail]. rewrite Hc', Hc, IH by done.
  cbn [rev]. by rewrite <- app_assoc.
Qed.

Lemma worker_tail_digits ds rest :
  digits ds → ds ≠ [] →
  worker_tail (chr "-" :: ds ++ rest)
  = match rest with
    | [] => Some ([], S (length ds))
    | c :: _ => if is_space c then Some ([c], S (S (length ds))) else worker_tail (chr "-" :: ds ++ rest)
    end.
Proof.
  intros Hd Hne. destruct rest as [|c rest].
  - cbn [worker_tail]. rewrite N.eqb_refl, app_nil_r, span_all by done.
    by destruct ds.
  - destruct (is_space c) eqn:Hc; [|done].
    cbn [worker_tail]. rewrite N.eqb_refl, span_app; [|done|].
    + rewrite Hc. by destruct ds.
    + cbn. destruct (is_digit c) eqn:E; [|done].
      apply digit_not_space in E. congruence.
Qed.

(** X10. The worker suffix is taken off a name: for a name that is a
    token without a hyphen and does not begin with [Benchmark], followed by
    a hyphen, digits and then a blank and a text without a hyphen, or the
    end of the text, [strip_worker_suffix] removes the hyphen and the
    digits and nothing else. The same holds after the prefix [Benchmark],
    which goes as well. A text with no hyphen and no such prefix is left as
    it is. *)
Theorem worker_suffix_removed (name ds rest : str) :
  word name → no_hyphen name → name ≠ [] →
  digits ds → ds ≠ [] →
  match rest with [] => True | c :: _ => is_space c = true end →
  no_hyphen rest →
  (startswith (u "Benchmark") (name ++ chr "-" :: ds ++ rest) = false →
   strip_worker_suffix (name ++ chr "-" :: ds ++ rest) = name ++ rest)
  ∧ strip_worker_suffix (u "Benchmark" ++ name ++ chr "-" :: ds ++ rest) = name ++ rest
  ∧ (startswith (u "Benchmark") (name ++ rest) = false →
     strip_worker_suffix (name ++ rest) = name ++ rest).
Proof.
  intros Hw Hh Hne Hd Hdne Hrest Hhr.
  assert (Hsub : sub_worker 0 (name ++ chr "-" :: ds ++ rest) = name ++ rest).
  { destruct name as [|n0 name]; [done|].
    apply Forall_cons in Hw as [Hn0 Hw]. apply Forall_cons in Hh as [_ Hh].
    cbn [app sub_worker worker_here]. rewrite Hn0.
    rewrite worker_grow_word by done.
    destruct rest as [|c rest].
    - cbn [worker_grow]. rewrite worker_tail_digits by done.
      replace (Nat.pred (length (rev name ++ [n0]) + S (length ds)))
        with (length (name ++ chr "-" :: ds)).
      2:{ rewrite !length_app, length_rev. cbn [length]. lia. }
      replace (name ++ chr "-" :: ds ++ []) with ((name ++ chr "-" :: ds) ++ [])
        by (by rewrite <- app_assoc).
      rewrite sub_worker_skip. cbn [sub_worker].
      rewrite rev_app_distr, rev_involutive. cbn [rev app].
      by rewrite !app_nil_r.
    - apply Forall_cons in Hhr as [_ Hhr].
      cbn [worker_grow]. rewrite worker_tail_digits by done. rewrite Hrest.
      replace (Nat.pred (length (rev name ++ [n0]) + S (S (length ds))))
        with (length (name ++ chr "-" :: ds ++ [c])).
      2:{ rewrite !length_app, length_rev. cbn [length]. rewrite length_app.
          cbn [length]. lia. }
      replace (name ++ chr "-" :: ds ++ c :: rest)
        with ((name ++ chr "-" :: ds ++ [c]) ++ rest).
      2:{ rewrite <- !app_assoc. cbn [app]. by rewrite <- app_assoc. }
      rewrite sub_worker_skip, (sub_worker_id rest) by done.
      rewrite rev_app_distr, rev_involutive. cbn [rev app].
      by rewrite <- app_assoc. }
  split; [|split].
  - intros Hb. unfold strip_worker_suffix, strip_benchmark_prefix. by rewrite Hb.
  - unfold strip_worker_suffix, strip_benchmark_prefix.
    change (u "Benchmark") with [66; 101; 110; 99; 104; 109; 97; 114; 107]%N.
    cbn [app startswith N.eqb Pos.eqb andb drop]. exact Hsub.
  - intros Hb. unfold strip_worker_suffix, strip_benchmark_prefix. rewrite Hb.
    apply sub_worker_id, Forall_app_2; done.
Qed.

Lemma worker_suffix_removed_witness :
  strip_worker_suffix (u "BenchmarkEnforce-8   1.00m   2.00m") = u "Enforce   1.00m   2.00m".
Proof.
  refine (proj1 (proj2 (worker_suffix_removed (u "Enforce") (u "8")
                          (u "   1.00m   2.00m") _ _ _ _ _ _ _)));
    [ apply word_check; vm_compute; reflexivity
    | apply no_hyphen_check; vm_compute; reflexivity
    | discriminate
    | apply digits_check; vm_compute; reflexivity
    | discriminate
    | vm_compute; reflexivity
    | apply no_hyphen_check; vm_compute; reflexivity ].
Defined.

(** ** From the Comparator to TableReflow: a row *)

Lemma split_go_word w cur s :
  word w → split_go cur (w ++ s) = split_go (rev w ++ cur) s.
Proof.
  intros Hw. revert cur. induction Hw as [|c w Hc _ IH]; intros cur; [done|].
  cbn [app split_go]. rewrite Hc, IH. cbn [rev]. by rewrite <- app_assoc.
Qed.

Lemma split_word w c s :
  word w → w ≠ [] → is_space c = true → split (w ++ c :: s) = w :: split s.
Proof.
  intros Hw Hne Hc. unfold split. rewrite split_go_word by done.
  rewrite app_nil_r. cbn [split_go]. rewrite Hc.
  destruct (rev w) as [|x r] eqn:E.
  - apply (f_equal (@rev N)) in E. rewrite rev_involutive in E. done.
  - by rewrite <- E, rev_involutive.
Qed.

Lemma split_blanks ws s : blanks ws → split (ws ++ s) = split s.
Proof.
  unfold split. induction 1 as [|c ws Hc _ IH]; [done|].
  cbn [app split_go]. by rewrite Hc.
Qed.

Lemma blanks_spaces n : blanks (spaces n).
Proof.
  unfold spaces. induction (Z.to_nat n) as [|k IH]; [constructor|].
  constructor; [reflexivity|exact IH].
Qed.

Lemma spaces_pos n : 0 < n → spaces n = 32%N :: spaces (n - 1).
Proof.
  intros H. unfold spaces. replace (Z.to_nat n) with (S (Z.to_nat (n - 1))) by lia.
  done.
Qed.

Lemma split_ljust w width s :
  word w → w ≠ [] → len w < width → split (ljust width w ++ s) = w :: split s.
Proof.
  intros Hw Hne Hlen. unfold ljust. rewrite spaces_pos by lia.
  rewrite <- app_assoc. cbn [app]. rewrite split_word by done.
  f_equal. apply split_blanks, blanks_spaces.
Qed.

Lemma startswith_app p w c s :
  c ∉ p → startswith p (w ++ c :: s) = startswith p w.
Proof.
  revert w. induction p as [|a p IH]; intros w Hc; [by destruct w|].
  apply not_elem_of_cons in Hc as [Hac Hc].
  destruct w as [|b w]; cbn [app startswith].
  - destruct (N.eqb_spec a c); [congruence|done].
  - by rewrite IH.
Qed.

Lemma rstrip_end s c : is_space c = false → rstrip (s ++ [c]) = s ++ [c].
Proof.
  intros Hc. unfold rstrip. rewrite rev_app_distr. cbn [rev app].
  rewrite lstrip_head by done. cbn [rev]. by rewrite rev_involutive.
Qed.

(** A token in which [parse_val] reads a number is not skipped by the
    scan of the tokens. *)
Lemma extract_loop_number found t ts x :
  parse_val t = Ok (Some x) →
  extract_loop found (t :: ts)
  = if (length (found ++ [x]) =? 2)%nat then Ok (found ++ [x])
    else extract_loop (found ++ [x]) ts.
Proof.
  intros Hp. cbn [extract_loop].
  assert (Hc : contains (u "%") t || contains (u "=") t = false).
  { unfold parse_val in Hp.
    by destruct (contains (u "%") t || contains (u "=") t). }
  assert (Hs : is_separator t = false).
  { destruct (is_separator t) eqn:E; [|done]. exfalso.
    unfold is_separator in E. rewrite !orb_true_iff, !str_eqb_eq in E.
    destruct E as [[[[-> | ->] | ->] | ->] | ->]; vm_compute in Hp; discriminate. }
  assert (Hst : startswith (u "p=") t || startswith (u "n=") t = false).
  { apply orb_false_iff in Hc as [_ Hc].
    change (u "p=") with [112; 61]%N. change (u "n=") with [110; 61]%N.
    change (u "=") with [61%N] in Hc.
    destruct t as [|a [|b t]]; cbn [startswith]; rewrite ?andb_false_r; try done.
    cbn [contains startswith] in Hc.
    destruct (61 =? b)%N eqn:E.
    - cbn [andb orb] in Hc. by rewrite orb_true_r in Hc.
    - cbn [andb]. by rewrite !andb_false_r. }
  rewrite Hs, Hc, Hst, Hp. reflexivity.
Qed.

Lemma extract_loop_marks found ts :
  extract_loop found (u "±" :: u "∞" :: u "¹" :: ts) = extract_loop found ts.
Proof.
  cbn [extract_loop].
  change (is_separator (u "±")) with true.
  change (is_separator (u "∞")) with true. cbv iota.
  change (is_separator (u "¹")) with false.
  change (contains (u "%") (u "¹") || contains (u "=") (u "¹")) with false.
  change (startswith (u "p=") (u "¹") || startswith (u "n=") (u "¹")) with false.
  change (parse_val (u "¹")) with (@Ok (option float) None).
  reflexivity.
Qed.

Lemma split_cell w s :
  word w → w ≠ [] →
  split (w ++ u " ± ∞ ¹" ++ 32%N :: s) = w :: u "±" :: u "∞" :: u "¹" :: split s.
Proof.
  intros Hw Hne.
  change (u " ± ∞ ¹" ++ 32%N :: s)
    with (32%N :: (u "±" ++ 32%N :: (u "∞" ++ 32%N :: (u "¹" ++ 32%N :: s)))).
  rewrite split_word by done. reflexivity.
Qed.

Lemma split_cell_head w s :
  word w → w ≠ [] →
  split (w ++ u " ± ∞ ¹" ++ s) = w :: split (u "± ∞ ¹" ++ s).
Proof.
  intros Hw Hne.
  change (u " ± ∞ ¹" ++ s) with (32%N :: (u "± ∞ ¹" ++ s)).
  by rewrite split_word.
Qed.

Section RowReadBack.
Import Simulator.

Lemma fgt_zero v : fgt v f_0 = true → nonneg v ∧ feq v f_0 = false.
Proof. destruct v as [s|s| |s m e]; try done; destruct s; done. Qed.

Lemma format_2f_chars y :
  nonneg y →
  Forall (fun c => negb (is_space c) && negb (c =? chr "-")%N = true) (format_2f y).
Proof.
  intros Hy. destruct y as [s|s| |s m e]; cbn [nonneg] in Hy; subst; try done.
  - repeat constructor.
  - repeat constructor.
  - destruct (format_2f_numeral (S754_finite false m e) eq_refl)
      as (d1 & d2 & H1 & H2 & _ & Hlen & Hf & _).
    rewrite Hf. unfold numeral. cbn [sign_bit app].
    assert (Hdig : ∀ d, digits d →
      Forall (fun c => negb (is_space c) && negb (c =? chr "-")%N = true) d).
    { intros d Hd. eapply Forall_impl; [exact Hd|].
      apply digit_property. vm_compute. reflexivity. }
    apply Forall_app_2; [by apply Hdig|].
    destruct d2 as [|c d2]; [constructor|].
    constructor; [reflexivity|by apply Hdig].
Qed.

Lemma format_val_token v :
  fgt v f_0 = true →
  word (format_val (Some v)) ∧ no_hyphen (format_val (Some v))
  ∧ format_val (Some v) ≠ [].
Proof.
  intros Hv. apply fgt_zero in Hv as [Hv _].
  assert (Hk : ∀ k, k = f_1e3 ∨ k = f_1e6 ∨ k = f_1e9 → nonneg (fdiv v k)).
  { intros k Hk. apply fdiv_nonneg; [done| |right|right].
    - destruct Hk as [-> | [-> | ->]]; done.
    - destruct Hk as [-> | [-> | ->]]; intros H; vm_compute in H; discriminate.
    - destruct Hk as [-> | [-> | ->]]; intros H; vm_compute in H; discriminate. }
  assert (Hall : ∀ y sfx,
    nonneg y → sfx ∈ [u "n"; u "µ"; u "m"; u "s"] →
    word (format_2f y ++ sfx) ∧ no_hyphen (format_2f y ++ sfx)
    ∧ format_2f y ++ sfx ≠ []).
  { intros y sfx Hy Hs.
    pose proof (format_2f_chars y Hy) as Hc.
    assert (Hs' : Forall (fun c => negb (is_space c) && negb (c =? chr "-")%N = true) sfx
                  ∧ sfx ≠ []).
    { rewrite !elem_of_cons in Hs.
      destruct Hs as [-> | [-> | [-> | [-> | Hs]]]];
        [| | | |by apply elem_of_nil in Hs]; split; try discriminate; repeat constructor. }
    destruct Hs' as [Hs' Hne].
    pose proof (Forall_app_2 _ _ _ Hc Hs') as Hboth.
    split; [|split].
    - eapply Forall_impl; [exact Hboth|]. intros c Hcc.
      apply andb_true_iff in Hcc as [Hcc _]. by apply negb_true_iff in Hcc.
    - eapply Forall_impl; [exact Hboth|]. intros c Hcc.
      apply andb_true_iff in Hcc as [_ Hcc]. by apply negb_true_iff in Hcc.
    - intros E. apply app_eq_nil in E as [_ E]. done. }
  unfold format_val.
  destruct (flt v f_1e3); [|destruct (flt v f_1e6); [|destruct (flt v f_1e9)]];
    apply Hall; auto; rewrite !elem_of_cons; auto.
Qed.

(** X11. A row of the Comparator, read by TableReflow. For a name that is
    one token shorter than its column, with no hyphen and not beginning
    with [Benchmark], and two values above zero whose base cell fits its
    column, the scan of the row finds the two numbers that [parse_val]
    reads in the two cells, the base first; and when the first is not
    zero, the row gets the difference of the two in percent, placed in the
    diff column after the whole row. *)
Theorem row_read_back (base_map pr_map : gmap str float) (name : str)
    (x y : float) (dcs : Z) :
  let b := get0 base_map name in
  let p := get0 pr_map name in
  let line := row base_map pr_map name in
  word name → name ≠ [] → no_hyphen name →
  startswith (u "Benchmark") name = false → len name < 52 →
  fgt b f_0 = true → fgt p f_0 = true →
  len (format_cell b) < 22 →
  parse_val (format_val (Some b)) = Ok (Some x) →
  parse_val (format_val (Some p)) = Ok (Some y) →
  strip_worker_suffix line = line
  ∧ extract_two_numbers (split line) = Ok [x; y]
  ∧ (fne x (float_of_Z 0) = true →
     reflow_data dcs line
     = Ok (append_aligned dcs line (diff_text (diff_percent x y)))).
Proof.
  intros b p line Hw Hne Hh Hb Hlen Hgb Hgp Hfit Hx Hy.
  destruct (fgt_zero b Hgb) as [_ Hb0]. destruct (fgt_zero p Hgp) as [_ Hp0].
  destruct (format_val_token b Hgb) as (Hwb & Hhb & Hneb).
  destruct (format_val_token p Hgp) as (Hwp & Hhp & Hnep).
  set (marks := u " ± ∞ ¹") in *.
  set (fb := format_val (Some b)) in *. set (fp := format_val (Some p)) in *.
  assert (Hline : line = ljust 52 name ++ ljust 22 (fb ++ marks)
                         ++ ljust 22 (fp ++ marks) ++ u "~ (p=1.000 n=1) ²").
  { unfold line, row, format_cell, comp_str. fold b p.
    by rewrite Hb0, Hp0, Hgb, Hgp. }
  assert (Hcell : format_cell b = fb ++ marks)
    by (unfold format_cell; by rewrite Hb0).
  rewrite Hcell in Hfit.
  assert (Hsplit : ∃ ts, split line = name :: fb :: u "±" :: u "∞" :: u "¹" :: fp :: ts).
  { eexists. rewrite Hline. rewrite split_ljust by done.
    f_equal. unfold ljust. rewrite (spaces_pos (22 - len (fb ++ marks))) by lia.
    rewrite <- !app_assoc. cbn [app]. unfold marks.
    rewrite split_cell by done. do 4 f_equal.
    rewrite split_blanks by apply blanks_spaces.
    rewrite split_cell_head by done. reflexivity. }
  assert (Hstrip : strip_worker_suffix line = line).
  { unfold strip_worker_suffix, strip_benchmark_prefix.
    assert (Hsw : startswith (u "Benchmark") line = false).
    { rewrite Hline. unfold ljust at 1. rewrite spaces_pos by lia.
      rewrite <- app_assoc. cbn [app]. rewrite startswith_app; [done|].
      vm_compute. intros H. repeat (apply elem_of_cons in H as [H|H]; [discriminate|]).
      by apply elem_of_nil in H. }
    rewrite Hsw. apply sub_worker_id. rewrite Hline. unfold ljust.
    assert (Hsp : ∀ n, no_hyphen (spaces n))
      by (intros n; apply Forall_replicate; reflexivity).
    assert (Hm : no_hyphen marks)
      by (apply no_hyphen_check; vm_compute; reflexivity).
    apply Forall_app_2; [apply Forall_app_2; [exact Hh|apply Hsp]|].
    apply Forall_app_2; [apply Forall_app_2; [apply Forall_app_2|apply Hsp]|];
      [exact Hhb|exact Hm|].
    apply Forall_app_2; [apply Forall_app_2; [apply Forall_app_2|apply Hsp]|];
      [exact Hhp|exact Hm|].
    apply no_hyphen_check. vm_compute. reflexivity. }
  split; [exact Hstrip|].
  destruct Hsplit as [ts Hts].
  assert (Hnum : extract_two_numbers (split line) = Ok [x; y]).
  { rewrite Hts. unfold extract_two_numbers. cbn [drop].
    rewrite (extract_loop_number [] fb _ x Hx). cbn [app length Nat.eqb].
    rewrite extract_loop_marks.
    rewrite (extract_loop_number [x] fp _ y Hy). reflexivity. }
  split; [exact Hnum|].
  intros Hx0. unfold reflow_data. rewrite Hstrip, Hnum, Hts.
  cbn [mbind result_bind]. rewrite Hx0.
  do 2 f_equal. rewrite Hline.
  change (u "~ (p=1.000 n=1) ²") with (u "~ (p=1.000 n=1) " ++ [chr "²"]).
  rewrite !app_assoc. apply rstrip_end. reflexivity.
Qed.

Lemma row_read_back_witness :
  let base_map := to_map [{| name := u "Enforce"; value := float_of_Z 100 |}] in
  let pr_map := to_map [{| name := u "Enforce"; value := float_of_Z 150 |}] in
  reflow_data 60 (row base_map pr_map (u "Enforce"))
  = Ok (append_aligned 60 (row base_map pr_map (u "Enforce")) (u "+50.00% 🐌")).
Proof.
  intros base_map pr_map.
  destruct (row_read_back base_map pr_map (u "Enforce")
              (fmul (float_of_ratio false 10000 100) f_1e_9)
              (fmul (float_of_ratio false 15000 100) f_1e_9) 60)
    as (_ & _ & H);
    [ apply word_check; vm_compute; reflexivity
    | discriminate
    | apply no_hyphen_check; vm_compute; reflexivity
    | vm_compute; reflexivity
    | vm_compute; reflexivity
    | vm_compute; reflexivity
    | vm_compute; reflexivity
    | vm_compute; reflexivity
    | vm_compute; reflexivity
    | vm_compute; reflexivity
    | ].
  rewrite H by (vm_compute; reflexivity).
  vm_compute. reflexivity.
Defined.

End RowReadBack.

(** ** The Comparator: names and entries *)

Section ComparatorNames.
Import Simulator.

(** X12. The rows of the Comparator come in the ascending order of the
    code points of their names, each name once, and the names are those of
    the two documents together: a name of both documents gives one row, and
    the order in which the documents list their entries plays no part. *)
Theorem all_names_spec (base_map pr_map : gmap str float) :
  StronglySorted str_le (all_names base_map pr_map)
  ∧ NoDup (all_names base_map pr_map)
  ∧ (∀ n, n ∈ all_names base_map pr_map
          ↔ is_Some (base_map !! n) ∨ is_Some (pr_map !! n))
  ∧ (∀ base_map' pr_map' : gmap str float,
       dom base_map ∪ dom pr_map = dom base_map' ∪ dom pr_map' →
       all_names base_map pr_map = all_names base_map' pr_map')
  ∧ length (all_names base_map pr_map) = size (dom base_map ∪ dom pr_map).
Proof.
  split; [apply all_names_sorted|]. split; [apply all_names_NoDup|].
  split; [apply elem_of_all_names|]. split.
  - intros a' b' H. unfold all_names. by rewrite H.
  - unfold all_names. by rewrite merge_sort_Permutation.
Qed.

(** X13. The map of a document keeps, for each name, the value of the last
    entry of that name: an earlier entry of the same name is dropped
    without a word, and a name that no entry has is not in the map. *)
Theorem to_map_last_wins (benches : list bench) (n : str) :
  to_map benches !! n = value <$> last (filter (fun b => name b = n) benches).
Proof.
  induction benches as [|b benches IH] using rev_ind; [done|].
  rewrite to_map_snoc, filter_app, filter_cons, filter_nil.
  destruct (decide (name b = n)) as [<-|Hn].
  - by rewrite lookup_insert_eq, last_snoc.
  - by rewrite lookup_insert_ne, app_nil_r.
Qed.

End ComparatorNames.

(** ** TableReflow: the column header *)

Lemma nonblanks_cons c s :
  nonblanks (c :: s) = if is_space c then nonblanks s else S (nonblanks s).
Proof.
  unfold nonblanks. change (@filter N str) with (@filter N (list N)).
  rewrite filter_cons. destruct (is_space c) eqn:E.
  - by rewrite decide_False by done.
  - by rewrite decide_True by done.
Qed.

Lemma nonblanks_app a b : nonblanks (a ++ b) = (nonblanks a + nonblanks b)%nat.
Proof.
  induction a as [|c a IH]; [done|]. cbn [app]. rewrite !nonblanks_cons, IH.
  by destruct (is_space c).
Qed.

Lemma nonblanks_lstrip s : nonblanks (lstrip s) = nonblanks s.
Proof.
  induction s as [|c s IH]; [done|]. cbn [lstrip].
  destruct (is_space c) eqn:E; [|done]. by rewrite nonblanks_cons, E.
Qed.

Lemma nonblanks_blanks ws : blanks ws → nonblanks ws = 0%nat.
Proof.
  induction 1 as [|c ws Hc _ IH]; [done|]. by rewrite nonblanks_cons, Hc.
Qed.

Lemma lstrip_nil_blanks s : lstrip s = [] → blanks s.
Proof.
  induction s as [|c s IH]; [constructor|]. cbn [lstrip].
  destruct (is_space c) eqn:E; [|done]. intros H. constructor; [done|by apply IH].
Qed.

Lemma diff_here_nonblanks s : diff_here s = true → nonblanks s = 4%nat.
Proof.
  destruct s as [|c r]; [done|]. cbn [diff_here].
  intros H. apply andb_true_iff in H as [Hc H].
  rewrite nonblanks_cons, Hc, <- nonblanks_lstrip.
  destruct (lstrip r) as [|a [|b [|c' [|d t]]]]; try done.
  rewrite !andb_true_iff, !orb_true_iff, !N.eqb_eq in H.
  destruct H as [[[[Ha Hb] Hc'] Hd] Ht].
  apply str_eqb_eq, lstrip_nil_blanks, nonblanks_blanks in Ht.
  rewrite !nonblanks_cons, Ht.
  destruct Ha as [-> | ->], Hb as [[[-> | ->] | ->] | ->], Hc' as [-> | ->],
    Hd as [-> | ->]; reflexivity.
Qed.

Lemma diff_labels_letters label :
  label ∈ diff_labels →
  ∃ a b c d, label = [a; b; c; d]
    ∧ (a = 68 ∨ a = 100)%N ∧ (b = 73 ∨ b = 105 ∨ b = 304 ∨ b = 305)%N
    ∧ (c = 70 ∨ c = 102)%N ∧ (d = 70 ∨ d = 102)%N.
Proof.
  unfold diff_labels. intros H.
  apply list_elem_of_bind in H as (a & H & Ha).
  apply list_elem_of_bind in H as (b & H & Hb).
  apply list_elem_of_bind in H as (c & H & Hc).
  apply list_elem_of_bind in H as (d & H & Hd).
  apply list_elem_of_singleton in H as ->.
  exists a, b, c, d. split; [done|].
  rewrite !elem_of_cons in Ha. rewrite !elem_of_cons in Hb.
  rewrite !elem_of_cons in Hc. rewrite !elem_of_cons in Hd.
  split; [destruct Ha as [?|[?|Ha]]; auto; by apply elem_of_nil in Ha|].
  split; [destruct Hb as [?|[?|[?|[?|Hb]]]]; auto; by apply elem_of_nil in Hb|].
  split; [destruct Hc as [?|[?|Hc]]; auto; by apply elem_of_nil in Hc|].
  destruct Hd as [?|[?|Hd]]; auto; by apply elem_of_nil in Hd.
Qed.

Lemma diff_here_label ws label ws' :
  blanks ws → ws ≠ [] → label ∈ diff_labels → blanks ws' →
  diff_here (ws ++ label ++ ws') = true.
Proof.
  intros Hws Hne Hl Hws'. destruct Hws as [|c ws Hc Hws]; [done|].
  cbn [app diff_here]. rewrite Hc, lstrip_blanks by done. cbn [andb].
  assert (Hend : str_eqb (lstrip ws') [] = true).
  { apply str_eqb_eq. rewrite <- (app_nil_r ws'). by rewrite lstrip_blanks. }
  apply diff_labels_letters in Hl as (a & b & c' & d & -> & Ha & Hb & Hc' & Hd).
  cbn [app].
  destruct Ha as [-> | ->], Hb as [-> | [-> | [-> | ->]]], Hc' as [-> | ->],
    Hd as [-> | ->];
    cbn [lstrip];
    match goal with
    | |- context [is_space ?x] => change (is_space x) with false
    end; cbv iota; by rewrite Hend.
Qed.

Lemma strip_diff_label s0 c m :
  is_space c = false → diff_here m = true →
  strip_diff ((s0 ++ [c]) ++ m) = s0 ++ [c].
Proof.
  intros Hc Hm.
  assert (Hm0 : strip_diff m = []) by (destruct m; cbn [strip_diff]; by rewrite Hm).
  induction s0 as [|b s0 IH].
  - cbn [app strip_diff diff_here]. rewrite Hc. cbn [andb]. by rewrite Hm0.
  - cbn [app strip_diff]. fold (strip_diff ((s0 ++ [c]) ++ m)). rewrite IH.
    destruct (diff_here (b :: (s0 ++ [c]) ++ m)) eqn:E; [|done].
    apply diff_here_nonblanks in E. apply diff_here_nonblanks in Hm.
    rewrite nonblanks_cons, !nonblanks_app, nonblanks_cons, Hc, Hm in E.
    destruct (is_space b); lia.
Qed.

Lemma rstrip_char_end x s c :
  (c =? x)%N = false → rstrip_char x (s ++ [c]) = s ++ [c].
Proof.
  intros Hc. unfold rstrip_char. rewrite rev_app_distr. cbn [rev app lstrip_char].
  rewrite Hc. cbn [rev]. by rewrite rev_involutive.
Qed.

(** X14. A header that already ends with the label of the diff column
    does not get a second one. When the line is a text that does not end
    with a blank, then blanks and the label [Diff], in any of its cases,
    the label and the blanks before it are taken off, the text is padded
    to the diff column, and the label is put back, when the line holds
    [vs base], with the closing bar after it. The label then begins where
    the diff text of a data line with a left part of the same length
    begins. *)
Theorem header_label_moved (dcs : Z) (s0 ws label : str) (c : N) :
  is_space c = false → blanks ws → ws ≠ [] → label ∈ diff_labels →
  let s := s0 ++ [c] in
  let line := s ++ ws ++ label in
  let padded := if len s <? dcs then s ++ spaces (dcs - len s) else s ++ u "  " in
  strip_diff line = s
  ∧ reflow_header dcs line
    = INDENT ++ (if contains (u "vs base") line then padded ++ u "Diff" else padded)
        ++ u "│"
  ∧ len (INDENT ++ padded) = column_offset dcs s.
Proof.
  intros Hc Hws Hne Hl s line padded.
  assert (Hsd : strip_diff line = s).
  { unfold line, s. apply strip_diff_label; [done|].
    rewrite <- (app_nil_r label). apply diff_here_label; try done. constructor. }
  split; [exact Hsd|]. split; [|apply aligned_length].
  assert (Hlast : ∃ l0 d, line = l0 ++ [d] ∧ is_space d = false
                          ∧ (d =? chr "│")%N = false).
  { apply diff_labels_letters in Hl as (a & b & c' & d & -> & _ & _ & _ & Hd).
    exists (s ++ ws ++ [a; b; c']), d. unfold line.
    split; [by rewrite <- !app_assoc|].
    destruct Hd as [-> | ->]; done. }
  destruct Hlast as (l0 & d & Hline & Hd & Hbar).
  unfold reflow_header.
  assert (Hr : rstrip (rstrip_char (chr "│") (rstrip line)) = line).
  { rewrite Hline, rstrip_end, rstrip_char_end, rstrip_end by done. done. }
  rewrite Hr, Hsd. fold padded.
  destruct (contains (u "vs base") line); by rewrite <- ?app_assoc.
Qed.

Section HeaderSample.
Import Simulator.

(** The column header that the Comparator prints. *)
Lemma header_label_moved_witness :
  reflow_header 120 (ljust 52 [] ++ u "│       sec/op        │    sec/op      vs base                │   Diff")
  = INDENT ++ ljust 120 (ljust 52 [] ++ u "│       sec/op        │    sec/op      vs base                │")
      ++ u "Diff│".
Proof.
  pose proof (header_label_moved 120
    (ljust 52 [] ++ u "│       sec/op        │    sec/op      vs base                ")
    (u "   ") (u "Diff") (chr "│")) as H.
  destruct H as (_ & H & _);
    [ reflexivity
    | apply Forall_forall; intros x Hx; vm_compute in Hx;
      repeat (apply elem_of_cons in Hx as [-> | Hx]; [reflexivity|]);
      by apply elem_of_nil in Hx
    | discriminate
    | apply list_elem_of_In; vm_compute; tauto
    | ].
  vm_compute in H. vm_compute. exact H.
Defined.

End HeaderSample.

(** ** From the Comparator to TableReflow: the whole report *)

Lemma emit_line_safe dcs ic line :
  is_metadata line = true ∨ (∃ o, reflow_data dcs line = Ok o) →
  ∃ r, emit_line dcs ic line = Ok r.
Proof.
  intros H. unfold emit_line.
  destruct (is_fence line); [by eexists|].
  destruct (negb ic); [by eexists|].
  destruct (is_footnote line); [by eexists|].
  destruct (is_column_header line); [by eexists|].
  destruct (is_metadata line); [by eexists|].
  destruct H as [H|[o H]]; [done|]. rewrite H. by eexists.
Qed.

Lemma emit_safe dcs st lines :
  (∀ line, line ∈ lines →
     is_metadata line = true ∨ (∃ o, reflow_data dcs line = Ok o)) →
  ∃ st', emit dcs st lines = Ok st'.
Proof.
  revert st. induction lines as [|line lines IH]; intros st H; [by eexists|].
  cbn [emit].
  destruct (emit_line_safe dcs st.1 line) as [[ic out] E]; [apply H; by left|].
  rewrite E. cbn [mbind result_bind]. apply IH. intros l Hl. apply H. by right.
Qed.

Lemma reflow_safe lines :
  (∀ dcs line, line ∈ lines →
     is_metadata line = true ∨ (∃ o, reflow_data dcs line = Ok o)) →
  ∃ out, reflow lines = Ok out ∧ length out = length lines.
Proof.
  intros H. unfold reflow. destruct (width_pass false lines) as [ic w].
  destruct (emit_safe (w - 13) (ic, []) lines (H _)) as [[ic' out] E].
  rewrite E. cbn [mbind result_bind]. exists out. split; [done|].
  destruct (emit_passes_through _ _ _ _ _ _ E) as (outs & -> & Hlen & _).
  by rewrite app_nil_l.
Qed.

Lemma safe_tokens_ok line dcs :
  safe_tokens line = true → ∃ o, reflow_data dcs line = Ok o.
Proof.
  unfold safe_tokens. intros H. rewrite forallb_forall in H.
  unfold reflow_data.
  destruct (split (strip_worker_suffix line)) as [|t0 ts] eqn:Es; [by eexists|].
  destruct (extract_two_numbers (t0 :: ts)) as [ns|e] eqn:E.
  - cbn [mbind result_bind]. destruct ns as [|n0 [|n1 [|]]]; try by eexists.
    destruct (fne n0 (float_of_Z 0)); by eexists.
  - exfalso. unfold extract_two_numbers in E.
    destruct (extract_loop_raise _ _ _ E) as (t & Ht & Hp).
    apply list_elem_of_In, H in Ht. by rewrite Hp in Ht.
Qed.

Lemma lstrip_app_nonblank a c b :
  is_space c = false → lstrip (a ++ c :: b) = lstrip a ++ c :: b.
Proof.
  intros Hc. induction a as [|x a IH]; cbn [app lstrip]; [by rewrite Hc|].
  by destruct (is_space x).
Qed.

Lemma rstrip_app_nonblank w c s :
  is_space c = false → rstrip ((w ++ [c]) ++ s) = (w ++ [c]) ++ rstrip s.
Proof.
  intros Hc. unfold rstrip. rewrite !rev_app_distr. cbn [rev app].
  rewrite lstrip_app_nonblank by done.
  rewrite rev_app_distr. cbn [rev]. by rewrite rev_involutive.
Qed.

Lemma cpu_line_metadata cpu_info : is_metadata (u "cpu: " ++ cpu_info) = true.
Proof.
  unfold is_metadata, strip.
  change (u "cpu: " ++ cpu_info)
    with (([99; 112; 117] ++ [58]) ++ 32 :: cpu_info)%N.
  cbn [app]. rewrite lstrip_head by reflexivity.
  change (99 :: 112 :: 117 :: 58 :: 32 :: cpu_info)%N
    with (([99; 112; 117] ++ [58]) ++ 32 :: cpu_info)%N.
  rewrite rstrip_app_nonblank by reflexivity. reflexivity.
Qed.

Section ReportAccepted.
Import Simulator.

Lemma sign_cases v : sign_bit v = false → v = S754_nan ∨ nonneg v.
Proof. destruct v; cbn; auto. Qed.

Lemma format_val_chars v :
  sign_bit v = false →
  word (format_val (Some v)) ∧ no_hyphen (format_val (Some v))
  ∧ format_val (Some v) ≠ [].
Proof.
  intros Hv. apply sign_cases in Hv as [-> | Hv].
  { split; [apply word_check; vm_compute; reflexivity|].
    split; [apply no_hyphen_check; vm_compute; reflexivity|discriminate]. }
  assert (Hk : ∀ k, k = f_1e3 ∨ k = f_1e6 ∨ k = f_1e9 → nonneg (fdiv v k)).
  { intros k Hk. apply fdiv_nonneg; [done| |right|right].
    - destruct Hk as [-> | [-> | ->]]; done.
    - destruct Hk as [-> | [-> | ->]]; intros H; vm_compute in H; discriminate.
    - destruct Hk as [-> | [-> | ->]]; intros H; vm_compute in H; discriminate. }
  assert (Hall : ∀ y sfx,
    nonneg y → sfx ∈ [u "n"; u "µ"; u "m"; u "s"] →
    word (format_2f y ++ sfx) ∧ no_hyphen (format_2f y ++ sfx)
    ∧ format_2f y ++ sfx ≠ []).
  { intros y sfx Hy Hs.
    pose proof (format_2f_chars y Hy) as Hc.
    assert (Hs' : Forall (fun c => negb (is_space c) && negb (c =? chr "-")%N = true) sfx
                  ∧ sfx ≠ []).
    { rewrite !elem_of_cons in Hs.
      destruct Hs as [-> | [-> | [-> | [-> | Hs]]]];
        [| | | |by apply elem_of_nil in Hs]; split; try discriminate; repeat constructor. }
    destruct Hs' as [Hs' Hne].
    pose proof (Forall_app_2 _ _ _ Hc Hs') as Hboth.
    split; [|split].
    - eapply Forall_impl; [exact Hboth|]. intros c Hcc.
      apply andb_true_iff in Hcc as [Hcc _]. by apply negb_true_iff in Hcc.
    - eapply Forall_impl; [exact Hboth|]. intros c Hcc.
      apply andb_true_iff in Hcc as [_ Hcc]. by apply negb_true_iff in Hcc.
    - intros E. apply app_eq_nil in E as [_ E]. done. }
  unfold format_val.
  destruct (flt v f_1e3); [|destruct (flt v f_1e6); [|destruct (flt v f_1e9)]];
    apply Hall; auto; rewrite !elem_of_cons; auto.
Qed.

Lemma cell_chars v :
  sign_bit v = false → no_hyphen (format_cell v).
Proof.
  intros Hv. unfold format_cell. destruct (feq v f_0).
  - apply no_hyphen_check. vm_compute. reflexivity.
  - apply Forall_app_2; [by apply format_val_chars|].
    apply no_hyphen_check. vm_compute. reflexivity.
Qed.

Lemma split_cell_tokens v s :
  sign_bit v = false → len (format_cell v) < 22 →
  split (ljust 22 (format_cell v) ++ s) = cell_tokens v ++ split s.
Proof.
  intros Hv Hfit. unfold cell_tokens. unfold format_cell in *.
  destruct (feq v f_0).
  - rewrite split_ljust; [done| |discriminate|done].
    apply word_check. vm_compute. reflexivity.
  - destruct (format_val_chars v Hv) as (Hw & _ & Hne).
    unfold ljust. rewrite spaces_pos by lia.
    rewrite <- !app_assoc. cbn [app].
    rewrite split_cell by done. cbn [app]. do 4 f_equal.
    apply split_blanks, blanks_spaces.
Qed.

Lemma cell_tokens_safe v :
  forallb (fun t => match parse_val t with Ok _ => true | Raise _ => false end)
    (cell_tokens v) = true.
Proof.
  unfold cell_tokens. destruct (feq v f_0); [vm_compute; reflexivity|].
  cbn [forallb]. rewrite format_val_read.
  change (parse_val (u "±")) with (@Ok (option float) None).
  change (parse_val (u "∞")) with (@Ok (option float) None).
  change (parse_val (u "¹")) with (@Ok (option float) None).
  reflexivity.
Qed.

Lemma no_hyphen_spaces n : no_hyphen (spaces n).
Proof. apply Forall_replicate. reflexivity. Qed.

Lemma row_safe base_map pr_map name :
  word name → name ≠ [] → no_hyphen name →
  startswith (u "Benchmark") name = false → len name < 52 →
  sign_bit (get0 base_map name) = false →
  len (format_cell (get0 base_map name)) < 22 →
  sign_bit (get0 pr_map name) = false →
  len (format_cell (get0 pr_map name)) < 22 →
  safe_tokens (row base_map pr_map name) = true.
Proof.
  intros Hw Hne Hh Hb Hlen Hsb Hfb Hsp Hfp.
  set (b := get0 base_map name) in *. set (p := get0 pr_map name) in *.
  assert (Hcomp : no_hyphen (comp_str b p)
                  ∧ forallb (fun t => match parse_val t with
                                      | Ok _ => true | Raise _ => false end)
                      (split (comp_str b p)) = true).
  { unfold comp_str. destruct (fgt b f_0 && fgt p f_0).
    - split; [apply no_hyphen_check|]; vm_compute; reflexivity.
    - split; [constructor|reflexivity]. }
  destruct Hcomp as [Hhc Hsc].
  assert (Hstrip : strip_worker_suffix (row base_map pr_map name)
                   = row base_map pr_map name).
  { unfold strip_worker_suffix, strip_benchmark_prefix, row. fold b p.
    assert (Hsw : startswith (u "Benchmark")
                    (ljust 52 name ++ ljust 22 (format_cell b)
                       ++ ljust 22 (format_cell p) ++ comp_str b p) = false).
    { unfold ljust at 1. rewrite spaces_pos by lia.
      rewrite <- app_assoc. cbn [app]. rewrite startswith_app; [done|].
      vm_compute. intros H. repeat (apply elem_of_cons in H as [H|H]; [discriminate|]).
      by apply elem_of_nil in H. }
    rewrite Hsw. apply sub_worker_id. unfold ljust.
    apply Forall_app_2; [apply Forall_app_2; [exact Hh|apply no_hyphen_spaces]|].
    apply Forall_app_2; [apply Forall_app_2; [by apply cell_chars|apply no_hyphen_spaces]|].
    apply Forall_app_2; [apply Forall_app_2; [by apply cell_chars|apply no_hyphen_spaces]|].
    exact Hhc. }
  unfold safe_tokens. rewrite Hstrip. unfold row. fold b p.
  rewrite split_ljust by done. cbn [drop]. rewrite ?drop_0.
  rewrite !split_cell_tokens by done.
  rewrite !forallb_app, !cell_tokens_safe. exact Hsc.
Qed.

Section Geomean.
Variable math_exp math_log : float → float.
Variable float_sum : list float → float.

Lemma geomean_row_safe base_values pr_values line :
  geomean_row math_exp math_log float_sum base_values pr_values = Some line →
  (∀ g, g ∈ [calc_geo math_exp math_log float_sum base_values;
             calc_geo math_exp math_log float_sum pr_values] →
        sign_bit g = false ∧ len (format_val (Some g)) < 22) →
  safe_tokens line = true.
Proof.
  intros Hrow Hg. unfold geomean_row in Hrow.
  destruct base_values as [|b0 bs]; [done|]. destruct pr_values as [|p0 ps]; [done|].
  cbv zeta in Hrow. apply (inj Some) in Hrow. subst line.
  set (gb := calc_geo math_exp math_log float_sum (b0 :: bs)) in *.
  set (gp := calc_geo math_exp math_log float_sum (p0 :: ps)) in *.
  destruct (Hg gb) as [Hsb Hfb]; [by left|].
  destruct (Hg gp) as [Hsp Hfp]; [right; by left|].
  destruct (format_val_chars gb Hsb) as (Hwb & Hhb & Hnb).
  destruct (format_val_chars gp Hsp) as (Hwp & Hhp & Hnp).
  assert (Hstrip : ∀ rest, no_hyphen rest →
            strip_worker_suffix (ljust 52 (u "geomean") ++ rest)
            = ljust 52 (u "geomean") ++ rest).
  { intros rest Hrest. unfold strip_worker_suffix, strip_benchmark_prefix.
    change (startswith (u "Benchmark") (ljust 52 (u "geomean") ++ rest)) with false.
    cbv iota. apply sub_worker_id. apply Forall_app_2; [|done].
    apply no_hyphen_check. vm_compute. reflexivity. }
  unfold safe_tokens. rewrite Hstrip.
  2:{ unfold ljust. repeat apply Forall_app_2; try done; apply no_hyphen_spaces. }
  rewrite split_ljust; [| |discriminate|vm_compute; reflexivity].
  2:{ apply word_check. vm_compute. reflexivity. }
  cbn [drop]. rewrite ?drop_0. rewrite split_ljust by done.
  rewrite <- (app_nil_r (ljust 22 (format_val (Some gp)))).
  rewrite split_ljust by done.
  cbn [forallb split split_go]. by rewrite !format_val_read.
Qed.

(** X15. TableReflow never fails on a report of the Comparator whose
    names are tokens shorter than their column, with no hyphen and not
    beginning with [Benchmark], and whose values and geometric means are
    not negative and fit their columns: every token that the scan reads in
    a row is a value that the Comparator printed or one of its marks, and
    the line of the processor model, whatever the model, is a metadata
    line that the scan never reads. The report keeps its number of lines. *)
Theorem report_accepted (cpu_info : str) (base_benches pr_benches : list bench) :
  let base_map := to_map base_benches in
  let pr_map := to_map pr_benches in
  let names := all_names base_map pr_map in
  let lines := report math_exp math_log float_sum cpu_info base_benches pr_benches in
  (∀ n, n ∈ names →
     word n ∧ n ≠ [] ∧ no_hyphen n
     ∧ startswith (u "Benchmark") n = false ∧ len n < 52) →
  (∀ n v, base_map !! n = Some v ∨ pr_map !! n = Some v →
     sign_bit v = false ∧ len (format_cell v) < 22) →
  (∀ g, g ∈ [calc_geo math_exp math_log float_sum (values_of base_map names);
             calc_geo math_exp math_log float_sum (values_of pr_map names)] →
     sign_bit g = false ∧ len (format_val (Some g)) < 22) →
  (∃ out, reflow lines = Ok out ∧ length out = length lines)
  ∧ ∀ text, splitlines text = lines → status (main (Present text)) = 0.
Proof.
  intros base_map pr_map names lines Hnames Hvals Hgeo.
  assert (Hget : ∀ m n, m = base_map ∨ m = pr_map →
            sign_bit (get0 m n) = false ∧ len (format_cell (get0 m n)) < 22).
  { intros m n Hm. unfold get0. destruct (m !! n) as [v|] eqn:E.
    - apply (Hvals n). destruct Hm as [-> | ->]; auto.
    - split; [reflexivity|vm_compute; reflexivity]. }
  assert (Hsafe : ∃ out, reflow lines = Ok out ∧ length out = length lines).
  { apply reflow_safe. intros dcs line Hline.
    unfold lines, report in Hline. fold base_map pr_map names in Hline.
    rewrite !elem_of_app in Hline.
    destruct Hline as [Hline|[Hline|[Hline|Hline]]].
    - unfold header_lines in Hline. rewrite !elem_of_cons in Hline.
      destruct Hline as [-> | [-> | [-> | [-> | [-> | [-> | [-> | [-> | Hline]]]]]]]];
        [ | | | | | left; apply cpu_line_metadata | | | by apply elem_of_nil in Hline];
        right; apply safe_tokens_ok; vm_compute; reflexivity.
    - apply list_elem_of_fmap in Hline as (n & -> & Hn).
      right. apply safe_tokens_ok.
      destruct (Hnames n Hn) as (? & ? & ? & ? & ?).
      destruct (Hget base_map n (or_introl eq_refl)) as [? ?].
      destruct (Hget pr_map n (or_intror eq_refl)) as [? ?].
      by apply row_safe.
    - destruct (geomean_row _ _ _ _ _) as [gline|] eqn:E;
        [|by apply elem_of_nil in Hline].
      cbn [option_list] in Hline. apply list_elem_of_singleton in Hline as ->.
      right. apply safe_tokens_ok. eapply geomean_row_safe; [exact E|exact Hgeo].
    - unfold footnotes in Hline. rewrite !elem_of_cons in Hline.
      destruct Hline as [-> | [-> | [-> | [-> | [-> | Hline]]]]];
        [| | | | |by apply elem_of_nil in Hline];
        right; apply safe_tokens_ok; vm_compute; reflexivity. }
  split; [exact Hsafe|].
  intros text Htext. destruct Hsafe as (out & Hout & _).
  unfold main, process. by rewrite Htext, Hout.
Qed.

End Geomean.

End ReportAccepted.

Section ReportSample.
Import Simulator.

(** A report with one benchmark on both sides and a processor model whose
    last token would be an unknown unit in a data line. *)
Lemma report_accepted_witness :
  ∃ out,
    reflow (report sample_exp sample_log plain_sum (u "Intel(R) Xeon(R) CPU @ 2.30GHz")
              [{| name := u "Enforce"; value := float_of_Z 100 |}]
              [{| name := u "Enforce"; value := float_of_Z 200 |}]) = Ok out
    ∧ length out = 15%nat.
Proof.
  destruct (report_accepted sample_exp sample_log plain_sum
              (u "Intel(R) Xeon(R) CPU @ 2.30GHz")
              [{| name := u "Enforce"; value := float_of_Z 100 |}]
              [{| name := u "Enforce"; value := float_of_Z 200 |}])
    as [(out & H & Hlen) _].
  - intros n Hn. vm_compute in Hn. apply list_elem_of_singleton in Hn as ->.
    split; [apply word_check; vm_compute; reflexivity|].
    split; [discriminate|].
    split; [apply no_hyphen_check; vm_compute; reflexivity|].
    split; vm_compute; reflexivity.
  - intros n v Hv. unfold to_map in Hv. cbn [foldl name value] in Hv.
    destruct Hv as [Hv|Hv];
      apply lookup_insert_Some in Hv as [[_ <-]|[_ Hv]];
      try (by rewrite lookup_empty in Hv);
      split; vm_compute; reflexivity.
  - intros g Hg. rewrite !elem_of_cons in Hg.
    destruct Hg as [-> | [-> | Hg]]; [| |by apply elem_of_nil in Hg];
      split; vm_compute; reflexivity.
  - exists out. split; [exact H|]. rewrite Hlen. vm_compute. reflexivity.
Defined.

End ReportSample.

(** ** From the Comparator to TableReflow: rows without a difference *)

Section RowsWithoutDiff.
Import Simulator.





End RowsWithoutDiff.

(** ** From the Comparator to TableReflow: the row of the geometric means *)

Lemma split_word_blanks w ws :
  word w → w ≠ [] → blanks ws → split (w ++ ws) = [w].
Proof.
  intros Hw Hne Hws. destruct Hws as [|c ws Hc Hws].
  - rewrite app_nil_r. unfold split.
    rewrite <- (app_nil_r w) at 1. rewrite split_go_word by done.
    rewrite app_nil_r. cbn [split_go].
    destruct (rev w) as [|x r] eqn:E.
    + apply (f_equal (@rev N)) in E. rewrite rev_involutive in E. done.
    + by rewrite <- E, rev_involutive.
  - rewrite split_word by done. f_equal.
    rewrite <- (app_nil_r ws). by rewrite split_blanks.
Qed.

Lemma rstrip_app_blanks s ws : blanks ws → rstrip (s ++ ws) = rstrip s.
Proof.
  intros Hws. unfold rstrip. rewrite rev_app_distr, lstrip_blanks; [done|].
  by apply Forall_rev.
Qed.

Section GeomeanRow.
Import Simulator.
Variable math_exp math_log : float → float.
Variable float_sum : list float → float.

Lemma format_val_last v :
  ∃ w c, format_val (Some v) = w ++ [c] ∧ is_space c = false.
Proof.
  unfold format_val.
  destruct (flt v f_1e3); [|destruct (flt v f_1e6); [|destruct (flt v f_1e9)]].
  - by exists (format_2f v), 110%N.
  - by exists (format_2f (fdiv v f_1e3)), 181%N.
  - by exists (format_2f (fdiv v f_1e6)), 109%N.
  - by exists (format_2f (fdiv v f_1e9)), 115%N.
Qed.

(** X17. The row of the geometric means is a data line to TableReflow
    like any other: the scan finds the two means that [parse_val] reads in
    it, and when the first is not zero the row, without the blanks at its
    end, gets the difference of the two in percent. *)
Theorem geomean_row_read_back (base_values pr_values : list float) (line : str)
    (x y : float) (dcs : Z) :
  let gb := calc_geo math_exp math_log float_sum base_values in
  let gp := calc_geo math_exp math_log float_sum pr_values in
  geomean_row math_exp math_log float_sum base_values pr_values = Some line →
  sign_bit gb = false → len (format_val (Some gb)) < 22 →
  sign_bit gp = false →
  parse_val (format_val (Some gb)) = Ok (Some x) →
  parse_val (format_val (Some gp)) = Ok (Some y) →
  extract_two_numbers (split (strip_worker_suffix line)) = Ok [x; y]
  ∧ (fne x (float_of_Z 0) = true →
     reflow_data dcs line
     = Ok (append_aligned dcs
             (ljust 52 (u "geomean") ++ ljust 22 (format_val (Some gb))
                ++ format_val (Some gp))
             (diff_text (diff_percent x y)))).
Proof.
  intros gb gp Hrow Hsb Hfb Hsp Hx Hy. unfold geomean_row in Hrow.
  destruct base_values as [|b0 bs]; [done|]. destruct pr_values as [|p0 ps]; [done|].
  cbv zeta in Hrow. apply (inj Some) in Hrow. subst line. fold gb gp.
  destruct (format_val_chars gb Hsb) as (Hwb & Hhb & Hnb).
  destruct (format_val_chars gp Hsp) as (Hwp & Hhp & Hnp).
  set (line := ljust 52 (u "geomean") ++ ljust 22 (format_val (Some gb))
                 ++ ljust 22 (format_val (Some gp))).
  assert (Hstrip : strip_worker_suffix line = line).
  { unfold strip_worker_suffix, strip_benchmark_prefix.
    change (startswith (u "Benchmark") line) with false.
    cbv iota. apply sub_worker_id. unfold line, ljust.
    apply Forall_app_2; [apply Forall_app_2; [|apply no_hyphen_spaces]|].
    { apply no_hyphen_check. vm_compute. reflexivity. }
    repeat apply Forall_app_2; try done; apply no_hyphen_spaces. }
  assert (Hsplit : split line
                   = [u "geomean"; format_val (Some gb); format_val (Some gp)]).
  { unfold line. rewrite split_ljust; [| |discriminate|vm_compute; reflexivity].
    2:{ apply word_check. vm_compute. reflexivity. }
    rewrite split_ljust by done. unfold ljust.
    by rewrite split_word_blanks by (try done; apply blanks_spaces). }
  assert (Hnum : extract_two_numbers (split line) = Ok [x; y]).
  { rewrite Hsplit. unfold extract_two_numbers. cbn [drop]. rewrite ?drop_0.
    rewrite (extract_loop_number [] _ _ x Hx). cbn [app length Nat.eqb].
    by rewrite (extract_loop_number [x] _ _ y Hy). }
  rewrite Hstrip. split; [exact Hnum|].
  intros Hx0. unfold reflow_data. rewrite Hstrip, Hnum, Hsplit.
  cbn [mbind result_bind]. rewrite Hx0. do 2 f_equal.
  destruct (format_val_last gp) as (w & c & Hwc & Hc).
  unfold line. unfold ljust at 3. rewrite !app_assoc.
  rewrite rstrip_app_blanks by apply blanks_spaces.
  rewrite Hwc, !app_assoc. by apply rstrip_end.
Qed.

End GeomeanRow.

Section GeomeanRowSample.
Import Simulator.

Lemma geomean_row_read_back_witness :
  reflow_data 60 (ljust 52 (u "geomean") ++ ljust 22 (u "100.00n") ++ ljust 22 (u "200.00n"))
  = Ok (append_aligned 60 (ljust 52 (u "geomean") ++ ljust 22 (u "100.00n") ++ u "200.00n")
          (u "+100.00% 🐌")).
Proof.
  destruct (geomean_row_read_back sample_exp sample_log plain_sum
              [float_of_Z 100] [float_of_Z 200]
              (ljust 52 (u "geomean") ++ ljust 22 (u "100.00n") ++ ljust 22 (u "200.00n"))
              (fmul (float_of_ratio false 10000 100) f_1e_9)
              (fmul (float_of_ratio false 20000 100) f_1e_9) 60) as [_ H];
    [ vm_compute; reflexivity
    | vm_compute; reflexivity
    | vm_compute; reflexivity
    | vm_compute; reflexivity
    | vm_compute; reflexivity
    | vm_compute; reflexivity
    | ].
  rewrite H by (vm_compute; reflexivity). vm_compute. reflexivity.
Defined.

End GeomeanRowSample.
